(** * Spell-Card-Maker: the SRD extractor and the CSV form of a spell

    A shallow embedding of [src/spell_data/srd_extractor.py] and of the CSV
    methods of [src/spell.py], with the properties of the extraction pipeline
    proved (or refuted) on it.

    Text.  A Python [str] is a [string]; a character is an [ascii].  The
    character tests that Python takes from the Unicode tables ([\w], [\d],
    [str.title], [str.strip]) are given here on the ASCII range, and a
    character above 127 is neither a word character nor a cased one; the
    bullet of a flattened list is carried as its UTF-8 bytes.

    Exceptions.  A function that can raise returns a [result]; [print] appends
    to a log that is threaded through the batch loop. *)

From Stdlib Require Import String Ascii ZArith Bool Lia.
From Stdlib Require Import DecimalString DecimalZ Permutation SpecFloat.
From stdpp Require Import gmap strings list.

Set Default Goal Selector "!".

(* ================================================================== *)
(** ** Python built-ins on [str] *)
(* ================================================================== *)

Module Py.

Definition nl : ascii := "010"%char.

(** ["\n\n"] *)
Definition nlnl : string := String nl (String nl "").

Definition code (c : ascii) : nat := nat_of_ascii c.

Definition is_upper (c : ascii) : bool := (65 <=? code c) && (code c <=? 90).
Definition is_lower (c : ascii) : bool := (97 <=? code c) && (code c <=? 122).
Definition is_digit (c : ascii) : bool := (48 <=? code c) && (code c <=? 57).
Definition is_alpha (c : ascii) : bool := is_upper c || is_lower c.

(** [\w]: letters, digits and the underscore. *)
Definition is_word (c : ascii) : bool :=
  is_alpha c || is_digit c || Ascii.eqb c "_".

(** [str.isspace] on one character: TAB..CR, FS..US and the blank. *)
Definition is_space (c : ascii) : bool :=
  ((9 <=? code c) && (code c <=? 13)) || ((28 <=? code c) && (code c <=? 32)).

Definition upper (c : ascii) : ascii :=
  if is_lower c then ascii_of_nat (code c - 32) else c.
Definition lower (c : ascii) : ascii :=
  if is_upper c then ascii_of_nat (code c + 32) else c.

(** [s.startswith(p)] *)
Fixpoint startswith (p s : string) : bool :=
  match p, s with
  | EmptyString, _ => true
  | String a p', String b s' => Ascii.eqb a b && startswith p' s'
  | String _ _, EmptyString => false
  end.

(** [p in s] *)
Fixpoint contains (p s : string) : bool :=
  startswith p s ||
  match s with
  | EmptyString => false
  | String _ s' => contains p s'
  end.

(** [s[n:]] and [s[:n]] for [0 <= n]. *)
Fixpoint drop (n : nat) (s : string) : string :=
  match n, s with
  | S n', String _ s' => drop n' s'
  | _, _ => s
  end.

Fixpoint take (n : nat) (s : string) : string :=
  match n, s with
  | S n', String c s' => String c (take n' s')
  | _, _ => EmptyString
  end.

(** [s[i:j]] for [0 <= i], [0 <= j]. *)
Definition slice (i j : nat) (s : string) : string := take (j - i) (drop i s).

Fixpoint rev_acc (s acc : string) : string :=
  match s with
  | EmptyString => acc
  | String c s' => rev_acc s' (String c acc)
  end.

Definition rev (s : string) : string := rev_acc s "".

Fixpoint lstrip (s : string) : string :=
  match s with
  | String c s' => if is_space c then lstrip s' else s
  | EmptyString => EmptyString
  end.

Definition rstrip (s : string) : string := rev (lstrip (rev s)).

(** [s.strip()] *)
Definition strip (s : string) : string := rstrip (lstrip s).

(** [s.title()]: a cased character is upper-cased when the character before
    it is not cased, and lower-cased otherwise. *)
Fixpoint title_from (prev_cased : bool) (s : string) : string :=
  match s with
  | EmptyString => EmptyString
  | String c s' =>
      String (if prev_cased then lower c else upper c) (title_from (is_alpha c) s')
  end.

Definition title (s : string) : string := title_from false s.

(** [s.split(sep)] for a non-empty [sep]: [skip] counts the characters of a
    separator still to be passed over, [cur] is the piece being read. *)
Fixpoint split_from (sep : string) (skip : nat) (cur : string) (s : string)
  : list string :=
  match s with
  | EmptyString => [cur]
  | String c s' =>
      match skip with
      | S k => split_from sep k cur s'
      | O =>
          if startswith sep s
          then cur :: split_from sep (String.length sep - 1) "" s'
          else split_from sep 0 (cur +:+ String c "") s'
      end
  end.

Definition split (sep s : string) : list string := split_from sep 0 "" s.

(** [sep.join(l)] *)
Fixpoint join (sep : string) (l : list string) : string :=
  match l with
  | [] => ""
  | [x] => x
  | x :: l' => x +:+ sep +:+ join sep l'
  end.

(** [s.replace(old, new)] for a non-empty [old]. *)
Fixpoint replace_from (old new : string) (skip : nat) (s : string) : string :=
  match s with
  | EmptyString => EmptyString
  | String c s' =>
      match skip with
      | S k => replace_from old new k s'
      | O =>
          if startswith old s
          then new +:+ replace_from old new (String.length old - 1) s'
          else String c (replace_from old new 0 s')
      end
  end.

Definition replace (old new s : string) : string := replace_from old new 0 s.

(** [s[-2:]] *)
Definition last2 (s : string) : string := drop (String.length s - 2) s.

(** [s[:-1]] *)
Definition chop (s : string) : string := take (String.length s - 1) s.

(** [str(n)] for an [int]. *)
Definition str (n : Z) : string := NilZero.string_of_int (Z.to_int n).

(** The digits of an [int] literal, where single underscores may stand
    between digits; [after_digit] says whether the last character read was a
    digit. *)
Fixpoint digits_of (after_digit : bool) (s : string) : option string :=
  match s with
  | EmptyString => if after_digit then Some EmptyString else None
  | String c s' =>
      if is_digit c then option_map (String c) (digits_of true s')
      else if Ascii.eqb c "_" && after_digit then digits_of false s'
      else None
  end.

Definition unsigned_of (s : string) : option Z :=
  match digits_of false s with
  | Some d => option_map Z.of_uint (NilEmpty.uint_of_string d)
  | None => None
  end.

(** [int(s)] for a [str]: surrounding white space, an optional sign, decimal
    digits.  [None] stands for [ValueError]. *)
Definition int (s : string) : option Z :=
  match strip s with
  | String "-" s' => option_map Z.opp (unsigned_of s')
  | String "+" s' => unsigned_of s'
  | s' => unsigned_of s'
  end.

(** [s.lower()] *)
Fixpoint lower_str (s : string) : string :=
  match s with
  | EmptyString => EmptyString
  | String c s' => String (lower c) (lower_str s')
  end.

(** [c.isalnum()] for one character. *)
Definition is_alnum (c : ascii) : bool := is_alpha c || is_digit c.

End Py.

(* ================================================================== *)
(** ** The fragment of Python's [re] that the extractor uses *)
(* ================================================================== *)

(** A backtracking matcher in continuation-passing style: alternatives are
    tried in the order in which [re] tries them (a greedy repetition first
    tries one more iteration), so that the first success is the match that
    [re] reports. *)

Module Re.

(** One-character patterns. *)
Inductive cset : Type :=
| Lit (c : ascii)          (** a literal character *)
| Digit                    (** [\d] *)
| Word                     (** [\w] *)
| Dot                      (** [.]: anything but a line break *)
| NoneOf (cs : list ascii) (** [[^...]] *).

Definition in_cset (cs : cset) (a : ascii) : bool :=
  match cs with
  | Lit c => Ascii.eqb c a
  | Digit => Py.is_digit a
  | Word => Py.is_word a
  | Dot => negb (Ascii.eqb a Py.nl)
  | NoneOf l => negb (existsb (Ascii.eqb a) l)
  end.

Inductive regex : Type :=
| Chr (c : cset)
| Str (s : string)                          (** a run of literal characters *)
| Seq (r1 r2 : regex)
| Alt (r1 r2 : regex)                       (** [r1|r2] *)
| Rep (lo : nat) (hi : option nat) (r : regex) (** greedy [r{lo,hi}] *)
| Grp (n : nat) (r : regex)                 (** capturing group number [n] *)
| NonGrp (r : regex)                        (** [(?:r)] *)
| Back (n : nat)                            (** [\n] *)
| NotAhead (r : regex)                      (** [(?!r)] *)
| Bnd                                       (** [\b] *).

Definition Opt (r : regex) : regex := Rep 0 (Some 1) r.   (** [r?] *)
Definition Plus (r : regex) : regex := Rep 1 None r.      (** [r+] *)

Declare Scope regex_scope.
Delimit Scope regex_scope with re.
Bind Scope regex_scope with regex.
Infix "·" := Seq (at level 41, right associativity) : regex_scope.

(** The matcher's position in the subject: the character before it (for
    [\b]), the text from it on, its index, and the groups closed so far. *)
Record mstate : Type := MState {
  prev : option ascii;
  rest : string;
  pos : nat;
  caps : list (nat * string)
}.

Fixpoint get_cap (n : nat) (l : list (nat * string)) : option string :=
  match l with
  | [] => None
  | (k, s) :: l' => if Nat.eqb k n then Some s else get_cap n l'
  end.

Definition set_cap (n : nat) (s : string) (st : mstate) : mstate :=
  MState (prev st) (rest st) (pos st) ((n, s) :: caps st).

(** Pass over the literal text [s], if the subject continues with it. *)
Fixpoint eat (s : string) (st : mstate) : option mstate :=
  match s with
  | EmptyString => Some st
  | String c s' =>
      match rest st with
      | String a t =>
          if Ascii.eqb c a
          then eat s' (MState (Some a) t (S (pos st)) (caps st))
          else None
      | EmptyString => None
      end
  end.

Definition wordish (o : option ascii) : bool :=
  match o with
  | Some a => Py.is_word a
  | None => false
  end.

Definition next (st : mstate) : option ascii :=
  match rest st with
  | String a _ => Some a
  | EmptyString => None
  end.

(** [\b]: exactly one of the two neighbours is a word character. *)
Definition at_boundary (st : mstate) : bool :=
  xorb (wordish (prev st)) (wordish (next st)).

Definition below (count : nat) (hi : option nat) : bool :=
  match hi with
  | Some h => count <? h
  | None => true
  end.

Definition first_of {A} (x y : option A) : option A :=
  match x with
  | Some _ => x
  | None => y
  end.

(** The loop of a greedy repetition: [step st k] matches the repeated
    pattern once at [st] and goes on with [k]; [count] iterations are done.
    One more iteration is tried first; when that fails, the loop is left if
    [count] has reached [lo].  An iteration that does not advance is not
    repeated, so [fuel], the length of the text left, is never used up. *)
Fixpoint repeat_greedy
  (step : mstate -> (mstate -> option mstate) -> option mstate)
  (lo : nat) (hi : option nat) (k : mstate -> option mstate)
  (fuel count : nat) (st : mstate) {struct fuel} : option mstate :=
  let stop := if lo <=? count then k st else None in
  match fuel with
  | O => stop
  | S fuel' =>
      if below count hi
      then first_of
             (step st (fun st' =>
                if pos st <? pos st'
                then repeat_greedy step lo hi k fuel' (S count) st'
                else None))
             stop
      else stop
  end.

(** [exec r st k]: match [r] at [st], then go on with [k]; [None] when every
    way of matching [r] there makes [k] fail. *)
Fixpoint exec (r : regex) (st : mstate) (k : mstate -> option mstate)
  {struct r} : option mstate :=
  match r with
  | Chr c =>
      match rest st with
      | String a t =>
          if in_cset c a then k (MState (Some a) t (S (pos st)) (caps st))
          else None
      | EmptyString => None
      end
  | Str s =>
      match eat s st with
      | Some st' => k st'
      | None => None
      end
  | Seq r1 r2 => exec r1 st (fun st' => exec r2 st' k)
  | Alt r1 r2 => first_of (exec r1 st k) (exec r2 st k)
  | Rep lo hi r' =>
      repeat_greedy (exec r') lo hi k (String.length (rest st)) 0 st
  | Grp n r' =>
      exec r' st (fun st' =>
        k (set_cap n (Py.take (pos st' - pos st) (rest st)) st'))
  | NonGrp r' => exec r' st k
  | Back n =>
      match get_cap n (caps st) with
      | Some s =>
          match eat s st with
          | Some st' => k st'
          | None => None
          end
      | None => None
      end
  | NotAhead r' =>
      match exec r' st Some with
      | Some _ => None
      | None => k st
      end
  | Bnd => if at_boundary st then k st else None
  end.

(** A match object: [m.start()], [m.end()] and the groups that took part. *)
Record rmatch : Type := RMatch {
  m_start : nat;
  m_end : nat;
  m_groups : list (nat * string)
}.

(** [m.group(n)]; [None] is Python's [None] for a group that did not take
    part in the match. *)
Definition group (n : nat) (m : rmatch) : option string :=
  get_cap n (m_groups m).

(** [m.group(n)] as a [str], for a group that takes part in every match of
    its pattern; also the text that stands for the group in a replacement
    template, where a group that took no part gives the empty text. *)
Definition group_str (n : nat) (m : rmatch) : string :=
  default "" (group n m).

(** Try the pattern at the position of [s], then at each later one. *)
Fixpoint scan (r : regex) (pv : option ascii) (s : string) (p : nat)
  : option rmatch :=
  match exec r (MState pv s p []) Some with
  | Some st' => Some (RMatch p (pos st') (caps st'))
  | None =>
      match s with
      | EmptyString => None
      | String a t => scan r (Some a) t (S p)
      end
  end.

(** Move to index [n] of the subject (or to its end, if it is shorter),
    keeping the character before that index. *)
Fixpoint seek (n : nat) (pv : option ascii) (s : string) (p : nat)
  : option ascii * string * nat :=
  match n, s with
  | S n', String a t => seek n' (Some a) t (S p)
  | _, _ => (pv, s, p)
  end.

(** [pattern.search(s, start)] *)
Definition search (r : regex) (s : string) (start : nat) : option rmatch :=
  let '(pv, t, p) := seek start None s 0 in scan r pv t p.

(** [pattern.finditer(s)], for a pattern that matches no empty text. *)
Fixpoint finditer_from (fuel : nat) (r : regex) (s : string) (start : nat)
  : list rmatch :=
  match fuel with
  | O => []
  | S fuel' =>
      match search r s start with
      | Some m => m :: finditer_from fuel' r s (Nat.max (m_end m) (S start))
      | None => []
      end
  end.

Definition finditer (r : regex) (s : string) : list rmatch :=
  finditer_from (S (String.length s)) r s 0.

(** [pattern.sub(template, s)], for a pattern that matches no empty text;
    [template m] is the text put in the place of the match [m]. *)
Fixpoint sub_from (fuel : nat) (r : regex) (template : rmatch -> string)
  (s : string) (start : nat) : string :=
  match fuel with
  | O => Py.drop start s
  | S fuel' =>
      match search r s start with
      | Some m =>
          Py.slice start (m_start m) s +:+ template m +:+
          sub_from fuel' r template s (Nat.max (m_end m) (S start))
      | None => Py.drop start s
      end
  end.

Definition sub (r : regex) (template : rmatch -> string) (s : string) : string :=
  sub_from (S (String.length s)) r template s 0.

End Re.

(* ================================================================== *)
(** ** Exceptions *)
(* ================================================================== *)

Inductive exn : Type :=
| RuntimeError (msg : string)
| ValueError
| IndexError
| KeyError (key : string)
| AttributeError (attr : string).

Inductive result (A : Type) : Type :=
| Ok (a : A)
| Raise (e : exn).

Arguments Ok {A} a.
Arguments Raise {A} e.

Definition bind {A B} (x : result A) (k : A -> result B) : result B :=
  match x with
  | Ok a => k a
  | Raise e => Raise e
  end.

Notation "x <-- e ;; k" := (bind e (fun x => k))
  (at level 100, e at next level, right associativity).

(** [l[i]] *)
Definition item (i : nat) (l : list string) : result string :=
  match l !! i with
  | Some x => Ok x
  | None => Raise IndexError
  end.

(** [int(s)] *)
Definition to_int (s : string) : result Z :=
  match Py.int s with
  | Some n => Ok n
  | None => Raise ValueError
  end.

(** The double quote, for the messages that quote a spell's name. *)
Definition dq : string := String (ascii_of_nat 34) "".

(* ================================================================== *)
(** ** Values of any kind *)
(* ================================================================== *)

(** What [json.load] and [yaml.safe_load] give, and what an attribute holds
    that is assigned from it: [None], a [bool], an [int], a [float], a [str],
    a list, a dictionary (its keys are [str], in the order of insertion), or
    the wrapper [Spell.YamlRulesText(content)]. *)
#[warnings="-register-all"]
Inductive value : Type :=
| VNone
| VBool (b : bool)
| VInt (n : Z)
| VFloat (x : spec_float)
| VStr (s : string)
| VList (l : list value)
| VDict (d : list (string * value))
| VRules (content : value).

(** The operations on such values raise the exceptions above, and
    [TypeError]. *)
Inductive error : Type :=
| Exn (e : exn)
| TypeError.

Inductive checked (A : Type) : Type :=
| Good (a : A)
| Bad (e : error).

Arguments Good {A} a.
Arguments Bad {A} e.

Definition check {A B} (x : checked A) (k : A -> checked B) : checked B :=
  match x with
  | Good a => k a
  | Bad e => Bad e
  end.

Notation "x <~~ e ;; k" := (check e (fun x => k))
  (at level 100, e at next level, right associativity).

Module Value.

(** The characters of a [str]: a byte that continues a UTF-8 sequence
    belongs to the character before it. *)
Definition continues (c : ascii) : bool :=
  (128 <=? Py.code c) && (Py.code c <=? 191).

Fixpoint chars_from (cur : string) (s : string) : list string :=
  match s with
  | EmptyString => [cur]
  | String c s' =>
      if continues c then chars_from (cur +:+ String c "") s'
      else cur :: chars_from (String c "") s'
  end.

Definition chars (s : string) : list string :=
  match s with
  | EmptyString => []
  | String c s' => chars_from (String c "") s'
  end.

(** [bool(v)], the test of [if v:] *)
Definition truthy (v : value) : bool :=
  match v with
  | VNone => false
  | VBool b => b
  | VInt n => negb (n =? 0)%Z
  | VFloat (S754_zero _) => false
  | VFloat _ => true
  | VStr s => negb (String.eqb s "")
  | VList l => negb (bool_decide (l = []))
  | VDict d => negb (bool_decide (d.*1 = []))
  | VRules _ => true
  end.

(** [len(v)] *)
Definition len (v : value) : checked nat :=
  match v with
  | VStr s => Good (length (chars s))
  | VList l => Good (length l)
  | VDict d => Good (length d)
  | _ => Bad TypeError
  end.

(** [d.get(key)] for a dictionary *)
Fixpoint get (d : list (string * value)) (key : string) : option value :=
  match d with
  | [] => None
  | (k, v) :: d' => if String.eqb k key then Some v else get d' key
  end.

Definition is_str (key : string) (v : value) : bool :=
  match v with
  | VStr s => String.eqb s key
  | _ => false
  end.

(** [key in v] for a [str] key: a key of a dictionary, an element of a list,
    a part of a text; other values cannot be searched. *)
Definition contains (key : string) (v : value) : checked bool :=
  match v with
  | VDict d => Good (bool_decide (is_Some (get d key)))
  | VList l => Good (existsb (is_str key) l)
  | VStr s => Good (Py.contains key s)
  | _ => Bad TypeError
  end.

(** [v[key]] for a [str] key *)
Definition subscript (v : value) (key : string) : checked value :=
  match v with
  | VDict d =>
      match get d key with
      | Some x => Good x
      | None => Bad (Exn (KeyError key))
      end
  | _ => Bad TypeError
  end.

(** [v.split(sep)] *)
Definition split (sep : string) (v : value) : checked value :=
  match v with
  | VStr s => Good (VList (VStr <$> Py.split sep s))
  | _ => Bad (Exn (AttributeError "split"))
  end.

(** The items of an iterable as [str]s, for [join]. *)
Fixpoint strs (l : list value) : checked (list string) :=
  match l with
  | [] => Good []
  | VStr s :: l' => r <~~ strs l' ;; Good (s :: r)
  | _ :: _ => Bad TypeError
  end.

(** [sep.join(v)]: over the elements of a list, the characters of a text or
    the keys of a dictionary. *)
Definition join (sep : string) (v : value) : checked string :=
  match v with
  | VList l => r <~~ strs l ;; Good (Py.join sep r)
  | VStr s => Good (Py.join sep (chars s))
  | VDict d => Good (Py.join sep d.*1)
  | _ => Bad TypeError
  end.

End Value.

(* ================================================================== *)
(** ** [src/spell.py]: the record of a spell *)
(* ================================================================== *)

(** A [Spell] object starts with no attribute at all (the class body only
    annotates them) and gets them by assignment, so each attribute is an
    [option]: [None] is an attribute that has not been set, [hasattr] is
    [is_Some], and an assignment is one of the [set_] functions. *)

Module Spell.

Record t : Type := mk {
  name : option string;
  level : option Z;
  rules : option string;
  school : option string;
  classes : option (list string);
  cast_time : option string;
  range : option string;
  duration : option string;
  concentration : option bool;
  ritual : option bool;
  verbal : option bool;
  somatic : option bool;
  material : option bool;
  material_costly : option bool;
  material_consumed : option bool;
  material_text : option string;
  material_cost : option string;
  source : option string
}.

(** [Spell()] *)
Definition new : t :=
  mk None None None None None None None None None
     None None None None None None None None None.

Definition set_name (v : string) (s : t) : t :=
  mk (Some v) (level s) (rules s) (school s) (classes s) (cast_time s)
     (range s) (duration s) (concentration s) (ritual s) (verbal s) (somatic s)
     (material s) (material_costly s) (material_consumed s) (material_text s) (material_cost s) (source s).

Definition set_level (v : Z) (s : t) : t :=
  mk (name s) (Some v) (rules s) (school s) (classes s) (cast_time s)
     (range s) (duration s) (concentration s) (ritual s) (verbal s) (somatic s)
     (material s) (material_costly s) (material_consumed s) (material_text s) (material_cost s) (source s).

Definition set_rules (v : string) (s : t) : t :=
  mk (name s) (level s) (Some v) (school s) (classes s) (cast_time s)
     (range s) (duration s) (concentration s) (ritual s) (verbal s) (somatic s)
     (material s) (material_costly s) (material_consumed s) (material_text s) (material_cost s) (source s).

Definition set_school (v : string) (s : t) : t :=
  mk (name s) (level s) (rules s) (Some v) (classes s) (cast_time s)
     (range s) (duration s) (concentration s) (ritual s) (verbal s) (somatic s)
     (material s) (material_costly s) (material_consumed s) (material_text s) (material_cost s) (source s).

Definition set_classes (v : list string) (s : t) : t :=
  mk (name s) (level s) (rules s) (school s) (Some v) (cast_time s)
     (range s) (duration s) (concentration s) (ritual s) (verbal s) (somatic s)
     (material s) (material_costly s) (material_consumed s) (material_text s) (material_cost s) (source s).

Definition set_cast_time (v : string) (s : t) : t :=
  mk (name s) (level s) (rules s) (school s) (classes s) (Some v)
     (range s) (duration s) (concentration s) (ritual s) (verbal s) (somatic s)
     (material s) (material_costly s) (material_consumed s) (material_text s) (material_cost s) (source s).

Definition set_range (v : string) (s : t) : t :=
  mk (name s) (level s) (rules s) (school s) (classes s) (cast_time s)
     (Some v) (duration s) (concentration s) (ritual s) (verbal s) (somatic s)
     (material s) (material_costly s) (material_consumed s) (material_text s) (material_cost s) (source s).

Definition set_duration (v : string) (s : t) : t :=
  mk (name s) (level s) (rules s) (school s) (classes s) (cast_time s)
     (range s) (Some v) (concentration s) (ritual s) (verbal s) (somatic s)
     (material s) (material_costly s) (material_consumed s) (material_text s) (material_cost s) (source s).

Definition set_concentration (v : bool) (s : t) : t :=
  mk (name s) (level s) (rules s) (school s) (classes s) (cast_time s)
     (range s) (duration s) (Some v) (ritual s) (verbal s) (somatic s)
     (material s) (material_costly s) (material_consumed s) (material_text s) (material_cost s) (source s).

Definition set_ritual (v : bool) (s : t) : t :=
  mk (name s) (level s) (rules s) (school s) (classes s) (cast_time s)
     (range s) (duration s) (concentration s) (Some v) (verbal s) (somatic s)
     (material s) (material_costly s) (material_consumed s) (material_text s) (material_cost s) (source s).

Definition set_verbal (v : bool) (s : t) : t :=
  mk (name s) (level s) (rules s) (school s) (classes s) (cast_time s)
     (range s) (duration s) (concentration s) (ritual s) (Some v) (somatic s)
     (material s) (material_costly s) (material_consumed s) (material_text s) (material_cost s) (source s).

Definition set_somatic (v : bool) (s : t) : t :=
  mk (name s) (level s) (rules s) (school s) (classes s) (cast_time s)
     (range s) (duration s) (concentration s) (ritual s) (verbal s) (Some v)
     (material s) (material_costly s) (material_consumed s) (material_text s) (material_cost s) (source s).

Definition set_material (v : bool) (s : t) : t :=
  mk (name s) (level s) (rules s) (school s) (classes s) (cast_time s)
     (range s) (duration s) (concentration s) (ritual s) (verbal s) (somatic s)
     (Some v) (material_costly s) (material_consumed s) (material_text s) (material_cost s) (source s).

Definition set_material_costly (v : bool) (s : t) : t :=
  mk (name s) (level s) (rules s) (school s) (classes s) (cast_time s)
     (range s) (duration s) (concentration s) (ritual s) (verbal s) (somatic s)
     (material s) (Some v) (material_consumed s) (material_text s) (material_cost s) (source s).

Definition set_material_consumed (v : bool) (s : t) : t :=
  mk (name s) (level s) (rules s) (school s) (classes s) (cast_time s)
     (range s) (duration s) (concentration s) (ritual s) (verbal s) (somatic s)
     (material s) (material_costly s) (Some v) (material_text s) (material_cost s) (source s).

Definition set_material_text (v : string) (s : t) : t :=
  mk (name s) (level s) (rules s) (school s) (classes s) (cast_time s)
     (range s) (duration s) (concentration s) (ritual s) (verbal s) (somatic s)
     (material s) (material_costly s) (material_consumed s) (Some v) (material_cost s) (source s).

Definition set_material_cost (v : string) (s : t) : t :=
  mk (name s) (level s) (rules s) (school s) (classes s) (cast_time s)
     (range s) (duration s) (concentration s) (ritual s) (verbal s) (somatic s)
     (material s) (material_costly s) (material_consumed s) (material_text s) (Some v) (source s).

Definition set_source (v : string) (s : t) : t :=
  mk (name s) (level s) (rules s) (school s) (classes s) (cast_time s)
     (range s) (duration s) (concentration s) (ritual s) (verbal s) (somatic s)
     (material s) (material_costly s) (material_consumed s) (material_text s) (material_cost s) (Some v).

(** A CSV row: the columns in the order of the dictionary display. *)
Definition row : Type := list (string * string).

(** [csv_row[key]] *)
Fixpoint getitem (csv_row : row) (key : string) : result string :=
  match csv_row with
  | [] => Raise (KeyError key)
  | (k, v) :: csv_row' => if String.eqb k key then Ok v else getitem csv_row' key
  end.

(** ['yes' if getattr(self, attr, False) else 'no'] *)
Definition yes_no (attr : option bool) : string :=
  if default false attr then "yes" else "no".

(** [True if csv_row[key] == 'yes' else False] *)
Definition is_yes (v : string) : bool := String.eqb v "yes".

Definition to_csv_dict (self : t) : row :=
  [ ("level", Py.str (default (-1)%Z (level self)));
    ("name", default "Unknown" (name self));
    ("school", default "Unknown" (school self));
    ("classes", Py.join ", " (default [] (classes self)));
    ("range", default "" (range self));
    ("cast_time", default "" (cast_time self));
    ("duration", default "" (duration self));
    ("concentration", yes_no (concentration self));
    ("ritual", yes_no (ritual self));
    ("verbal", yes_no (verbal self));
    ("somatic", yes_no (somatic self));
    ("material", yes_no (material self));
    ("material_costly", yes_no (material_costly self));
    ("material_consumed", yes_no (material_consumed self));
    ("material_text", default "" (material_text self));
    ("material_cost", default "" (material_cost self));
    ("rules", default "" (rules self));
    ("source", default "" (source self)) ].

Definition from_csv_dict (self : t) (csv_row : row) : result t :=
  v <-- getitem csv_row "level" ;;
  n <-- to_int v ;;
  let self := set_level n self in
  v <-- getitem csv_row "name" ;;
  let self := set_name v self in
  v <-- getitem csv_row "school" ;;
  let self := set_school v self in
  v <-- getitem csv_row "classes" ;;
  let self := set_classes (Py.split ", " v) self in
  v <-- getitem csv_row "range" ;;
  let self := set_range v self in
  v <-- getitem csv_row "cast_time" ;;
  let self := set_cast_time v self in
  v <-- getitem csv_row "duration" ;;
  let self := set_duration v self in
  v <-- getitem csv_row "concentration" ;;
  let self := set_concentration (is_yes v) self in
  v <-- getitem csv_row "ritual" ;;
  let self := set_ritual (is_yes v) self in
  v <-- getitem csv_row "verbal" ;;
  let self := set_verbal (is_yes v) self in
  v <-- getitem csv_row "somatic" ;;
  let self := set_somatic (is_yes v) self in
  v <-- getitem csv_row "material" ;;
  let self := set_material (is_yes v) self in
  v <-- getitem csv_row "material_costly" ;;
  let self := set_material_costly (is_yes v) self in
  v <-- getitem csv_row "material_consumed" ;;
  let self := set_material_consumed (is_yes v) self in
  self <--
    (if default false (material self) then
       v <-- getitem csv_row "material_text" ;;
       let self := set_material_text v self in
       c <-- getitem csv_row "material_cost" ;;
       if 0 <? String.length c
       then Ok (set_material_cost c self)
       else Ok self
     else Ok self) ;;
  v <-- getitem csv_row "rules" ;;
  let self := set_rules v self in
  v <-- getitem csv_row "source" ;;
  Ok (set_source v self).

(** [Spell.csv_headers()] *)
Definition csv_headers : list string :=
  [ "level"; "name"; "school"; "classes"; "range"; "cast_time";
    "duration"; "concentration"; "ritual"; "verbal"; "somatic";
    "material"; "material_costly"; "material_consumed";
    "material_text"; "material_cost"; "rules"; "source" ].

(** *** The YAML form *)

(** [from_yaml_dict] assigns what an entry holds, of whatever kind it is:
    for the YAML methods an object is the dictionary of its attributes. *)
Abbreviation object := (gmap string value) (only parsing).

(** [getattr(self, key, default)] *)
Definition getattr (self : object) (key : string) (default_value : value)
  : value :=
  default default_value (self !! key).

(** [self.key] *)
Definition attribute (self : object) (key : string) : checked value :=
  match self !! key with
  | Some v => Good v
  | None => Bad (Exn (AttributeError key))
  end.

(** The attributes of a record, as an object. *)
Definition put {A} (key : string) (f : A -> value) (o : option A)
  (self : object) : object :=
  match o with
  | Some a => <[key := f a]> self
  | None => self
  end.

Definition attrs (self : t) : object :=
  put "name" VStr (name self)
    (put "level" VInt (level self)
    (put "rules" VStr (rules self)
    (put "school" VStr (school self)
    (put "classes" (fun l => VList (VStr <$> l)) (classes self)
    (put "cast_time" VStr (cast_time self)
    (put "range" VStr (range self)
    (put "duration" VStr (duration self)
    (put "concentration" VBool (concentration self)
    (put "ritual" VBool (ritual self)
    (put "verbal" VBool (verbal self)
    (put "somatic" VBool (somatic self)
    (put "material" VBool (material self)
    (put "material_costly" VBool (material_costly self)
    (put "material_consumed" VBool (material_consumed self)
    (put "material_text" VStr (material_text self)
    (put "material_cost" VStr (material_cost self)
    (put "source" VStr (source self) ∅))))))))))))))))).

Definition to_yaml_dict (self : object) : checked value :=
  classes <~~ Value.join ", " (getattr self "classes" (VList [])) ;;
  let result :=
    [ ("level", getattr self "level" (VInt (-1)));
      ("school", getattr self "school" (VStr "Unknown"));
      ("classes", VStr classes);
      ("range", getattr self "range" (VStr ""));
      ("cast_time", getattr self "cast_time" (VStr ""));
      ("duration", getattr self "duration" (VStr ""));
      ("concentration", getattr self "concentration" (VBool false));
      ("ritual", getattr self "ritual" (VBool false));
      ("verbal", getattr self "verbal" (VBool false));
      ("somatic", getattr self "somatic" (VBool false));
      ("material", getattr self "material" (VBool false));
      ("material_costly", getattr self "material_costly" (VBool false));
      ("material_consumed", getattr self "material_consumed" (VBool false));
      ("rules", VRules (getattr self "rules" (VStr "")));
      ("source", getattr self "source" (VStr "")) ] in
  let result :=
    match self !! "material_text" with
    | Some v => result ++ [("material_text", v)]
    | None => result
    end in
  let result :=
    match self !! "material_cost" with
    | Some v => result ++ [("material_cost", v)]
    | None => result
    end in
  Good (VDict result).

(** [entry[key] if key in entry else default] *)
Definition entry_or (entry : value) (key : string) (default_value : value)
  : checked value :=
  b <~~ Value.contains key entry ;;
  if b then Value.subscript entry key else Good default_value.

Definition from_yaml_dict (self : object) (spell_name : string) (entry : value)
  : checked object :=
  v <~~ entry_or entry "level" (VInt (-1)) ;;
  let self := <["level" := v]> self in
  let self := <["name" := VStr spell_name]> self in
  v <~~ entry_or entry "school" (VStr "Unknown") ;;
  let self := <["school" := v]> self in
  v <~~ (b <~~ Value.contains "classes" entry ;;
         if b
         then c <~~ Value.subscript entry "classes" ;; Value.split ", " c
         else Good (VStr "Unknown")) ;;
  let self := <["classes" := v]> self in
  v <~~ entry_or entry "range" (VStr "Unknown") ;;
  let self := <["range" := v]> self in
  v <~~ entry_or entry "cast_time" (VStr "Unknown") ;;
  let self := <["cast_time" := v]> self in
  v <~~ entry_or entry "duration" (VStr "Unknown") ;;
  let self := <["duration" := v]> self in
  v <~~ entry_or entry "concentration" (VBool false) ;;
  let self := <["concentration" := v]> self in
  v <~~ entry_or entry "ritual" (VBool false) ;;
  let self := <["ritual" := v]> self in
  v <~~ entry_or entry "verbal" (VBool false) ;;
  let self := <["verbal" := v]> self in
  v <~~ entry_or entry "somatic" (VBool false) ;;
  let self := <["somatic" := v]> self in
  v <~~ entry_or entry "material" (VBool false) ;;
  let self := <["material" := v]> self in
  v <~~ entry_or entry "material_costly" (VBool false) ;;
  let self := <["material_costly" := v]> self in
  v <~~ entry_or entry "material_consumed" (VBool false) ;;
  let self := <["material_consumed" := v]> self in
  m <~~ attribute self "material" ;;
  self <~~
    (if Value.truthy m then
       v <~~ entry_or entry "material_text" (VStr "") ;;
       let self := <["material_text" := v]> self in
       b <~~ Value.contains "material_cost" entry ;;
       if b then
         c <~~ Value.subscript entry "material_cost" ;;
         n <~~ Value.len c ;;
         if 0 <? n then
           v <~~ Value.subscript entry "material_cost" ;;
           Good (<["material_cost" := v]> self)
         else Good self
       else Good self
     else Good self) ;;
  v <~~ entry_or entry "rules" (VStr "") ;;
  let self := <["rules" := v]> self in
  v <~~ entry_or entry "source" (VStr "") ;;
  Good (<["source" := v]> self).

End Spell.

(* ================================================================== *)
(** ** [src/spell_data/srd_extractor.py]: the extractor *)
(* ================================================================== *)

Module SRD_5_Extractor.

Import Re.
Local Open Scope regex_scope.

(** *** The compiled patterns of [__init__] *)

(** [\*(\d)\w\w-level (\w+)( \(ritual\))?\*] *)
Definition re_lvl_school_ritual : regex :=
  Str "*" · Grp 1 (Chr Digit) · Chr Word · Chr Word · Str "-level " ·
  Grp 2 (Plus (Chr Word)) · Opt (Grp 3 (Str " (ritual)")) · Str "*".

(** [\*(\w+) cantrip( \(ritual\))?\*] *)
Definition re_cantrip_school_ritual : regex :=
  Str "*" · Grp 1 (Plus (Chr Word)) · Str " cantrip" ·
  Opt (Grp 2 (Str " (ritual)")) · Str "*".

(** [(?:(?!stop|\n).)+]: the text up to the next label or the line's end. *)
Definition up_to (stop : string) : regex :=
  Plus (NonGrp (NotAhead (Alt (Str stop) (Chr (Lit Py.nl))) · Chr Dot)).

(** [\*\*Casting Time:\*\* ((?:(?!\*\*Range|\n).)+)] *)
Definition re_casting_time : regex :=
  Str "**Casting Time:** " · Grp 1 (up_to "**Range").

(** [\*\*Range:\*\* ((?:(?!\*\*Component|\n).)+)] *)
Definition re_range : regex :=
  Str "**Range:** " · Grp 1 (up_to "**Component").

(** [\*\*Components?:?\*\*:? ((?:(?!\*\*Duration|\n).)+)] *)
Definition re_components : regex :=
  Str "**Component" · Opt (Chr (Lit "s")) · Opt (Chr (Lit ":")) · Str "**" ·
  Opt (Chr (Lit ":")) · Str " " · Grp 1 (up_to "**Duration").

(** [\*\*Duration:\*\* ([^\n]+)] *)
Definition re_duration : regex :=
  Str "**Duration:** " · Grp 1 (Plus (Chr (NoneOf [Py.nl]))).

(** [\b(\d+(?:,\d{3})?) ?gp\b] *)
Definition re_mat_cost : regex :=
  Bnd ·
  Grp 1 (Plus (Chr Digit) · Opt (NonGrp (Str "," · Rep 3 (Some 3) (Chr Digit)))) ·
  Opt (Chr (Lit " ")) · Str "gp" · Bnd.

(** [\bConcentration,? up to ([^\n]+)\b] *)
Definition re_conc_dur : regex :=
  Bnd · Str "Concentration" · Opt (Chr (Lit ",")) · Str " up to " ·
  Grp 1 (Plus (Chr (NoneOf [Py.nl]))) · Bnd.

(** [(\*{1,3})([^*\n]+)\1] *)
Definition re_rules_formatted : regex :=
  Grp 1 (Rep 1 (Some 3) (Chr (Lit "*"))) ·
  Grp 2 (Plus (Chr (NoneOf ["*"%char; Py.nl]))) · Back 1.

(** *** The input document *)

(** An item of a spell's ["content"] array: a string, a list (of strings,
    when it is a bulleted list), or anything else (a table). *)
#[warnings="-register-all"]
Inductive node : Type :=
| NStr (s : string)
| NList (l : list node)
| NOther.

(** A spell's entry: its ["content"] array, when it has one. *)
Abbreviation spell_info := (option (list node)) (only parsing).

(** ["Spell Lists"]: class label, then level label, then the spell names. *)
Abbreviation class_data :=
  (list (string * list (string * list string))) (only parsing).

(** *** The extractor's state *)

(** [self.spells], and what has been printed so far. *)
Record extractor : Type := Extractor {
  spells : gmap string Spell.t;
  printed : list string
}.

Definition print (msg : string) (log : list string) : list string :=
  log ++ [msg].

(** How a run of the batch loop ends: normally, or with an exception that
    nothing catches; the state is the one reached at that point. *)
Inductive outcome : Type :=
| Finished (st : extractor)
| Aborted (e : exn) (st : extractor).

(** [raise RuntimeError(f'{what} "{spell.name}". Aborting.')] *)
Definition abort {A} (what : string) (spell : Spell.t) : result A :=
  match Spell.name spell with
  | Some n => Raise (RuntimeError (what +:+ dq +:+ n +:+ dq +:+ ". Aborting."))
  | None => Raise (AttributeError "name")
  end.

(** *** [populate_spell_rules] *)

(** The replacement template [\2]. *)
Definition template_2 (m : rmatch) : string := group_str 2 m.

(** The removal of bold and italic formatting. *)
Definition strip_formatting (s : string) : string :=
  sub re_rules_formatted template_2 s.

Definition populate_spell_rules (spell : Spell.t) (rule_str : string) : Spell.t :=
  let spell :=
    match Spell.rules spell with
    | None => Spell.set_rules "" spell
    | Some _ => spell
    end in
  let spell := Spell.set_rules (default "" (Spell.rules spell) +:+ rule_str) spell in
  Spell.set_rules (strip_formatting (default "" (Spell.rules spell))) spell.

(** *** [populate_spell_metadata], one part for each of its comments *)

(** parse level, school, and ritual *)
Definition parse_level_school_ritual (spell : Spell.t) (meta_str : string)
  : result (Spell.t * rmatch) :=
  match search re_cantrip_school_ritual meta_str 0 with
  | Some m =>
      let spell := Spell.set_level 0 spell in
      let spell := Spell.set_school (Py.title (group_str 1 m)) spell in
      let spell := Spell.set_ritual (bool_decide (is_Some (group 2 m))) spell in
      Ok (spell, m)
  | None =>
      match search re_lvl_school_ritual meta_str 0 with
      | None =>
          abort "Unexpectedly unable to parse spell level, school, or ritual for spell "
                spell
      | Some m =>
          n <-- to_int (group_str 1 m) ;;
          let spell := Spell.set_level n spell in
          let spell :=
            Spell.set_school (Py.strip (Py.title (group_str 2 m))) spell in
          let spell :=
            Spell.set_ritual (bool_decide (is_Some (group 3 m))) spell in
          Ok (spell, m)
      end
  end.

(** parse casting time *)
Definition parse_casting_time (spell : Spell.t) (meta_str : string) (m : rmatch)
  : result (Spell.t * rmatch) :=
  match search re_casting_time meta_str (m_end m) with
  | None => abort "Unexpectedly unable to parse spell casting time for spell " spell
  | Some m =>
      spell <--
        (if Py.contains ", which you take when " (group_str 1 m) then
           t <-- item 0 (Py.split "," (group_str 1 m)) ;;
           let spell := Spell.set_cast_time (Py.title t) spell in
           Ok (Spell.set_rules (group_str 1 m +:+ Py.nlnl) spell)
         else
           Ok (Spell.set_cast_time (Py.strip (Py.title (group_str 1 m))) spell)) ;;
      let spell :=
        if decide (Spell.cast_time spell = Some "1 Bonus Action")
        then Spell.set_cast_time "Bonus" spell
        else if decide (Spell.cast_time spell = Some "1 Reaction")
        then Spell.set_cast_time "Reaction" spell
        else spell in
      Ok (spell, m)
  end.

(** parse range *)
Definition parse_range (spell : Spell.t) (meta_str : string) (m : rmatch)
  : result (Spell.t * rmatch) :=
  match search re_range meta_str (m_end m) with
  | None => abort "Unexpectedly unable to parse spell range for spell " spell
  | Some m =>
      Ok (Spell.set_range (Py.strip (Py.title (group_str 1 m))) spell, m)
  end.

(** [cost += int(c.group(1).replace(',', ''))] over the matches, from [cost]. *)
Fixpoint add_costs (found : list string) (cost : Z) : result Z :=
  match found with
  | [] => Ok cost
  | g :: found' =>
      n <-- to_int (Py.replace "," "" g) ;;
      add_costs found' (cost + n)%Z
  end.

(** The texts of group 1 of [re_mat_cost.finditer(text)]. *)
Definition cost_groups (text : string) : list string :=
  map (group_str 1) (finditer re_mat_cost text).

(** The [if spell.material:] block. *)
Definition cost_and_consumption (spell : Spell.t) : result Spell.t :=
  if default false (Spell.material spell) then
    match Spell.material_text spell with
    | Some text =>
        cost <-- add_costs (cost_groups text) 0 ;;
        let spell :=
          if (0 <? cost)%Z
          then Spell.set_material_cost (Py.str cost +:+ "gp")
                 (Spell.set_material_costly true spell)
          else spell in
        let spell :=
          if Py.contains "which the spell consumes" text
          then Spell.set_material_consumed true spell
          else spell in
        Ok spell
    | None => Ok (Spell.set_material_text "" spell)
    end
  else Ok spell.

(** parse components *)
Definition parse_components (spell : Spell.t) (meta_str : string) (m : rmatch)
  : result (Spell.t * rmatch) :=
  match search re_components meta_str (m_end m) with
  | None => abort "Unexpectedly unable to parse spell components for spell " spell
  | Some m =>
      let types := group_str 1 m in
      ts <--
        (if Py.contains "(" (group_str 1 m) then
           types <-- item 0 (Py.split "(" (group_str 1 m)) ;;
           inner <-- item 1 (Py.split "(" (group_str 1 m)) ;;
           text <-- item 0 (Py.split ")" inner) ;;
           Ok (types, Spell.set_material_text text spell)
         else Ok (types, spell)) ;;
      let '(types, spell) := ts in
      let spell := Spell.set_verbal (Py.contains "V" types) spell in
      let spell := Spell.set_somatic (Py.contains "S" types) spell in
      let spell := Spell.set_material (Py.contains "M" types) spell in
      let spell := Spell.set_material_costly false spell in
      let spell := Spell.set_material_consumed false spell in
      spell <-- cost_and_consumption spell ;;
      Ok (spell, m)
  end.

(** parse duration; the last line calls [replace] and drops what it
    returns. *)
Definition parse_duration (spell : Spell.t) (meta_str : string) (m : rmatch)
  : result Spell.t :=
  match search re_duration meta_str (m_end m) with
  | None => abort "Unexpectedly unable to parse spell duration for spell " spell
  | Some m =>
      let spell :=
        match search re_conc_dur (group_str 1 m) 0 with
        | Some conc_match =>
            let spell := Spell.set_concentration true spell in
            Spell.set_duration (group_str 1 conc_match) spell
        | None =>
            let spell := Spell.set_concentration false spell in
            let spell := Spell.set_duration (group_str 1 m) spell in
            if Py.contains "Instantaneous" (default "" (Spell.duration spell))
            then Spell.set_duration "Instant" spell
            else spell
        end in
      let _ := Py.replace "one " "1 " (default "" (Spell.duration spell)) in
      Ok spell
  end.

Definition populate_spell_metadata (spell : Spell.t) (meta_str : string)
  : result Spell.t :=
  sm <-- parse_level_school_ritual spell meta_str ;;
  sm <-- parse_casting_time (fst sm) meta_str (snd sm) ;;
  sm <-- parse_range (fst sm) meta_str (snd sm) ;;
  sm <-- parse_components (fst sm) meta_str (snd sm) ;;
  parse_duration (fst sm) meta_str (snd sm).

(** *** [create_spell_dict] *)

(** The marker that ends the metadata of a spell. *)
Definition duration_marker : string := "**Duration:**".

(** The bullet and the blank after it, and the same after a line break. *)
Definition bullet : string := "• ".
Definition nl_bullet : string := String Py.nl bullet.

(** [content] is the list [['', '']] and [segment] an index into it, 0 or 1:
    here a pair, read and written at [segment]. *)
Definition get (content : string * string) (segment : nat) : string :=
  if segment =? 0 then content.1 else content.2.

Definition put (content : string * string) (segment : nat) (v : string)
  : string * string :=
  if segment =? 0 then (v, content.2) else (content.1, v).

(** The strings of a list node, if every fragment of it is a string. *)
Fixpoint strings_of (l : list node) : option (list string) :=
  match l with
  | [] => Some []
  | NStr s :: l' => option_map (cons s) (strings_of l')
  | _ :: _ => None
  end.

Definition msg_no_content (spell_name : string) : string :=
  "No " +:+ dq +:+ "content" +:+ dq +:+ " node for possible spell " +:+ dq +:+
  spell_name +:+ dq +:+ ", this section will be skipped.".

Definition msg_non_string (spell_name : string) : string :=
  "Encountered non-string node within " +:+ dq +:+ "content" +:+ dq +:+
  " for spell " +:+ dq +:+ spell_name +:+ dq +:+
  " - no additional rules text will be parsed.".

Definition msg_no_duration (spell_name : string) : string :=
  "No Duration / other metadata found for possible spell " +:+ dq +:+
  spell_name +:+ dq +:+ ", this section will be skipped.".

(** The last two statements of the loop body:
    [content[segment] += txt + '\n\n'] and the test for the marker. *)
Definition add_text (txt : string) (content : string * string) (segment : nat)
  : (string * string) * nat :=
  let content := put content segment (get content segment +:+ txt +:+ Py.nlnl) in
  let segment := if Py.contains duration_marker txt then 1 else segment in
  (content, segment).

(** A list of strings becomes one bulleted string; one of the two line
    breaks before it is taken back. *)
Definition add_list (frags : list string) (content : string * string)
  (segment : nat) : (string * string) * nat :=
  let txt := bullet +:+ Py.join nl_bullet frags in
  let content :=
    if String.eqb (Py.last2 (get content segment)) Py.nlnl
    then put content segment (Py.chop (get content segment))
    else content in
  add_text txt content segment.

(** The loop over [spell_info['content']]; a node that is no string and no
    list of strings prints a message and leaves the loop. *)
Fixpoint read_content (spell_name : string) (items : list node)
  (content : string * string) (segment : nat) (log : list string)
  : (string * string) * nat * list string :=
  match items with
  | [] => (content, segment, log)
  | NStr txt :: items' =>
      let '(content, segment) := add_text txt content segment in
      read_content spell_name items' content segment log
  | NList l :: items' =>
      match strings_of l with
      | Some frags =>
          let '(content, segment) := add_list frags content segment in
          read_content spell_name items' content segment log
      | None => (content, segment, print (msg_non_string spell_name) log)
      end
  | NOther :: _ => (content, segment, print (msg_non_string spell_name) log)
  end.

(** The first three assignments of the loop body. *)
Definition fresh_spell (spell_name : string) : Spell.t :=
  Spell.set_classes []
    (Spell.set_source "System Reference Document"
       (Spell.set_name spell_name Spell.new)).

(** The loop over [spell_data.items()].  [populate_spell_metadata] is called
    outside any [try]: what it raises leaves the loop and the function. *)
Fixpoint create_spell_dict (spell_data : list (string * spell_info))
  (self : extractor) : outcome :=
  match spell_data with
  | [] => Finished self
  | (spell_name, info) :: spell_data' =>
      let spell := fresh_spell spell_name in
      match info with
      | None =>
          create_spell_dict spell_data'
            (Extractor (spells self)
               (print (msg_no_content spell_name) (printed self)))
      | Some items =>
          let '(content, segment, log) :=
            read_content spell_name items ("", "") 0 (printed self) in
          if segment =? 0 then
            create_spell_dict spell_data'
              (Extractor (spells self) (print (msg_no_duration spell_name) log))
          else
            let meta := Py.strip content.1 in
            match populate_spell_metadata spell meta with
            | Raise e => Aborted e (Extractor (spells self) log)
            | Ok spell =>
                let rules := Py.strip content.2 in
                let spell := populate_spell_rules spell rules in
                create_spell_dict spell_data'
                  (Extractor (<[spell_name := spell]> (spells self)) log)
            end
      end
  end.

(** *** [add_class_info] *)

(** A [for] loop whose body can raise. *)
Fixpoint for_each {A S : Type} (l : list A) (body : A -> S -> result S) (s : S)
  : result S :=
  match l with
  | [] => Ok s
  | x :: l' => s' <-- body x s ;; for_each l' body s'
  end.

(** [if spell_name in self.spells:
         self.spells[spell_name].classes.append(class_name)] *)
Definition append_class (class_name spell_name : string)
  (spells : gmap string Spell.t) : result (gmap string Spell.t) :=
  match spells !! spell_name with
  | Some spell =>
      match Spell.classes spell with
      | Some l =>
          Ok (<[spell_name := Spell.set_classes (l ++ [class_name]) spell]> spells)
      | None => Raise (AttributeError "classes")
      end
  | None => Ok spells
  end.

Definition add_class_info (data : class_data) (self : extractor)
  : result extractor :=
  spells' <--
    for_each data (fun '(class_label, class_section) spells =>
      class_name <-- item 0 (Py.split " " class_label) ;;
      for_each class_section (fun '(level_label, spell_list) spells =>
        for_each spell_list (append_class class_name) spells) spells)
      (spells self) ;;
  Ok (Extractor spells' (printed self)).

(** *** [parse_spells], after [retrieve_json] has given the two sections *)

(** [__init__]: no spell yet, nothing printed. *)
Definition init : extractor := Extractor ∅ [].

Definition parse_spells (spell_data : list (string * spell_info))
  (data : class_data) (self : extractor) : outcome :=
  match create_spell_dict spell_data self with
  | Finished self =>
      match add_class_info data self with
      | Ok self => Finished self
      | Raise e => Aborted e self
      end
  | Aborted e self => Aborted e self
  end.

(** *** [retrieve_json], from the document of the response on *)

(** [self.source] *)
Definition source : string :=
  "https://raw.githubusercontent.com/BTMorton/dnd-5e-srd" +:+
  "/edb6e2dcaec1edc6472f863b29ff72e45b21d8b6/json" +:+
  "/08%20spellcasting.json".

Definition missing_node (node : string) : error :=
  Exn (RuntimeError
         ("Unexpected JSON format of spell source file: missing " +:+ dq +:+
          node +:+ dq +:+ " node at " +:+ source)).

Definition retrieve_json (spell_json : value) : checked value :=
  b <~~ Value.contains "Spellcasting" spell_json ;;
  if negb b then Bad (missing_node "Spellcasting") else
  spellcasting <~~ Value.subscript spell_json "Spellcasting" ;;
  b <~~ Value.contains "Spell Descriptions" spellcasting ;;
  if negb b then Bad (missing_node "Spell Descriptions") else
  spellcasting <~~ Value.subscript spell_json "Spellcasting" ;;
  b <~~ Value.contains "Spell Lists" spellcasting ;;
  if negb b then Bad (missing_node "Spell Lists") else
  Good spell_json.

(** The first three lines of [parse_spells]: the two sections of the
    document that has passed [retrieve_json]. *)
Definition sections (response : value) : checked (value * value) :=
  spell_json <~~ retrieve_json response ;;
  spellcasting <~~ Value.subscript spell_json "Spellcasting" ;;
  spell_data <~~ Value.subscript spellcasting "Spell Descriptions" ;;
  spellcasting <~~ Value.subscript spell_json "Spellcasting" ;;
  class_data <~~ Value.subscript spellcasting "Spell Lists" ;;
  Good (spell_data, class_data).

(** *** [dump_yaml]: the entry of a record *)

(** [yaml_rules_presenter]: a [YamlRulesText] is written as a string scalar
    (in the folded style) that holds [data.content]. *)
Definition yaml_rules_presenter (data : value) : checked value :=
  match data with
  | VRules content => Good content
  | _ => Bad (Exn (AttributeError "content"))
  end.

(** What the loop of [dump_yaml] stores under the name of [spell]. *)
Definition dump_yaml_entry (spell : Spell.t) : checked value :=
  Spell.to_yaml_dict (Spell.attrs spell).

(** *** [dump_csv]: the cells of a row *)

(** [rowdict.get(key, '')] *)
Definition get_cell (rowdict : Spell.row) (key : string) : string :=
  match Spell.getitem rowdict key with
  | Ok v => v
  | Raise _ => ""
  end.

(** What [csv.DictWriter(f, fieldnames).writerow(rowdict)] hands to the
    writer: a [ValueError] if the dictionary has a key that is no field
    name, and otherwise its value for each field name in turn, the empty
    text for a field name that it lacks. *)
Definition writerow (fieldnames : list string) (rowdict : Spell.row)
  : result (list string) :=
  if forallb (fun kv => bool_decide (kv.1 ∈ fieldnames)) rowdict
  then Ok (map (get_cell rowdict) fieldnames)
  else Raise ValueError.

(** The cells of the row that the loop of [dump_csv] writes for [spell]. *)
Definition dump_csv_row (spell : Spell.t) : result (list string) :=
  writerow Spell.csv_headers (Spell.to_csv_dict spell).

End SRD_5_Extractor.

(* ================================================================== *)
(** ** [src/file.py]: loading the spells of a CSV file *)
(* ================================================================== *)

Module File.

(** How a loader ends: with the dictionary of the spells, or, when an
    exception [e] is met on the way, by printing a message that shows
    [repr(e)] and raising [SystemExit(e)]. *)
Inductive loaded : Type :=
| Loaded (spells : gmap string Spell.t)
| SystemExit (e : exn).

(** The loop over the rows that [csv.DictReader] yields. *)
Fixpoint read_rows (reader : list Spell.row) (spells : gmap string Spell.t)
  : result (gmap string Spell.t) :=
  match reader with
  | [] => Ok spells
  | row_data :: reader' =>
      spell <-- Spell.from_csv_dict Spell.new row_data ;;
      match Spell.name spell with
      | Some n => read_rows reader' (<[n := spell]> spells)
      | None => Raise (AttributeError "name")
      end
  end.

(** [load_spells_from_csv], from the rows of the file on. *)
Definition load_spells_from_csv (reader : list Spell.row) : loaded :=
  match read_rows reader ∅ with
  | Ok spells => Loaded spells
  | Raise e => SystemExit e
  end.

(** How the loader of YAML files ends: with the dictionary of the objects,
    by [SystemExit()] after a message, or with an exception that nothing
    catches. *)
Inductive loaded_objects : Type :=
| Objects (spells : gmap string Spell.object)
| Exit
| Uncaught (e : error).

(** The loop over [spell_dicts.items()]. *)
Fixpoint read_entries (items : list (string * value))
  (spells : gmap string Spell.object) : checked (gmap string Spell.object) :=
  match items with
  | [] => Good spells
  | (spell_name, entry) :: items' =>
      spell <~~ Spell.from_yaml_dict ∅ spell_name entry ;;
      read_entries items' (<[spell_name := spell]> spells)
  end.

(** [load_spells_from_yaml], from what [yaml.safe_load] gives on. *)
Definition load_spells_from_yaml (spell_dicts : value) : loaded_objects :=
  match spell_dicts with
  | VDict items =>
      match read_entries items ∅ with
      | Good spells => Objects spells
      | Bad e => Uncaught e
      end
  | _ => Exit
  end.

End File.

(* ================================================================== *)
(** ** [src/cardmaker.py]: what a card shows of a spell *)
(* ================================================================== *)

Module Cardmaker.

(** [len(s)] for a [str]: the number of its characters. *)
Definition len (s : string) : nat := length (Value.chars s).

(** The characters of [s] that pass the test [P]. *)
Fixpoint keep (P : ascii -> bool) (s : string) : string :=
  match s with
  | EmptyString => EmptyString
  | String c s' => if P c then String c (keep P s') else keep P s'
  end.

(** [generate_spell_card]: the name of the file before its extension,
    [''.join(c for c in spell.name if (c.isalnum() or c in '._- '))]. *)
Definition fn (name : string) : string :=
  keep (fun c => Py.is_alnum c || Py.contains (String c "") "._- ") name.


(** [add_class_list]: the rows of the class list that are drawn in the
    colour of the school, each with its index; [classes_of_config] is
    [Config.get('general.classes')]. *)
Fixpoint active_from (i : nat) (classes_of_config classes : list string)
  : list (nat * string) :=
  match classes_of_config with
  | [] => []
  | cls :: rest =>
      if bool_decide (cls ∈ classes)
      then (i, cls) :: active_from (S i) rest classes
      else active_from (S i) rest classes
  end.

Definition active_rows (classes_of_config classes : list string)
  : list (nat * string) :=
  active_from 0 classes_of_config classes.

(** [get_padded_rules]: the loop [while rough_block_size < 240]. *)
Fixpoint pad (fuel rough_block_size : nat) (rules_text : string) : string :=
  match fuel with
  | O => rules_text
  | S fuel' =>
      if rough_block_size <? 240
      then pad fuel' (rough_block_size + 30) (rules_text +:+ String Py.nl "")
      else rules_text
  end.

(** [re.findall(r'\n\n', rules_text)] *)
Definition blank_lines (rules_text : string) : list Re.rmatch :=
  Re.finditer (Re.Str Py.nlnl) rules_text.

(** The loop adds 30 in each turn and stops at 240: from any size, 8 turns
    are enough. *)
Definition get_padded_rules (spell : Spell.t) : result string :=
  match Spell.rules spell with
  | Some rules_text =>
      let rough_block_size :=
        len rules_text + 30 * length (blank_lines rules_text) in
      Ok (pad 8 rough_block_size rules_text)
  | None => Raise (AttributeError "rules")
  end.

(** The three characters U+00E2, U+02C6 and U+2019 of the literal that
    [replace_problematic_chars] looks for. *)
Definition problematic : string := "âˆ’".

(** [replace_problematic_chars] *)
Definition replace_problematic_chars (txt : string) : string :=
  Py.replace problematic "-" txt.

(** [add_rules]: the text that is drawn; [pad_rules] is the truth value of
    [Config.get('general.prevent_large_rule_text')]. *)
Definition rule_text (pad_rules : bool) (spell : Spell.t) : result string :=
  rule_text <--
    (if pad_rules then get_padded_rules spell
     else match Spell.rules spell with
          | Some rules_text => Ok rules_text
          | None => Raise (AttributeError "rules")
          end) ;;
  Ok (replace_problematic_chars rule_text).

End Cardmaker.

(* ================================================================== *)
(** ** [src/config.py]: the values of the configuration *)
(* ================================================================== *)

Module Config.

(** [c.get(attr)]: only a dictionary has the method. *)
Definition dot_get (c : value) (attr : string) : checked value :=
  match c with
  | VDict d => Good (default VNone (Value.get d attr))
  | _ => Bad (Exn (AttributeError "get"))
  end.

(** The loop [for attr in attrs] of [get], from the value [c]. *)
Fixpoint walk (c : value) (attrs : list string) : checked value :=
  match attrs with
  | [] => Good c
  | attr :: attrs' =>
      match c with
      | VNone => Bad (Exn (AttributeError ""))
      | _ =>
          b <~~ Value.contains attr c ;;
          if negb b then Bad (Exn (AttributeError ""))
          else c' <~~ dot_get c attr ;; walk c' attrs'
      end
  end.

(** [Config.get]; [user_config] is [Config.user_config], [None] as long as
    no file is loaded, and [template] is [CONFIG_TEMPLATE].  Only an
    [AttributeError] is caught. *)
Definition get (user_config template : value) (attr_dot_string : string)
  : checked value :=
  let attrs := Py.split "." attr_dot_string in
  match walk user_config attrs with
  | Bad (Exn (AttributeError _)) =>
      match walk template attrs with
      | Bad (Exn (AttributeError _)) => Good VNone
      | c => c
      end
  | c => c
  end.

End Config.

(* ================================================================== *)
(** ** [src/main.py]: the spell of the option [-s] *)
(* ================================================================== *)

Module Main.

(** [generate]: the key under which the spell of [args.single_spell] is
    looked up, if there is one: the name as it is given, in title case, or
    in lower case. *)
Definition target_spell (single_spell : string) (spells : gmap string Spell.t)
  : option string :=
  if bool_decide (is_Some (spells !! single_spell)) then Some single_spell
  else if bool_decide (is_Some (spells !! Py.title single_spell))
  then Some (Py.title single_spell)
  else if bool_decide (is_Some (spells !! Py.lower_str single_spell))
  then Some (Py.lower_str single_spell)
  else None.

End Main.

(* ================================================================== *)
(** ** Notions in which the properties are stated *)
(* ================================================================== *)

Import Re SRD_5_Extractor.

(** *** Characters *)

(** Every character of [s] passes the test [P]. *)
Fixpoint all_chars (P : ascii -> bool) (s : string) : bool :=
  match s with
  | EmptyString => true
  | String c s' => P c && all_chars P s'
  end.

(** The character is no white space, no asterisk, a digit or a comma. *)
Definition not_space (c : ascii) : bool := negb (Py.is_space c).


Definition digit_or_comma (c : ascii) : bool :=
  Py.is_digit c || Ascii.eqb c ",".

(** *** What a match is *)

(** [matches r st st']: the pattern [r] can take the matcher from [st] to
    [st'].  The bounds of a repetition count down as iterations are done.
    A negative look-ahead is not constrained: the relation is used to learn
    what a reported match looks like. *)
Inductive matches : regex -> mstate -> mstate -> Prop :=
| matches_Chr c a t st :
    rest st = String a t -> in_cset c a = true ->
    matches (Chr c) st (MState (Some a) t (S (pos st)) (caps st))
| matches_Str s st st' :
    eat s st = Some st' -> matches (Str s) st st'
| matches_Seq r1 r2 st st1 st2 :
    matches r1 st st1 -> matches r2 st1 st2 -> matches (Seq r1 r2) st st2
| matches_Alt_l r1 r2 st st' :
    matches r1 st st' -> matches (Alt r1 r2) st st'
| matches_Alt_r r1 r2 st st' :
    matches r2 st st' -> matches (Alt r1 r2) st st'
| matches_Rep_stop hi r st :
    matches (Rep 0 hi r) st st
| matches_Rep_more lo hi r st st1 st2 :
    below 0 hi = true ->
    matches r st st1 ->
    matches (Rep (Nat.pred lo) (option_map Nat.pred hi) r) st1 st2 ->
    matches (Rep lo hi r) st st2
| matches_Grp n r st st' :
    matches r st st' ->
    matches (Grp n r) st (set_cap n (Py.take (pos st' - pos st) (rest st)) st')
| matches_NonGrp r st st' :
    matches r st st' -> matches (NonGrp r) st st'
| matches_Back n s st st' :
    get_cap n (caps st) = Some s -> eat s st = Some st' ->
    matches (Back n) st st'
| matches_NotAhead r st :
    matches (NotAhead r) st st
| matches_Bnd st :
    at_boundary st = true -> matches Bnd st st.

(** Every character that [r] can consume passes the test [P]; a pattern
    with a backreference is not covered. *)
Fixpoint consumes_only (P : ascii -> bool) (r : regex) : Prop :=
  match r with
  | Chr c => forall a, in_cset c a = true -> P a = true
  | Str s => all_chars P s = true
  | Seq r1 r2 | Alt r1 r2 => consumes_only P r1 /\ consumes_only P r2
  | Rep _ _ r' | Grp _ r' | NonGrp r' => consumes_only P r'
  | Back _ => False
  | NotAhead _ | Bnd => True
  end.

(** The pattern [r] has no capturing group of number [n]. *)
Fixpoint group_free (n : nat) (r : regex) : bool :=
  match r with
  | Chr _ | Str _ | Back _ | NotAhead _ | Bnd => true
  | Seq r1 r2 | Alt r1 r2 => group_free n r1 && group_free n r2
  | Rep _ _ r' | NonGrp r' => group_free n r'
  | Grp k r' => negb (k =? n) && group_free n r'
  end.

(** [st'] is ahead of [st] by as many characters as its index says. *)
Definition follows (st st' : mstate) : bool :=
  (pos st <=? pos st') &&
  (String.length (rest st) =? String.length (rest st') + (pos st' - pos st)).

(** *** The segmenter *)

(** The text that the content loop appends for an item: the string itself,
    the bulleted form of a list of strings, nothing for any other item. *)
Definition text_of (x : node) : option string :=
  match x with
  | NStr s => Some s
  | NList l => option_map (fun frags => bullet +:+ Py.join nl_bullet frags) (strings_of l)
  | NOther => None
  end.

Definition supported (x : node) : bool := bool_decide (is_Some (text_of x)).

Definition has_marker (x : node) : bool :=
  match text_of x with
  | Some t => Py.contains duration_marker t
  | None => false
  end.

(** One item poured into a buffer: its text and a blank line, after one
    line break of the buffer has been taken back before a list. *)
Definition pour1 (buf : string) (x : node) : string :=
  match x with
  | NStr s => buf +:+ s +:+ Py.nlnl
  | NList l =>
      match text_of x with
      | Some t =>
          (if String.eqb (Py.last2 buf) Py.nlnl then Py.chop buf else buf)
          +:+ t +:+ Py.nlnl
      | None => buf
      end
  | NOther => buf
  end.

Definition pour (items : list node) (buf : string) : string :=
  fold_left pour1 items buf.

(** The end of the content: nothing left, or an item that stops the loop. *)
Definition stops (tail : list node) : Prop :=
  match tail with
  | [] => True
  | x :: _ => supported x = false
  end.

(** The log after the loop has met that end. *)
Definition stop_log (spell_name : string) (tail : list node) (log : list string)
  : list string :=
  match tail with
  | [] => log
  | _ :: _ => print (msg_non_string spell_name) log
  end.

(** The two blocks as the specification words them: the metadata block is
    made of the items before the first one that has the marker, the rules
    block of that item and the ones after it. *)
Fixpoint blocks_as_specified (items : list node) (metadata : string)
  : string * string :=
  match items with
  | [] => (metadata, "")
  | x :: items' =>
      if has_marker x then (metadata, pour items "")
      else blocks_as_specified items' (pour1 metadata x)
  end.

(** *** The metadata parser *)

(** The attributes that a part of the parser does not assign keep their
    value; [keeps f s s'] says so for the attribute [f]. *)
Definition keeps {A} (f : Spell.t -> A) (s s' : Spell.t) : Prop := f s' = f s.




(** The record that the metadata parser makes of a fresh spell, for inputs
    on which it does not raise. *)
Definition parsed (spell_name meta : string) : Spell.t :=
  match populate_spell_metadata (fresh_spell spell_name) meta with
  | Ok spell => spell
  | Raise _ => Spell.new
  end.

(** *** The cost of a material component *)

(** The number that one occurrence of the cost pattern stands for. *)
Definition occurrence_value (g : string) : Z :=
  default 0%Z (Py.int (Py.replace "," "" g)).

(** The sum over a list of occurrences. *)
Definition sum_of (found : list string) : Z :=
  foldr (fun g acc => (occurrence_value g + acc)%Z) 0%Z found.

(** An occurrence as the cost pattern captures it: a digit, then digits and
    commas. *)
Definition cost_text (g : string) : bool :=
  match g with
  | String d w => Py.is_digit d && all_chars digit_or_comma w
  | EmptyString => false
  end.

(** *** The records of a batch *)

(** The state in which a run of the batch loop ends. *)
Definition final_state (o : outcome) : extractor :=
  match o with
  | Finished st => st
  | Aborted _ st => st
  end.

(** What holds of the optional attributes of an emitted record. *)
Definition optional_ok (spell : Spell.t) : Prop :=
  (Spell.material spell = Some true -> is_Some (Spell.material_text spell)) /\
  (is_Some (Spell.material_cost spell) <-> Spell.material_costly spell = Some true).

(** *** The class lists *)

(** The part of a class label before its first blank, ["Bard"] for
    ["Bard Spells"]. *)
Definition first_token (class_label : string) : string :=
  default "" (Py.split " " class_label !! 0).

(** The tokens of the class labels under which [spell_name] is listed, one
    for each listing, in the order of the lists. *)
Definition listed_in (class_name spell_name : string) (spell_list : list string)
  : list string :=
  flat_map (fun x => if decide (x = spell_name) then [class_name] else [])
    spell_list.

Definition listed_tokens
  (data : list (string * list (string * list string))) (spell_name : string)
  : list string :=
  flat_map (fun entry =>
    flat_map (fun level => listed_in (first_token entry.1) spell_name level.2)
      entry.2) data.

(** A record with [tokens] appended to its class list. *)
Definition extend (tokens : list string) (spell : Spell.t) : Spell.t :=
  Spell.set_classes (default [] (Spell.classes spell) ++ tokens) spell.

(** [annotated tokens before after]: the records are the same ones, each
    with the tokens for its name appended to its class list. *)
Definition annotated (tokens : string -> list string)
  (before after : gmap string Spell.t) : Prop :=
  forall n, after !! n = extend (tokens n) <$> before !! n.

(** Every record has a class list. *)
Definition with_classes (spells : gmap string Spell.t) : Prop :=
  forall n spell, spells !! n = Some spell -> is_Some (Spell.classes spell).

(** *** The CSV form *)

(** The records that a CSV row can carry without loss: every attribute but
    the two optional ones is set; the class list is not empty and no class
    name has the separator [", "] in it; [material_text] is set exactly when
    [material] is true; [material_cost], if set, is not empty and comes with
    a true [material]. *)
Definition csv_faithful (s : Spell.t) : Prop :=
  (is_Some (Spell.level s) /\ is_Some (Spell.name s) /\
   is_Some (Spell.school s) /\ is_Some (Spell.range s) /\
   is_Some (Spell.cast_time s) /\ is_Some (Spell.duration s) /\
   is_Some (Spell.rules s) /\ is_Some (Spell.source s)) /\
  (is_Some (Spell.concentration s) /\ is_Some (Spell.ritual s) /\
   is_Some (Spell.verbal s) /\ is_Some (Spell.somatic s) /\
   is_Some (Spell.material s) /\ is_Some (Spell.material_costly s) /\
   is_Some (Spell.material_consumed s)) /\
  (exists l, Spell.classes s = Some l /\ l <> [] /\
             Forall (fun c => Py.contains ", " c = false) l) /\
  (is_Some (Spell.material_text s) <-> Spell.material s = Some true) /\
  (is_Some (Spell.material_cost s) -> Spell.material s = Some true) /\
  Spell.material_cost s <> Some "".

(** *** Sample inputs *)

(** The metadata block of scenario A. *)
Definition sample_metadata : string :=
  "*3rd-level illusion*" +:+ Py.nlnl +:+
  "**Casting Time:** 1 action" +:+ Py.nlnl +:+
  "**Range:** 60 feet" +:+ Py.nlnl +:+
  "**Components:** V, S, M (a pinch of soot)" +:+ Py.nlnl +:+
  "**Duration:** Instantaneous".

(** The same block with a parenthesized clause and no [M]. *)
Definition sample_metadata_no_M : string :=
  "*3rd-level illusion*" +:+ Py.nlnl +:+
  "**Casting Time:** 1 action" +:+ Py.nlnl +:+
  "**Range:** 60 feet" +:+ Py.nlnl +:+
  "**Components:** V, S (a pinch of soot)" +:+ Py.nlnl +:+
  "**Duration:** Instantaneous".





(** A record as the extractor emits it, with one class. *)
Definition sample_record : Spell.t :=
  Spell.set_classes ["Bard"] (populate_spell_rules (parsed "A" sample_metadata) "").

(* ================================================================== *)
(** ** Notions for the further properties *)
(* ================================================================== *)

(** *** Records *)

(** Every attribute that the extractor assigns on each of its paths is set;
    the two optional ones, [material_text] and [material_cost], are left
    out. *)
Definition complete (s : Spell.t) : Prop :=
  (is_Some (Spell.level s) /\ is_Some (Spell.school s) /\
   is_Some (Spell.ritual s) /\ is_Some (Spell.cast_time s) /\
   is_Some (Spell.range s)) /\
  (is_Some (Spell.verbal s) /\ is_Some (Spell.somatic s) /\
   is_Some (Spell.material s) /\ is_Some (Spell.material_costly s) /\
   is_Some (Spell.material_consumed s)) /\
  (is_Some (Spell.concentration s) /\ is_Some (Spell.duration s) /\
   is_Some (Spell.rules s) /\ is_Some (Spell.classes s)).

(** The short form of the two casting times that have one. *)
Definition short_cast_time (t : string) : string :=
  if decide (t = "1 Bonus Action") then "Bonus"
  else if decide (t = "1 Reaction") then "Reaction"
  else t.

(** The metadata block of a spell that is cast as a reaction. *)
Definition sample_reaction_metadata : string :=
  "*1st-level abjuration*" +:+ Py.nlnl +:+
  "**Casting Time:** 1 reaction, which you take when you are hit by an attack" +:+
  Py.nlnl +:+
  "**Range:** Self" +:+ Py.nlnl +:+
  "**Components:** V, S" +:+ Py.nlnl +:+
  "**Duration:** 1 round".

(** *** Texts *)

(** The character is an asterisk. *)
Definition is_star (c : ascii) : bool := Ascii.eqb c "*".

(** The text without its asterisks. *)
Fixpoint without_stars (s : string) : string :=
  match s with
  | EmptyString => EmptyString
  | String c s' =>
      if Ascii.eqb c "*" then without_stars s' else String c (without_stars s')
  end.

(** *** CSV rows *)

(** The row has a column [key]. *)
Definition has_key (row : Spell.row) (key : string) : bool :=
  existsb (fun kv => String.eqb kv.1 key) row.

(** The columns that [from_csv_dict] reads whatever the row holds. *)
Definition always_read : list string :=
  [ "level"; "name"; "school"; "classes"; "range"; "cast_time";
    "duration"; "concentration"; "ritual"; "verbal"; "somatic";
    "material"; "material_costly"; "material_consumed"; "rules"; "source" ].

(** The rows that [from_csv_dict] can read: the columns that are always
    read are there, the level is an integer, and a row with a material
    component has the two columns on it as well. *)
Definition readable (row : Spell.row) : Prop :=
  Forall (fun k => has_key row k = true) always_read /\
  is_Some (Py.int (get_cell row "level")) /\
  (get_cell row "material" = "yes" ->
   has_key row "material_text" = true /\ has_key row "material_cost" = true).

(** The columns that hold a flag. *)
Definition flag_columns : list string :=
  [ "concentration"; "ritual"; "verbal"; "somatic";
    "material"; "material_costly"; "material_consumed" ].

(** A row as [to_csv_dict] writes it: the columns of [csv_headers] in
    their order, the level as [str] writes an integer, each flag ["yes"] or
    ["no"], and neither material text nor cost without a material
    component. *)
Definition canonical (row : Spell.row) : Prop :=
  map fst row = Spell.csv_headers /\
  (exists n, get_cell row "level" = Py.str n) /\
  Forall (fun k => get_cell row k = "yes" \/ get_cell row k = "no")
    flag_columns /\
  (get_cell row "material" = "no" ->
   get_cell row "material_text" = "" /\ get_cell row "material_cost" = "").

(** The record that a row gives, if it can be read. *)
Definition spell_of_row (row : Spell.row) : option Spell.t :=
  match Spell.from_csv_dict Spell.new row with
  | Ok spell => Some spell
  | Raise _ => None
  end.

(** The last row of the file that has the name [n]. *)
Fixpoint last_named (reader : list Spell.row) (n : string)
  : option Spell.row :=
  match reader with
  | [] => None
  | row :: reader' =>
      match last_named reader' n with
      | Some later => Some later
      | None => if String.eqb (get_cell row "name") n then Some row else None
      end
  end.

(** *** YAML entries *)

(** The entry as the YAML file holds it: a value of the kind
    [YamlRulesText] goes through [yaml_rules_presenter], the other values
    are written as they are. *)
Fixpoint represented (d : list (string * value))
  : checked (list (string * value)) :=
  match d with
  | [] => Good []
  | (k, v) :: d' =>
      v' <~~ match v with
             | VRules _ => yaml_rules_presenter v
             | _ => Good v
             end ;;
      r <~~ represented d' ;;
      Good ((k, v') :: r)
  end.



(** The object that an entry gives under [n], if it can be read; and the
    last entry of a list of items that stands under [n]. *)
Definition object_of_entry (n : string) (entry : value)
  : option (gmap string value) :=
  match Spell.from_yaml_dict ∅ n entry with
  | Good obj => Some obj
  | Bad _ => None
  end.

Fixpoint last_entry (items : list (string * value)) (n : string)
  : option value :=
  match items with
  | [] => None
  | (k, entry) :: items' =>
      match last_entry items' n with
      | Some later => Some later
      | None => if String.eqb k n then Some entry else None
      end
  end.

(** The items of the document that [dump_yaml] writes for the records
    [l]. *)
Fixpoint yaml_items (l : list (string * Spell.t))
  : checked (list (string * value)) :=
  match l with
  | [] => Good []
  | (n, spell) :: l' =>
      entry <~~ dump_yaml_entry spell ;;
      written <~~ match entry with
                  | VDict d => represented d
                  | _ => Bad TypeError
                  end ;;
      r <~~ yaml_items l' ;;
      Good ((n, VDict written) :: r)
  end.

(** *** Cards *)

(** [k] line breaks. *)
Fixpoint line_breaks (k : nat) : string :=
  match k with
  | O => EmptyString
  | S k' => String Py.nl (line_breaks k')
  end.

(** The size that [get_padded_rules] gives a rules text: its length, and 30
    for each blank line. *)
Definition rough_size (text : string) : nat :=
  Cardmaker.len text + 30 * length (Cardmaker.blank_lines text).

(** The number of steps of 30 that lead from [size] to 240 or more. *)
Definition breaks_needed (size : nat) : nat := (240 - size + 29) / 30.

(** The character is in the ASCII range. *)
Definition is_ascii (c : ascii) : bool := Py.code c <? 128.

(** The characters that the name of a card's file can have: letters,
    digits, the point, the underscore, the hyphen and the blank. *)
Definition plain (c : ascii) : bool :=
  Py.is_alnum c ||
  Ascii.eqb c "." || Ascii.eqb c "_" || Ascii.eqb c "-" || Ascii.eqb c " ".




(** *** The configuration *)

(** The value at the end of a path of keys that leads through mappings
    only. *)
Fixpoint path (c : value) (attrs : list string) : option value :=
  match attrs with
  | [] => Some c
  | attr :: attrs' =>
      match c with
      | VDict d =>
          match Value.get d attr with
          | Some c' => path c' attrs'
          | None => None
          end
      | _ => None
      end
  end.

(** The path meets, before its end, a value in which nothing can be looked
    for: a number, a truth value. *)
Fixpoint blocked (c : value) (attrs : list string) : bool :=
  match attrs with
  | [] => false
  | attr :: attrs' =>
      match c with
      | VDict d =>
          match Value.get d attr with
          | Some c' => blocked c' attrs'
          | None => false
          end
      | VBool _ | VInt _ | VFloat _ | VRules _ => true
      | VNone | VStr _ | VList _ => false
      end
  end.

(** [t] has none of the characters of [p]. *)
Definition apart (p t : string) : Prop :=
  all_chars (fun c => negb (Py.contains (String c "") p)) t = true.

(* ================================================================== *)
(** ** Properties *)
(* ================================================================== *)

(** Comparisons of characters are not unfolded when a goal is simplified. *)
#[local] Arguments Ascii.eqb : simpl never.

(** Case analysis on every test met in the goal or in a hypothesis, after a
    part of the parser has been unfolded; what is left are equations between
    projections of records. *)
Ltac frame :=
  repeat (case_match; try discriminate);
  simplify_eq;
  repeat split; reflexivity.

(** *** Strings *)

Lemma append_cons (c : ascii) (s t : string) :
  String c s +:+ t = String c (s +:+ t).
Proof. reflexivity. Qed.

Lemma append_nil_l (t : string) : "" +:+ t = t.
Proof. reflexivity. Qed.

Lemma append_nil_r (s : string) : s +:+ "" = s.
Proof.
  induction s as [|c s IH]; [reflexivity|]. by rewrite append_cons, IH.
Qed.

Lemma append_assoc (a b c : string) : (a +:+ b) +:+ c = a +:+ b +:+ c.
Proof.
  induction a as [|x a IH]; [reflexivity|]. by rewrite !append_cons, IH.
Qed.

Lemma length_append (a b : string) :
  String.length (a +:+ b) = String.length a + String.length b.
Proof.
  induction a as [|x a IH]; [reflexivity|].
  rewrite append_cons. simpl. by rewrite IH.
Qed.

(** *** [strip], [int] and [str] *)

Lemma rev_acc_rev_acc (s a b : string) :
  Py.rev_acc (Py.rev_acc s a) b = Py.rev_acc a (s +:+ b).
Proof.
  revert a b. induction s as [|c s IH]; intros a b; [reflexivity|].
  simpl. rewrite IH. reflexivity.
Qed.

Lemma rev_rev (s : string) : Py.rev (Py.rev s) = s.
Proof. unfold Py.rev. rewrite rev_acc_rev_acc. simpl. apply append_nil_r. Qed.

Lemma all_chars_rev_acc P (s a : string) :
  all_chars P (Py.rev_acc s a) = all_chars P s && all_chars P a.
Proof.
  revert a. induction s as [|c s IH]; intros a; [reflexivity|].
  simpl. rewrite IH. simpl. destruct (P c), (all_chars P s); reflexivity.
Qed.

Lemma lstrip_not_space (s : string) :
  all_chars not_space s = true -> Py.lstrip s = s.
Proof.
  destruct s as [|c s]; [reflexivity|]. simpl. unfold not_space.
  destruct (Py.is_space c); [discriminate|reflexivity].
Qed.

(** A text without white space is its own [strip]. *)
Lemma strip_not_space (s : string) :
  all_chars not_space s = true -> Py.strip s = s.
Proof.
  intros H. unfold Py.strip, Py.rstrip. rewrite (lstrip_not_space s H).
  rewrite lstrip_not_space; [apply rev_rev|].
  unfold Py.rev. rewrite all_chars_rev_acc, H. reflexivity.
Qed.

Lemma all_chars_impl (P Q : ascii -> bool) (s : string) :
  (forall c, P c = true -> Q c = true) ->
  all_chars P s = true -> all_chars Q s = true.
Proof.
  intros HPQ. induction s as [|c s IH]; [reflexivity|]. simpl.
  intros [Hc Hs]%andb_true_iff. by rewrite (HPQ c Hc), (IH Hs).
Qed.

Lemma is_digit_cases (c : ascii) :
  Py.is_digit c = true ->
  c = "0"%char \/ c = "1"%char \/ c = "2"%char \/ c = "3"%char \/ c = "4"%char \/
  c = "5"%char \/ c = "6"%char \/ c = "7"%char \/ c = "8"%char \/ c = "9"%char.
Proof.
  destruct c as [[] [] [] [] [] [] [] []]; vm_compute; intros H;
    try discriminate H; auto 10.
Qed.

Lemma digit_not_space (c : ascii) : Py.is_digit c = true -> not_space c = true.
Proof.
  intros H. destruct (is_digit_cases c H) as [->|[->|[->|[->|[->|[->|[->|[->|[->| ->]]]]]]]]];
    reflexivity.
Qed.

(** A non-empty run of digits is read by [int] as a natural number. *)
Lemma digits_of_digits (s : string) (b : bool) :
  all_chars Py.is_digit s = true -> (s <> "" \/ b = true) ->
  Py.digits_of b s = Some s.
Proof.
  revert b. induction s as [|c s IH]; intros b H Hne.
  - destruct Hne as [Hne| ->]; [by destruct Hne|reflexivity].
  - simpl in H. apply andb_true_iff in H as [Hc Hs].
    simpl. rewrite Hc, (IH true Hs); [reflexivity|by right].
Qed.

Lemma uint_of_digits (s : string) :
  all_chars Py.is_digit s = true ->
  exists u, NilEmpty.uint_of_string s = Some u.
Proof.
  induction s as [|c s IH]; [by exists Decimal.Nil|].
  simpl. intros [Hc Hs]%andb_true_iff. destruct (IH Hs) as [u ->].
  destruct (is_digit_cases c Hc) as [->|[->|[->|[->|[->|[->|[->|[->|[->| ->]]]]]]]]];
    simpl; eauto.
Qed.

(** [int] on a non-empty run of digits. *)
Lemma int_digits (c : ascii) (s : string) :
  Py.is_digit c = true -> all_chars Py.is_digit s = true ->
  Py.int (String c s) =
  option_map Z.of_uint (NilEmpty.uint_of_string (String c s)).
Proof.
  intros Hc Hs.
  assert (all_chars Py.is_digit (String c s) = true) as H by (simpl; by rewrite Hc, Hs).
  unfold Py.int. rewrite strip_not_space
    by (apply (all_chars_impl Py.is_digit); [apply digit_not_space|exact H]).
  assert (Py.unsigned_of (String c s) = option_map Z.of_uint
            (NilEmpty.uint_of_string (String c s))) as E.
  { unfold Py.unsigned_of. rewrite digits_of_digits; [|exact H|by left].
    by destruct (NilEmpty.uint_of_string (String c s)). }
  destruct (is_digit_cases c Hc) as [->|[->|[->|[->|[->|[->|[->|[->|[->| ->]]]]]]]]];
    exact E.
Qed.

Lemma int_of_digits (c : ascii) (s : string) :
  Py.is_digit c = true -> all_chars Py.is_digit s = true ->
  exists n, Py.int (String c s) = Some n /\ (0 <= n)%Z.
Proof.
  intros Hc Hs. rewrite (int_digits c s Hc Hs).
  assert (all_chars Py.is_digit (String c s) = true) as H by (simpl; by rewrite Hc, Hs).
  destruct (uint_of_digits _ H) as [u ->]. exists (Z.of_uint u).
  split; [reflexivity|]. unfold Z.of_uint. apply N2Z.is_nonneg.
Qed.

Lemma string_of_uint_digits (d : Decimal.uint) :
  all_chars Py.is_digit (NilEmpty.string_of_uint d) = true.
Proof. induction d; simpl; auto. Qed.

Lemma string_of_uint_cons (d : Decimal.uint) :
  d <> Decimal.Nil ->
  exists c s, NilEmpty.string_of_uint d = String c s /\
              Py.is_digit c = true /\ all_chars Py.is_digit s = true.
Proof.
  intros Hd. pose proof (string_of_uint_digits d) as H.
  destruct d; [by destruct Hd|..]; simpl in *; eauto.
Qed.

(** [int] reads what [str] writes. *)
Lemma int_str (n : Z) : Py.int (Py.str n) = Some n.
Proof.
  destruct n as [|p|p]; [reflexivity|..]; unfold Py.str; cbn [Z.to_int].
  - pose proof (DecimalPos.Unsigned.to_uint_nonnil p) as Hnn.
    pose proof (DecimalZ.of_to (Zpos p)) as Hz. cbn [Z.to_int Z.of_int] in Hz.
    destruct (string_of_uint_cons _ Hnn) as (c & s & E & Hc & Hs).
    cbn [NilZero.string_of_int]. unfold NilZero.string_of_uint.
    replace (match Pos.to_uint p with
             | Decimal.Nil => "0"
             | _ => NilEmpty.string_of_uint (Pos.to_uint p)
             end) with (NilEmpty.string_of_uint (Pos.to_uint p))
      by (by destruct (Pos.to_uint p)).
    rewrite E, (int_digits c s Hc Hs), <- E, NilEmpty.usu. simpl. by rewrite Hz.
  - pose proof (DecimalPos.Unsigned.to_uint_nonnil p) as Hnn.
    pose proof (DecimalZ.of_to (Zneg p)) as Hz. cbn [Z.to_int Z.of_int] in Hz.
    destruct (string_of_uint_cons _ Hnn) as (c & s & E & Hc & Hs).
    cbn [NilZero.string_of_int]. unfold NilZero.string_of_uint.
    replace (match Pos.to_uint p with
             | Decimal.Nil => "0"
             | _ => NilEmpty.string_of_uint (Pos.to_uint p)
             end) with (NilEmpty.string_of_uint (Pos.to_uint p))
      by (by destruct (Pos.to_uint p)).
    assert (all_chars Py.is_digit (String c s) = true) as H
      by (simpl; by rewrite Hc, Hs).
    unfold Py.int. rewrite strip_not_space.
    + unfold Py.unsigned_of. rewrite E, digits_of_digits; [|exact H|by left].
      rewrite <- E, NilEmpty.usu. simpl. by rewrite Hz.
    + cbn [all_chars]. apply andb_true_iff. split; [reflexivity|].
      apply (all_chars_impl Py.is_digit);
        [apply digit_not_space|apply string_of_uint_digits].
Qed.

(** *** [split] and [join] *)

Lemma contains_cons p c s :
  Py.contains p (String c s) = false ->
  Py.startswith p (String c s) = false /\ Py.contains p s = false.
Proof. cbn [Py.contains]. by intros [? ?]%orb_false_iff. Qed.

(** A piece without the separator [", "] is read up to the separator that
    follows it. *)
Lemma split_piece (x cur rest : string) :
  Py.contains ", " x = false ->
  Py.split_from ", " 0 cur (x +:+ ", " +:+ rest) =
  (cur +:+ x) :: Py.split_from ", " 0 "" rest.
Proof.
  revert cur. induction x as [|c x IH]; intros cur H.
  - rewrite append_nil_l, append_nil_r. reflexivity.
  - apply contains_cons in H as [Hs Hc].
    rewrite append_cons. cbn [Py.split_from].
    assert (Py.startswith ", " (String c (x +:+ ", " +:+ rest)) = false) as ->.
    { cbn [Py.startswith] in Hs |- *.
      destruct (Ascii.eqb "," c); [|reflexivity]. cbn [andb] in Hs |- *.
      destruct x as [|d x]; [reflexivity|].
      rewrite append_cons. cbn [Py.startswith] in Hs |- *.
      by destruct (Ascii.eqb " " d). }
    rewrite (IH _ Hc). by rewrite append_assoc.
Qed.

(** The last piece. *)
Lemma split_last (x cur : string) :
  Py.contains ", " x = false ->
  Py.split_from ", " 0 cur x = [cur +:+ x].
Proof.
  revert cur. induction x as [|c x IH]; intros cur H.
  - by rewrite append_nil_r.
  - apply contains_cons in H as [Hs Hc]. cbn [Py.split_from]. rewrite Hs.
    rewrite (IH _ Hc). by rewrite append_assoc.
Qed.

(** [split] undoes [join] on a non-empty list of pieces without the
    separator. *)
Lemma split_join (l : list string) :
  l <> [] -> Forall (fun x => Py.contains ", " x = false) l ->
  Py.split ", " (Py.join ", " l) = l.
Proof.
  intros Hne H. unfold Py.split. induction H as [|x l Hx Hl IH]; [by destruct Hne|].
  destruct l as [|y l].
  - cbn [Py.join]. by rewrite split_last.
  - cbn [Py.join] in *. rewrite split_piece by exact Hx.
    rewrite append_nil_l. f_equal. by apply IH.
Qed.

(** *** The matcher *)

Section Engine.

Lemma first_of_Some {A} (x y : option A) (a : A) :
  first_of x y = Some a -> x = Some a \/ y = Some a.
Proof. destruct x; simpl; auto. Qed.

(** What the repetition loop reports is a run of iterations of the step. *)
Lemma repeat_greedy_sound r step lo hi k res :
  (forall st k' res', step st k' = Some res' ->
     exists st', matches r st st' /\ k' st' = Some res') ->
  forall fuel count st,
    repeat_greedy step lo hi k fuel count st = Some res ->
    exists st',
      matches (Rep (lo - count) (option_map (fun h => h - count) hi) r) st st' /\
      k st' = Some res.
Proof.
  intros Hstep.
  assert (forall count st, (if lo <=? count then k st else None) = Some res ->
            exists st',
              matches (Rep (lo - count) (option_map (fun h => h - count) hi) r) st st' /\
              k st' = Some res) as Hstop.
  { intros count st H. destruct (Nat.leb_spec lo count); [|discriminate].
    exists st. split; [|exact H].
    replace (lo - count) with 0 by lia. constructor. }
  induction fuel as [|fuel IH]; intros count st H; cbn [repeat_greedy] in H.
  - by apply Hstop.
  - destruct (below count hi) eqn:Hb; [|by apply Hstop].
    apply first_of_Some in H as [H|H]; [|by apply Hstop].
    apply Hstep in H as (st1 & Hm & H).
    destruct (pos st <? pos st1); [|discriminate].
    apply IH in H as (st2 & Hm2 & H).
    exists st2. split; [|exact H].
    apply matches_Rep_more with st1; [|exact Hm|].
    + destruct hi as [h|]; [|reflexivity]. simpl in *.
      apply Nat.ltb_lt in Hb. apply Nat.ltb_lt. lia.
    + replace (Nat.pred (lo - count)) with (lo - S count) by lia.
      replace (option_map Nat.pred (option_map (fun h => h - count) hi))
        with (option_map (fun h => h - S count) hi); [exact Hm2|].
      destruct hi as [h|]; [|reflexivity]. simpl. f_equal. lia.
Qed.

(** What the matcher reports is a match. *)
Lemma exec_sound r st k res :
  exec r st k = Some res ->
  exists st', matches r st st' /\ k st' = Some res.
Proof.
  revert st k res.
  induction r as [c|s|r1 IH1 r2 IH2|r1 IH1 r2 IH2|lo hi r IH|n r IH|r IH|n|r IH|];
    intros st k res H; cbn [exec] in H.
  - destruct (rest st) as [|a t] eqn:E; [discriminate|].
    destruct (in_cset c a) eqn:Ec; [|discriminate].
    eexists. split; [|exact H]. by constructor.
  - destruct (eat s st) as [st'|] eqn:E; [|discriminate].
    exists st'. split; [by constructor|exact H].
  - apply IH1 in H as (st1 & H1 & H). apply IH2 in H as (st2 & H2 & H).
    exists st2. split; [by apply matches_Seq with st1|exact H].
  - apply first_of_Some in H as [H|H].
    + apply IH1 in H as (st' & H1 & H). exists st'. split; [by constructor|exact H].
    + apply IH2 in H as (st' & H2 & H).
      exists st'. split; [by apply matches_Alt_r|exact H].
  - apply (repeat_greedy_sound r) in H; [|exact IH].
    destruct H as (st' & Hm & H). exists st'. split; [|exact H].
    rewrite Nat.sub_0_r in Hm.
    replace (option_map (fun h => h - 0) hi) with hi in Hm; [exact Hm|].
    destruct hi; [|reflexivity]. simpl. by rewrite Nat.sub_0_r.
  - apply IH in H as (st' & Hm & H).
    eexists. split; [|exact H]. by constructor.
  - apply IH in H as (st' & Hm & H).
    exists st'. split; [by constructor|exact H].
  - destruct (get_cap n (caps st)) as [s|] eqn:E; [|discriminate].
    destruct (eat s st) as [st'|] eqn:E'; [|discriminate].
    exists st'. split; [by apply matches_Back with s|exact H].
  - destruct (exec r st Some); [discriminate|].
    exists st. split; [constructor|exact H].
  - destruct (at_boundary st) eqn:E; [|discriminate].
    exists st. split; [by constructor|exact H].
Qed.





(** What is passed over: the text between two states of the matcher. *)
Lemma eat_consumed s st st' :
  eat s st = Some st' ->
  rest st = s +:+ rest st' /\ pos st' = pos st + String.length s /\
  caps st' = caps st.
Proof.
  revert st. induction s as [|c s IH]; intros st H; cbn [eat] in H.
  - injection H as <-. simpl. auto with lia.
  - destruct (rest st) as [|a t] eqn:E; [discriminate|].
    destruct (Ascii.eqb_spec c a) as [->|]; [|discriminate].
    apply IH in H as (H1 & H2 & H3). cbn [rest pos caps] in *.
    rewrite append_cons, <- H1. simpl. auto with lia.
Qed.

Lemma matches_consumed r st st' :
  matches r st st' ->
  exists w, rest st = w +:+ rest st' /\ pos st' = pos st + String.length w.
Proof.
  induction 1 as [c a t st E Hc|s st st' E|r1 r2 st st1 st2 _ IH1 _ IH2
                 |r1 r2 st st' _ IH|r1 r2 st st' _ IH|hi r st
                 |lo hi r st st1 st2 _ _ IH1 _ IH2|n r st st' _ IH
                 |r st st' _ IH|n s st st' _ E|r st|st _].
  - exists (String a ""). simpl. rewrite E. auto with lia.
  - apply eat_consumed in E as (? & ? & _). eauto.
  - destruct IH1 as (w1 & E1 & P1), IH2 as (w2 & E2 & P2).
    exists (w1 +:+ w2). rewrite append_assoc, <- E2, <- E1, length_append.
    auto with lia.
  - exact IH.
  - exact IH.
  - exists "". simpl. auto with lia.
  - destruct IH1 as (w1 & E1 & P1), IH2 as (w2 & E2 & P2).
    exists (w1 +:+ w2). rewrite append_assoc, <- E2, <- E1, length_append.
    auto with lia.
  - exact IH.
  - exact IH.
  - apply eat_consumed in E as (? & ? & _). eauto.
  - exists "". simpl. auto with lia.
  - exists "". simpl. auto with lia.
Qed.

Lemma all_chars_append P a b :
  all_chars P (a +:+ b) = all_chars P a && all_chars P b.
Proof.
  induction a as [|c a IH]; [reflexivity|].
  rewrite append_cons. simpl. by rewrite IH, andb_assoc.
Qed.

(** The text passed over by a pattern that consumes only characters with
    [P] has only such characters. *)
Lemma matches_consumes_only P r st st' :
  matches r st st' -> consumes_only P r ->
  exists w, rest st = w +:+ rest st' /\ pos st' = pos st + String.length w /\
            all_chars P w = true.
Proof.
  induction 1 as [c a t st E Hc|s st st' E|r1 r2 st st1 st2 _ IH1 _ IH2
                 |r1 r2 st st' _ IH|r1 r2 st st' _ IH|hi r st
                 |lo hi r st st1 st2 _ _ IH1 _ IH2|n r st st' _ IH
                 |r st st' _ IH|n s st st' _ E|r st|st _]; cbn [consumes_only]; intros HP.
  - exists (String a ""). simpl. rewrite E, (HP a Hc). auto with lia.
  - apply eat_consumed in E as (? & ? & _). eauto.
  - destruct HP as [HP1 HP2].
    destruct (IH1 HP1) as (w1 & E1 & P1 & A1), (IH2 HP2) as (w2 & E2 & P2 & A2).
    exists (w1 +:+ w2).
    rewrite append_assoc, <- E2, <- E1, length_append, all_chars_append, A1, A2.
    auto with lia.
  - apply IH, HP.
  - apply IH, HP.
  - exists "". simpl. auto with lia.
  - destruct (IH1 HP) as (w1 & E1 & P1 & A1), (IH2 HP) as (w2 & E2 & P2 & A2).
    exists (w1 +:+ w2).
    rewrite append_assoc, <- E2, <- E1, length_append, all_chars_append, A1, A2.
    auto with lia.
  - destruct (IH HP) as (w & E & Pw & A). exists w. auto.
  - apply IH, HP.
  - destruct HP.
  - exists "". simpl. auto with lia.
  - exists "". simpl. auto with lia.
Qed.

(** A pattern without the group [n] leaves that group as it was. *)
Lemma matches_group_free n r st st' :
  matches r st st' -> group_free n r = true ->
  get_cap n (caps st') = get_cap n (caps st).
Proof.
  induction 1 as [c a t st E Hc|s st st' E|r1 r2 st st1 st2 _ IH1 _ IH2
                 |r1 r2 st st' _ IH|r1 r2 st st' _ IH|hi r st
                 |lo hi r st st1 st2 _ _ IH1 _ IH2|k r st st' _ IH
                 |r st st' _ IH|k s st st' _ E|r st|st _]; cbn [group_free]; intros HG;
    try reflexivity.
  - apply eat_consumed in E as (_ & _ & ->). reflexivity.
  - apply andb_true_iff in HG as [G1 G2]. by rewrite (IH2 G2), (IH1 G1).
  - apply andb_true_iff in HG as [G1 G2]. by apply IH.
  - apply andb_true_iff in HG as [G1 G2]. by apply IH.
  - by rewrite (IH2 HG), (IH1 HG).
  - apply andb_true_iff in HG as [G1 G2]. cbn [set_cap caps get_cap].
    apply negb_true_iff in G1. rewrite G1. by apply IH.
  - by apply IH.
  - apply eat_consumed in E as (_ & _ & ->). reflexivity.
Qed.

Lemma take_append w s : Py.take (String.length w) (w +:+ s) = w.
Proof.
  induction w as [|c w IH]; [by destruct s|].
  rewrite append_cons. simpl. by rewrite IH.
Qed.

(** The text that a group records is the text that its pattern passed
    over. *)
Lemma matches_Grp_inv n r st st2 :
  matches (Grp n r) st st2 ->
  exists st' w,
    matches r st st' /\ st2 = set_cap n w st' /\
    rest st = w +:+ rest st' /\ pos st' = pos st + String.length w.
Proof.
  inversion 1 as [| | | | | | |n' r' st0 st' Hm| | | |]; subst.
  destruct (matches_consumed _ _ _ Hm) as (w & E & P).
  exists st', w. repeat split; [exact Hm| |exact E|exact P].
  rewrite E, P. replace (pos st + String.length w - pos st) with (String.length w) by lia.
  by rewrite take_append.
Qed.

(** **** The bound of a repetition is never reached *)

Lemma follows_refl st : follows st st = true.
Proof.
  unfold follows. rewrite Nat.leb_refl, Nat.sub_diag, Nat.add_0_r.
  by rewrite Nat.eqb_refl.
Qed.

Lemma follows_trans st1 st2 st3 :
  follows st1 st2 = true -> follows st2 st3 = true -> follows st1 st3 = true.
Proof.
  unfold follows. rewrite !andb_true_iff, !Nat.leb_le, !Nat.eqb_eq. lia.
Qed.

Lemma follows_set_cap st n w st' : follows st (set_cap n w st') = follows st st'.
Proof. reflexivity. Qed.

Lemma follows_eat s st st' : eat s st = Some st' -> follows st st' = true.
Proof.
  intros (Hr & Hp & _)%eat_consumed. unfold follows.
  rewrite Hr, Hp, length_append, andb_true_iff, Nat.leb_le, Nat.eqb_eq. lia.
Qed.

(** The matcher calls its continuation only on states that follow the one
    it started from. *)
Lemma repeat_greedy_ext step lo hi k1 k2 st0 :
  (forall st k k', (forall st', follows st st' = true -> k st' = k' st') ->
     step st k = step st k') ->
  (forall st', follows st0 st' = true -> k1 st' = k2 st') ->
  forall fuel count st, follows st0 st = true ->
    repeat_greedy step lo hi k1 fuel count st =
    repeat_greedy step lo hi k2 fuel count st.
Proof.
  intros Hstep Hk. induction fuel as [|fuel IH]; intros count st Hst;
    cbn [repeat_greedy]; rewrite (Hk st Hst); [reflexivity|].
  destruct (below count hi); [|reflexivity]. f_equal.
  apply Hstep. intros st' Hst'. destruct (pos st <? pos st'); [|reflexivity].
  apply IH. by apply follows_trans with st.
Qed.

Lemma exec_ext r st k1 k2 :
  (forall st', follows st st' = true -> k1 st' = k2 st') ->
  exec r st k1 = exec r st k2.
Proof.
  revert st k1 k2.
  induction r as [c|s|r1 IH1 r2 IH2|r1 IH1 r2 IH2|lo hi r IH|n r IH|r IH|n|r IH|];
    intros st k1 k2 Hk; cbn [exec].
  - destruct (rest st) as [|a t] eqn:E; [reflexivity|].
    destruct (in_cset c a); [|reflexivity]. apply Hk.
    unfold follows. cbn [pos rest]. rewrite E. cbn [String.length].
    rewrite andb_true_iff, Nat.leb_le, Nat.eqb_eq. lia.
  - destruct (eat s st) as [st'|] eqn:E; [|reflexivity].
    apply Hk. by apply follows_eat with s.
  - apply IH1. intros st1 H1. apply IH2. intros st2 H2. apply Hk.
    by apply follows_trans with st1.
  - by rewrite (IH1 st k1 k2 Hk), (IH2 st k1 k2 Hk).
  - apply repeat_greedy_ext with st; [exact IH|exact Hk|apply follows_refl].
  - apply IH. intros st' H'. apply Hk. by rewrite follows_set_cap.
  - by apply IH.
  - destruct (get_cap n (caps st)) as [s|]; [|reflexivity].
    destruct (eat s st) as [st'|] eqn:E; [|reflexivity].
    apply Hk. by apply follows_eat with s.
  - destruct (exec r st Some); [reflexivity|]. apply Hk, follows_refl.
  - destruct (at_boundary st); [|reflexivity]. apply Hk, follows_refl.
Qed.

(** A continuation that always fails makes the matcher fail. *)
Lemma repeat_greedy_fail step lo hi fuel count st :
  (forall st, step st (fun _ => None) = None) ->
  (forall st k k', (forall st', follows st st' = true -> k st' = k' st') ->
     step st k = step st k') ->
  repeat_greedy step lo hi (fun _ => None) fuel count st = None.
Proof.
  intros Hfail Hstep. revert count st.
  induction fuel as [|fuel IH]; intros count st; cbn [repeat_greedy].
  - by destruct (lo <=? count).
  - replace (if lo <=? count then None else None) with (@None mstate)
      by (by destruct (lo <=? count)).
    destruct (below count hi); [|reflexivity].
    rewrite (Hstep st _ (fun _ => None)); [by rewrite Hfail|].
    intros st' _. destruct (pos st <? pos st'); [apply IH|reflexivity].
Qed.

Lemma exec_fail r st : exec r st (fun _ => None) = None.
Proof.
  revert st.
  induction r as [c|s|r1 IH1 r2 IH2|r1 IH1 r2 IH2|lo hi r IH|n r IH|r IH|n|r IH|];
    intros st; cbn [exec].
  - destruct (rest st); [reflexivity|]. by destruct (in_cset c _).
  - by destruct (eat s st).
  - rewrite (exec_ext r1 st _ (fun _ => None)); [apply IH1|].
    intros st' _. apply IH2.
  - by rewrite IH1, IH2.
  - apply repeat_greedy_fail; [exact IH|]. intros st' k k'. apply exec_ext.
  - apply IH.
  - apply IH.
  - destruct (get_cap n (caps st)); [|reflexivity]. by destruct (eat _ st).
  - by destruct (exec r st Some).
  - by destruct (at_boundary st).
Qed.

(** One more unit of fuel changes nothing once the fuel covers the text
    that is left. *)
Lemma repeat_greedy_fuel_S r lo hi k fuel count st :
  String.length (rest st) <= fuel ->
  repeat_greedy (exec r) lo hi k (S fuel) count st =
  repeat_greedy (exec r) lo hi k fuel count st.
Proof.
  revert count st. induction fuel as [|fuel IH]; intros count st Hlen.
  - cbn [repeat_greedy]. destruct (below count hi); [|reflexivity].
    rewrite (exec_ext r st _ (fun _ => None)); [by rewrite exec_fail|].
    intros st' Hf. destruct (Nat.ltb_spec (pos st) (pos st')); [|reflexivity].
    unfold follows in Hf. apply andb_true_iff in Hf as [_ Hf].
    apply Nat.eqb_eq in Hf. lia.
  - cbn [repeat_greedy]. destruct (below count hi); [|reflexivity]. f_equal.
    apply exec_ext. intros st' Hf.
    destruct (Nat.ltb_spec (pos st) (pos st')); [|reflexivity].
    change (repeat_greedy (exec r) lo hi k (S fuel) (S count) st' =
            repeat_greedy (exec r) lo hi k fuel (S count) st').
    apply IH. unfold follows in Hf. apply andb_true_iff in Hf as [_ Hf].
    apply Nat.eqb_eq in Hf. lia.
Qed.

(** The fuel that [exec] gives to a repetition, the length of the text
    left, is as good as any larger amount. *)
Lemma repeat_greedy_fuel r lo hi k more count st :
  repeat_greedy (exec r) lo hi k (String.length (rest st) + more) count st =
  repeat_greedy (exec r) lo hi k (String.length (rest st)) count st.
Proof.
  induction more as [|more IH]; [by rewrite Nat.add_0_r|].
  rewrite Nat.add_succ_r, repeat_greedy_fuel_S by lia. exact IH.
Qed.

(** **** The bound of [finditer] and [sub] is never reached *)

Lemma seek_end n pv s p :
  String.length s <= n -> exists pv' p', seek n pv s p = (pv', "", p').
Proof.
  revert pv s p. induction n as [|n IH]; intros pv s p H.
  - destruct s; [eauto|simpl in H; lia].
  - destruct s as [|a t]; [eauto|]. cbn [seek]. apply IH. simpl in H. lia.
Qed.

(** A pattern that matches no empty text has no match from the end of the
    subject on. *)
Lemma search_at_end r s start :
  (forall pv p, exec r (MState pv "" p []) Some = None) ->
  String.length s <= start -> search r s start = None.
Proof.
  intros Hr H. unfold search. destruct (seek_end start None s 0 H) as (pv & p & ->).
  cbn [scan]. by rewrite Hr.
Qed.

Lemma finditer_from_fuel r s fuel more start :
  (forall start, String.length s <= start -> search r s start = None) ->
  String.length s < fuel + start ->
  finditer_from (fuel + more) r s start = finditer_from fuel r s start.
Proof.
  intros Hend. revert start. induction fuel as [|fuel IH]; intros start H.
  - destruct more as [|more]; [reflexivity|]. cbn [Nat.add finditer_from].
    rewrite Hend by lia. reflexivity.
  - cbn [Nat.add finditer_from]. destruct (search r s start) as [m|]; [|reflexivity].
    f_equal. apply IH. lia.
Qed.

Lemma sub_from_fuel r template s fuel more start :
  (forall start, String.length s <= start -> search r s start = None) ->
  String.length s < fuel + start ->
  sub_from (fuel + more) r template s start = sub_from fuel r template s start.
Proof.
  intros Hend. revert start. induction fuel as [|fuel IH]; intros start H.
  - destruct more as [|more]; [reflexivity|]. cbn [Nat.add sub_from].
    rewrite Hend by lia. reflexivity.
  - cbn [Nat.add sub_from]. destruct (search r s start) as [m|]; [|reflexivity].
    do 2 f_equal. apply IH. lia.
Qed.

(** Inversions, for the patterns of the extractor. *)

Lemma matches_Seq_inv r1 r2 st st2 :
  matches (Seq r1 r2) st st2 ->
  exists st1, matches r1 st st1 /\ matches r2 st1 st2.
Proof. inversion 1; subst; eauto. Qed.

Lemma matches_Chr_inv c st st' :
  matches (Chr c) st st' ->
  exists a t, rest st = String a t /\ in_cset c a = true /\
              st' = MState (Some a) t (S (pos st)) (caps st).
Proof. inversion 1; subst; eauto. Qed.

Lemma matches_Rep_S_inv lo hi r st st2 :
  matches (Rep (S lo) hi r) st st2 ->
  exists st1, matches r st st1 /\
              matches (Rep lo (option_map Nat.pred hi) r) st1 st2.
Proof. inversion 1; subst; eauto. Qed.

Lemma matches_Rep_0_inv lo r st st' :
  matches (Rep lo (Some 0) r) st st' -> st' = st.
Proof. inversion 1; subst; [reflexivity|discriminate]. Qed.


End Engine.

(** *** The patterns of the extractor *)



(** The two patterns that are used with [sub] and [finditer] match no
    empty text, so that the loops over their matches never run out of
    fuel. *)
Lemma rules_formatted_not_empty pv p :
  exec re_rules_formatted (MState pv "" p []) Some = None.
Proof. reflexivity. Qed.

Lemma mat_cost_not_empty pv p :
  exec re_mat_cost (MState pv "" p []) Some = None.
Proof.
  unfold re_mat_cost. cbn [exec]. unfold at_boundary. cbn [prev next rest].
  by destruct (wordish pv).
Qed.

Lemma strip_formatting_fuel s more :
  sub_from (S (String.length s) + more) re_rules_formatted template_2 s 0 =
  strip_formatting s.
Proof.
  apply sub_from_fuel; [|lia]. intros start.
  apply search_at_end, rules_formatted_not_empty.
Qed.

Lemma cost_groups_fuel text more :
  map (group_str 1)
    (finditer_from (S (String.length text) + more) re_mat_cost text 0) =
  cost_groups text.
Proof.
  unfold cost_groups, finditer. f_equal. apply finditer_from_fuel; [|lia].
  intros start. apply search_at_end, mat_cost_not_empty.
Qed.




(** Without its commas, an occurrence is a run of digits. *)
Lemma replace_commas w :
  all_chars digit_or_comma w = true ->
  all_chars Py.is_digit (Py.replace_from "," "" 0 w) = true.
Proof.
  induction w as [|c w IH]; [reflexivity|].
  simpl. intros [Hc Hw]%andb_true_iff. cbn [Py.replace_from Py.startswith].
  destruct (Ascii.eqb_spec "," c) as [<-|Hne]; cbn [andb].
  - rewrite append_nil_l. by apply IH.
  - cbn [all_chars]. unfold digit_or_comma in Hc.
    apply orb_true_iff in Hc as [Hc|Hc].
    + by rewrite Hc, (IH Hw).
    + apply Ascii.eqb_eq in Hc. congruence.
Qed.

Lemma digit_not_comma d : Py.is_digit d = true -> Ascii.eqb "," d = false.
Proof.
  intros H. destruct (is_digit_cases d H) as [->|[->|[->|[->|[->|[->|[->|[->|[->| ->]]]]]]]]];
    reflexivity.
Qed.

(** [int] reads every occurrence. *)
Lemma to_int_cost_text g :
  cost_text g = true ->
  to_int (Py.replace "," "" g) = Ok (occurrence_value g) /\
  (0 <= occurrence_value g)%Z.
Proof.
  destruct g as [|d w]; [discriminate|]. simpl.
  intros [Hd Hw]%andb_true_iff.
  assert (Py.replace "," "" (String d w) =
          String d (Py.replace_from "," "" 0 w)) as E.
  { unfold Py.replace. cbn [Py.replace_from Py.startswith].
    by rewrite (digit_not_comma d Hd). }
  destruct (int_of_digits d _ Hd (replace_commas w Hw)) as (n & Hn & Hpos).
  unfold to_int, occurrence_value. rewrite E, Hn. simpl. auto.
Qed.



Lemma sum_of_nonneg found :
  Forall (fun g => cost_text g = true) found -> (0 <= sum_of found)%Z.
Proof.
  induction 1 as [|g found Hg _ IH]; [reflexivity|].
  unfold sum_of in *. simpl. destruct (to_int_cost_text g Hg) as [_ H]. lia.
Qed.

Lemma append_inj_length (w w' s s' : string) :
  w +:+ s = w' +:+ s' -> String.length w = String.length w' -> w = w'.
Proof.
  revert w'. induction w as [|c w IH]; intros [|c' w'] E Hl; try discriminate Hl;
    [reflexivity|].
  rewrite !append_cons in E. injection E as -> E. injection Hl as Hl.
  by rewrite (IH w' E Hl).
Qed.

(** The text of a group whose pattern consumes only characters with [P]. *)
Lemma matches_Grp_text P n r st st2 :
  matches (Grp n r) st st2 -> consumes_only P r ->
  exists w, get_cap n (caps st2) = Some w /\ all_chars P w = true /\
            rest st = w +:+ rest st2 /\ pos st2 = pos st + String.length w.
Proof.
  intros (st' & w & Hm & -> & Hw & Hp)%matches_Grp_inv Hco.
  destruct (matches_consumes_only _ _ _ _ Hm Hco) as (w' & Hw' & Hp' & Hall).
  assert (w' = w) as ->.
  { apply (append_inj_length _ _ (rest st') (rest st')); [congruence|lia]. }
  exists w. cbn [set_cap caps rest pos get_cap]. rewrite Nat.eqb_refl. auto.
Qed.





(** *** What each part of the metadata parser leaves alone *)

Lemma abort_is_Raise {A} what spell (x : A) : abort what spell <> Ok x.
Proof. unfold abort. destruct (Spell.name spell); discriminate. Qed.


Lemma parse_level_school_ritual_frame spell meta s' m' :
  parse_level_school_ritual spell meta = Ok (s', m') ->
  keeps Spell.name spell s' /\ keeps Spell.classes spell s' /\
  keeps Spell.rules spell s' /\ keeps Spell.source spell s' /\
  keeps Spell.material spell s' /\ keeps Spell.material_text spell s' /\
  keeps Spell.material_cost spell s' /\ keeps Spell.material_costly spell s'.
Proof.
  unfold parse_level_school_ritual, keeps, bind, to_int. intros H.
  destruct (search re_cantrip_school_ritual meta 0).
  - simplify_eq. repeat split; reflexivity.
  - destruct (search re_lvl_school_ritual meta 0).
    + destruct (Py.int _); simplify_eq. repeat split; reflexivity.
    + by apply abort_is_Raise in H.
Qed.

Lemma parse_casting_time_frame spell meta m s' m' :
  parse_casting_time spell meta m = Ok (s', m') ->
  keeps Spell.name spell s' /\ keeps Spell.classes spell s' /\
  keeps Spell.source spell s' /\
  keeps Spell.level spell s' /\ keeps Spell.school spell s' /\
  keeps Spell.ritual spell s' /\
  keeps Spell.material spell s' /\ keeps Spell.material_text spell s' /\
  keeps Spell.material_cost spell s' /\ keeps Spell.material_costly spell s'.
Proof.
  unfold parse_casting_time, keeps, bind, item. intros H.
  destruct (search re_casting_time meta (m_end m));
    [|by apply abort_is_Raise in H].
  frame.
Qed.

Lemma parse_range_frame spell meta m s' m' :
  parse_range spell meta m = Ok (s', m') ->
  keeps Spell.name spell s' /\ keeps Spell.classes spell s' /\
  keeps Spell.rules spell s' /\ keeps Spell.source spell s' /\
  keeps Spell.level spell s' /\ keeps Spell.school spell s' /\
  keeps Spell.ritual spell s' /\
  keeps Spell.material spell s' /\ keeps Spell.material_text spell s' /\
  keeps Spell.material_cost spell s' /\ keeps Spell.material_costly spell s'.
Proof.
  unfold parse_range, keeps. intros H.
  destruct (search re_range meta (m_end m));
    [|by apply abort_is_Raise in H].
  simplify_eq. repeat split; reflexivity.
Qed.

Lemma cost_and_consumption_frame spell s' :
  cost_and_consumption spell = Ok s' ->
  keeps Spell.name spell s' /\ keeps Spell.classes spell s' /\
  keeps Spell.rules spell s' /\ keeps Spell.source spell s' /\
  keeps Spell.level spell s' /\ keeps Spell.school spell s' /\
  keeps Spell.ritual spell s' /\ keeps Spell.material spell s'.
Proof.
  unfold cost_and_consumption, keeps, bind. intros H. frame.
Qed.

Lemma parse_components_frame spell meta m s' m' :
  parse_components spell meta m = Ok (s', m') ->
  keeps Spell.name spell s' /\ keeps Spell.classes spell s' /\
  keeps Spell.rules spell s' /\ keeps Spell.source spell s' /\
  keeps Spell.level spell s' /\ keeps Spell.school spell s' /\
  keeps Spell.ritual spell s'.
Proof.
  unfold parse_components, keeps, bind. intros H.
  destruct (search re_components meta (m_end m));
    [|by apply abort_is_Raise in H].
  destruct (if Py.contains "(" _ then _ else _) as [[types sp]|] eqn:E;
    [|discriminate].
  destruct (cost_and_consumption _) as [sp'|] eqn:E'; [|discriminate].
  apply cost_and_consumption_frame in E'. unfold keeps in E'. simpl in E'.
  injection H as <- <-.
  assert (Spell.name sp = Spell.name spell /\ Spell.classes sp = Spell.classes spell /\
          Spell.rules sp = Spell.rules spell /\ Spell.source sp = Spell.source spell /\
          Spell.level sp = Spell.level spell /\ Spell.school sp = Spell.school spell /\
          Spell.ritual sp = Spell.ritual spell) as Hsp.
  { unfold item in E. frame. }
  destruct E' as (-> & -> & -> & -> & -> & -> & -> & _). exact Hsp.
Qed.

Lemma parse_duration_frame spell meta m s' :
  parse_duration spell meta m = Ok s' ->
  keeps Spell.name spell s' /\ keeps Spell.classes spell s' /\
  keeps Spell.rules spell s' /\ keeps Spell.source spell s' /\
  keeps Spell.level spell s' /\ keeps Spell.school spell s' /\
  keeps Spell.ritual spell s' /\
  keeps Spell.material spell s' /\ keeps Spell.material_text spell s' /\
  keeps Spell.material_cost spell s' /\ keeps Spell.material_costly spell s' /\
  keeps Spell.material_consumed spell s'.
Proof.
  unfold parse_duration, keeps. intros H.
  destruct (search re_duration meta (m_end m));
    [|by apply abort_is_Raise in H].
  cbv zeta in H. frame.
Qed.

(** The parts of [populate_spell_metadata] that succeeded. *)
Lemma populate_spell_metadata_Ok spell meta s' :
  populate_spell_metadata spell meta = Ok s' ->
  exists s1 m1 s2 m2 s3 m3 s4 m4,
    parse_level_school_ritual spell meta = Ok (s1, m1) /\
    parse_casting_time s1 meta m1 = Ok (s2, m2) /\
    parse_range s2 meta m2 = Ok (s3, m3) /\
    parse_components s3 meta m3 = Ok (s4, m4) /\
    parse_duration s4 meta m4 = Ok s'.
Proof.
  unfold populate_spell_metadata, bind. intros H.
  destruct (parse_level_school_ritual spell meta) as [[s1 m1]|]; [|discriminate].
  destruct (parse_casting_time _ _ _) as [[s2 m2]|] eqn:E2; [|discriminate].
  destruct (parse_range _ _ _) as [[s3 m3]|] eqn:E3; [|discriminate].
  destruct (parse_components _ _ _) as [[s4 m4]|] eqn:E4; [|discriminate].
  simpl in *. exists s1, m1, s2, m2, s3, m3, s4, m4. auto.
Qed.


(** The level, school and ritual flag that the first part of the parser
    sets are the ones of the finished record. *)
Lemma populate_keeps_level_school_ritual spell meta spell' s1 m1 :
  populate_spell_metadata spell meta = Ok spell' ->
  parse_level_school_ritual spell meta = Ok (s1, m1) ->
  Spell.level spell' = Spell.level s1 /\
  Spell.school spell' = Spell.school s1 /\
  Spell.ritual spell' = Spell.ritual s1.
Proof.
  intros (s1' & m1' & s2 & m2 & s3 & m3 & s4 & m4 & H1 & H2 & H3 & H4 & H5)
    %populate_spell_metadata_Ok E.
  rewrite E in H1. injection H1 as <- <-.
  apply parse_casting_time_frame in H2 as (_ & _ & _ & L2 & S2 & R2 & _).
  apply parse_range_frame in H3 as (_ & _ & _ & _ & L3 & S3 & R3 & _).
  apply parse_components_frame in H4 as (_ & _ & _ & _ & L4 & S4 & R4).
  apply parse_duration_frame in H5 as (_ & _ & _ & _ & L5 & S5 & R5 & _).
  unfold keeps in *. repeat split; congruence.
Qed.

(** *** The metadata parser on the sample of scenario A *)


(** *** The content loop *)

Section Segmenter.

Variable spell_name : string.

(** An item without the marker is poured into the buffer that is current. *)
Lemma read_content_step x items c0 c1 seg log t :
  text_of x = Some t ->
  read_content spell_name (x :: items) (c0, c1) seg log =
  read_content spell_name items
    (put (c0, c1) seg (pour1 (get (c0, c1) seg) x))
    (if Py.contains duration_marker t then 1 else seg) log.
Proof.
  intros Ht. destruct x as [s|l|]; simpl in Ht; [| |discriminate].
  - injection Ht as <-. simpl. unfold add_text.
    destruct seg; reflexivity.
  - destruct (strings_of l) as [frags|] eqn:E; [|discriminate].
    injection Ht as <-. cbn [read_content]. rewrite E.
    unfold add_list, add_text, pour1, text_of. rewrite E. cbn [option_map].
    destruct seg as [|seg]; cbn [get put fst snd Nat.eqb];
      destruct (String.eqb _ Py.nlnl); reflexivity.
Qed.

(** An item that is no string and no list of strings ends the loop. *)
Lemma read_content_stop x items content seg log :
  text_of x = None ->
  read_content spell_name (x :: items) content seg log =
  (content, seg, print (msg_non_string spell_name) log).
Proof.
  destruct x as [s|l|]; simpl; [discriminate| |reflexivity].
  destruct (strings_of l); [discriminate|reflexivity].
Qed.

(** Before the marker, everything goes to the first buffer. *)
Lemma read_content_before pre items c0 c1 log :
  Forall (fun x => supported x = true /\ has_marker x = false) pre ->
  read_content spell_name (pre ++ items) (c0, c1) 0 log =
  read_content spell_name items (pour pre c0, c1) 0 log.
Proof.
  intros H. revert c0. induction H as [|x pre [Hs Hm] _ IH]; intros c0; [reflexivity|].
  unfold supported in Hs. apply bool_decide_eq_true in Hs. destruct Hs as [t Ht].
  unfold has_marker in Hm. rewrite Ht in Hm.
  cbn [app]. rewrite (read_content_step _ _ _ _ _ _ _ Ht), Hm.
  cbn [put get fst snd Nat.eqb]. apply IH.
Qed.

(** After the marker, everything goes to the second buffer, marker or not. *)
Lemma read_content_after post items c0 c1 log :
  Forall (fun x => supported x = true) post ->
  read_content spell_name (post ++ items) (c0, c1) 1 log =
  read_content spell_name items (c0, pour post c1) 1 log.
Proof.
  intros H. revert c1. induction H as [|x post Hs _ IH]; intros c1; [reflexivity|].
  unfold supported in Hs. apply bool_decide_eq_true in Hs. destruct Hs as [t Ht].
  cbn [app]. rewrite (read_content_step _ _ _ _ _ _ _ Ht).
  replace (if Py.contains duration_marker t then 1 else 1) with 1
    by (destruct (Py.contains _ _); reflexivity).
  cbn [put get fst snd Nat.eqb]. apply IH.
Qed.

Lemma read_content_tail tail content seg log :
  stops tail ->
  read_content spell_name tail content seg log = (content, seg, stop_log spell_name tail log).
Proof.
  destruct tail as [|x tail]; [reflexivity|]. cbn [stops stop_log]. intros H.
  apply read_content_stop. unfold supported in H.
  apply bool_decide_eq_false in H. destruct (text_of x); [|reflexivity].
  exfalso. apply H. eauto.
Qed.

(** Content without any marker before its end stays in segment 0. *)
Lemma read_content_no_marker pre tail log :
  Forall (fun x => supported x = true /\ has_marker x = false) pre ->
  stops tail ->
  read_content spell_name (pre ++ tail) ("", "") 0 log =
  ((pour pre "", ""), 0, stop_log spell_name tail log).
Proof.
  intros Hpre Htail. rewrite read_content_before by assumption.
  by apply read_content_tail.
Qed.

(** Content with a marker: the item that has it still goes to the first
    buffer, the items after it to the second. *)
Lemma read_content_marker pre m post tail log :
  Forall (fun x => supported x = true /\ has_marker x = false) pre ->
  supported m = true -> has_marker m = true ->
  Forall (fun x => supported x = true) post ->
  stops tail ->
  read_content spell_name (pre ++ m :: post ++ tail) ("", "") 0 log =
  ((pour (pre ++ [m]) "", pour post ""), 1, stop_log spell_name tail log).
Proof.
  intros Hpre Hs Hm Hpost Htail.
  rewrite read_content_before by assumption.
  unfold supported in Hs. apply bool_decide_eq_true in Hs. destruct Hs as [t Ht].
  unfold has_marker in Hm. rewrite Ht in Hm.
  rewrite (read_content_step _ _ _ _ _ _ _ Ht), Hm.
  cbn [put get fst snd Nat.eqb].
  rewrite read_content_after by assumption.
  rewrite read_content_tail by assumption.
  unfold pour. rewrite fold_left_app. reflexivity.
Qed.

End Segmenter.

(** *** The batch loop *)

Lemma create_spell_dict_no_content spell_name rest self :
  create_spell_dict ((spell_name, None) :: rest) self =
  create_spell_dict rest
    (Extractor (spells self) (print (msg_no_content spell_name) (printed self))).
Proof. reflexivity. Qed.

Lemma create_spell_dict_content spell_name items rest self content seg log :
  read_content spell_name items ("", "") 0 (printed self) = (content, seg, log) ->
  create_spell_dict ((spell_name, Some items) :: rest) self =
  if seg =? 0 then
    create_spell_dict rest
      (Extractor (spells self) (print (msg_no_duration spell_name) log))
  else
    match populate_spell_metadata (fresh_spell spell_name) (Py.strip content.1) with
    | Raise e => Aborted e (Extractor (spells self) log)
    | Ok spell =>
        create_spell_dict rest
          (Extractor
             (<[spell_name := populate_spell_rules spell (Py.strip content.2)]>
                (spells self)) log)
    end.
Proof. intros H. cbn [create_spell_dict]. rewrite H. reflexivity. Qed.


(** *** The class lists *)

Lemma split_from_not_nil sep skip cur s : Py.split_from sep skip cur s <> [].
Proof.
  revert skip cur. induction s as [|c s IH]; intros skip cur; [discriminate|].
  cbn [Py.split_from]. destruct skip; [|apply IH].
  destruct (Py.startswith sep (String c s)); [discriminate|apply IH].
Qed.

Lemma item_0_split label : item 0 (Py.split " " label) = Ok (first_token label).
Proof.
  unfold item, first_token, Py.split.
  pose proof (split_from_not_nil " " 0 "" label) as H.
  destruct (Py.split_from " " 0 "" label); [by destruct H|reflexivity].
Qed.

Lemma extend_nil spell :
  is_Some (Spell.classes spell) -> extend [] spell = spell.
Proof.
  intros [l Hl]. destruct spell. simpl in Hl. subst. unfold extend. simpl.
  by rewrite app_nil_r.
Qed.

Lemma extend_extend t1 t2 spell : extend t2 (extend t1 spell) = extend (t1 ++ t2) spell.
Proof. unfold extend. simpl. by rewrite app_assoc. Qed.

Lemma extend_with_classes tokens spell : is_Some (Spell.classes (extend tokens spell)).
Proof. unfold extend. simpl. eauto. Qed.

Lemma annotated_with_classes tokens before after :
  annotated tokens before after -> with_classes after.
Proof.
  intros H n spell Hn. rewrite H in Hn.
  destruct (before !! n); [|discriminate]. injection Hn as <-.
  apply extend_with_classes.
Qed.

Lemma annotated_trans t1 t2 a b c :
  annotated t1 a b -> annotated t2 b c ->
  annotated (fun n => t1 n ++ t2 n) a c.
Proof.
  intros H1 H2 n. rewrite H2, H1. destruct (a !! n); [|reflexivity].
  simpl. by rewrite extend_extend.
Qed.

Lemma annotated_refl spells :
  with_classes spells -> annotated (fun _ => []) spells spells.
Proof.
  intros H n. destruct (spells !! n) as [spell|] eqn:E; [|reflexivity].
  simpl. by rewrite (extend_nil _ (H _ _ E)).
Qed.

(** One listing: a name that is no record is passed over, a record gets
    the class name appended. *)
Lemma append_class_annotated class_name spell_name spells :
  with_classes spells ->
  exists spells',
    append_class class_name spell_name spells = Ok spells' /\
    annotated (fun n => listed_in class_name n [spell_name]) spells spells'.
Proof.
  intros Hwc. unfold append_class.
  destruct (spells !! spell_name) as [spell|] eqn:E.
  - destruct (Hwc _ _ E) as [l Hl]. rewrite Hl. eexists. split; [reflexivity|].
    intros n. unfold listed_in. cbn [flat_map]. rewrite app_nil_r.
    destruct (decide (spell_name = n)) as [<-|Hne].
    + rewrite lookup_insert_eq, E. simpl. unfold extend. by rewrite Hl.
    + rewrite lookup_insert_ne by exact Hne.
      destruct (spells !! n) as [sp|] eqn:En; [|reflexivity].
      simpl. by rewrite (extend_nil _ (Hwc _ _ En)).
  - exists spells. split; [reflexivity|].
    intros n. unfold listed_in. cbn [flat_map]. rewrite app_nil_r.
    destruct (decide (spell_name = n)) as [<-|Hne].
    + by rewrite E.
    + destruct (spells !! n) as [sp|] eqn:En; [|reflexivity].
      simpl. by rewrite (extend_nil _ (Hwc _ _ En)).
Qed.

Lemma listed_in_singletons class_name n l :
  flat_map (fun x => listed_in class_name n [x]) l = listed_in class_name n l.
Proof.
  induction l as [|x l IH]; [reflexivity|].
  cbn [flat_map]. rewrite IH. unfold listed_in. cbn [flat_map].
  by rewrite app_nil_r.
Qed.

(** A loop of annotating steps is an annotating step. *)
Lemma for_each_annotated {A} (l : list A)
  (body : A -> gmap string Spell.t -> result (gmap string Spell.t))
  (tokens : A -> string -> list string) spells :
  (forall x s, with_classes s ->
     exists s', body x s = Ok s' /\ annotated (tokens x) s s') ->
  with_classes spells ->
  exists spells',
    for_each l body spells = Ok spells' /\
    annotated (fun n => flat_map (fun x => tokens x n) l) spells spells'.
Proof.
  intros Hbody. revert spells. induction l as [|x l IH]; intros spells Hwc.
  - exists spells. split; [reflexivity|]. by apply annotated_refl.
  - destruct (Hbody x spells Hwc) as (s1 & E1 & A1).
    destruct (IH s1 (annotated_with_classes _ _ _ A1)) as (s2 & E2 & A2).
    exists s2. cbn [for_each]. rewrite E1. cbn [bind]. split; [exact E2|].
    cbn [flat_map]. exact (annotated_trans _ _ _ _ _ A1 A2).
Qed.

(** [add_class_info] never raises on records that have a class list, and
    appends to each record the tokens of the labels that list it. *)
Lemma add_class_info_annotated data self :
  with_classes (spells self) ->
  exists spells',
    add_class_info data self = Ok (Extractor spells' (printed self)) /\
    annotated (listed_tokens data) (spells self) spells'.
Proof.
  intros Hwc. unfold add_class_info.
  destruct (for_each_annotated data
              (fun '(class_label, class_section) spells =>
                 class_name <-- item 0 (Py.split " " class_label) ;;
                 for_each class_section
                   (fun '(level_label, spell_list) spells =>
                      for_each spell_list (append_class class_name) spells) spells)
              (fun entry n =>
                 flat_map (fun level => listed_in (first_token entry.1) n level.2)
                   entry.2)
              (spells self)) as (spells' & E & Ha); [|exact Hwc|].
  - intros [class_label class_section] s Hs. rewrite item_0_split. cbn [bind].
    apply (for_each_annotated class_section
             (fun '(level_label, spell_list) spells =>
                for_each spell_list (append_class (first_token class_label)) spells)
             (fun level n => listed_in (first_token class_label) n level.2));
      [|exact Hs].
    intros [level_label spell_list] s' Hs'.
    destruct (for_each_annotated spell_list
                (append_class (first_token class_label))
                (fun x n => listed_in (first_token class_label) n [x]) s')
      as (s'' & E & Ha); [|exact Hs'|].
    + intros x s0 Hs0. by apply append_class_annotated.
    + exists s''. split; [exact E|]. intros n. rewrite Ha.
      cbn [snd]. by rewrite listed_in_singletons.
  - exists spells'. rewrite E. split; [reflexivity|exact Ha].
Qed.

Lemma listed_tokens_elem (data : class_data) (n token : string) :
  token ∈ listed_tokens data n <->
  exists label section level names,
    (label, section) ∈ data /\ (level, names) ∈ section /\ n ∈ names /\
    token = first_token label.
Proof.
  unfold listed_tokens, listed_in. rewrite !list_elem_of_In, in_flat_map. split.
  - intros ([label section] & Hin & H). rewrite in_flat_map in H.
    destruct H as ([level names] & Hin' & H). rewrite in_flat_map in H.
    destruct H as (x & Hx & H). cbn [fst snd] in *.
    destruct (decide (x = n)) as [->|]; [|destruct H].
    destruct H as [<-|[]]. exists label, section, level, names.
    rewrite !list_elem_of_In. auto.
  - intros (label & section & level & names & H1 & H2 & H3 & ->).
    apply list_elem_of_In in H1. apply list_elem_of_In in H2.
    apply list_elem_of_In in H3.
    exists (label, section). split; [exact H1|]. rewrite in_flat_map.
    exists (level, names). split; [exact H2|]. rewrite in_flat_map.
    exists n. split; [exact H3|]. cbn [fst]. rewrite decide_True by reflexivity.
    by left.
Qed.

(** *** The records of a finished batch *)

Lemma populate_spell_rules_frame spell rule_str :
  let spell' := populate_spell_rules spell rule_str in
  Spell.classes spell' = Spell.classes spell /\
  Spell.material spell' = Spell.material spell /\
  Spell.material_text spell' = Spell.material_text spell /\
  Spell.material_cost spell' = Spell.material_cost spell /\
  Spell.material_costly spell' = Spell.material_costly spell.
Proof.
  unfold populate_spell_rules. destruct (Spell.rules spell); repeat split; reflexivity.
Qed.

(** What holds of every record made from a fresh spell holds of every
    record of the batch. *)
Lemma create_spell_dict_invariant (P : Spell.t -> Prop) :
  (forall spell_name meta spell rule_str,
     populate_spell_metadata (fresh_spell spell_name) meta = Ok spell ->
     P (populate_spell_rules spell rule_str)) ->
  forall data self,
    (forall n spell, spells self !! n = Some spell -> P spell) ->
    forall n spell,
      spells (final_state (create_spell_dict data self)) !! n = Some spell ->
      P spell.
Proof.
  intros HP. induction data as [|[spell_name info] data IH]; intros self Hself.
  - exact Hself.
  - destruct info as [items|].
    + destruct (read_content spell_name items ("", "") 0 (printed self))
        as [[content seg] log] eqn:E.
      rewrite (create_spell_dict_content _ _ _ _ _ _ _ E).
      destruct (seg =? 0); [by apply IH|].
      destruct (populate_spell_metadata _ _) as [spell|e] eqn:Ep; [|exact Hself].
      apply IH. cbn [spells]. intros n sp.
      destruct (decide (spell_name = n)) as [<-|Hne].
      * rewrite lookup_insert_eq. intros [= <-]. by apply HP with spell_name (Py.strip content.1).
      * rewrite lookup_insert_ne by exact Hne. apply Hself.
    + rewrite create_spell_dict_no_content. by apply IH.
Qed.

(** The parser keeps the (empty) class list of a fresh spell. *)
Lemma populate_keeps_classes spell meta spell' :
  populate_spell_metadata spell meta = Ok spell' ->
  Spell.classes spell' = Spell.classes spell.
Proof.
  intros (s1 & m1 & s2 & m2 & s3 & m3 & s4 & m4 & H1 & H2 & H3 & H4 & H5)
    %populate_spell_metadata_Ok.
  apply parse_level_school_ritual_frame in H1 as (_ & C1 & _).
  apply parse_casting_time_frame in H2 as (_ & C2 & _).
  apply parse_range_frame in H3 as (_ & C3 & _).
  apply parse_components_frame in H4 as (_ & C4 & _).
  apply parse_duration_frame in H5 as (_ & C5 & _).
  unfold keeps in *. congruence.
Qed.

Lemma batch_classes_empty data n spell :
  spells (final_state (create_spell_dict data init)) !! n = Some spell ->
  Spell.classes spell = Some [].
Proof.
  apply (create_spell_dict_invariant (fun s => Spell.classes s = Some [])).
  - intros spell_name meta sp rule_str H.
    destruct (populate_spell_rules_frame sp rule_str) as (-> & _).
    by rewrite (populate_keeps_classes _ _ _ H).
  - intros k sp. cbn. by rewrite lookup_empty.
Qed.

(** The optional attributes after the cost block. *)
Lemma cost_and_consumption_optional spell spell' :
  Spell.material_cost spell = None ->
  Spell.material_costly spell = Some false ->
  cost_and_consumption spell = Ok spell' ->
  optional_ok spell'.
Proof.
  unfold cost_and_consumption, optional_ok, bind. intros Hc Hy H.
  destruct (Spell.material spell) as [[]|] eqn:Em; cbn [default] in H.
  - destruct (Spell.material_text spell) as [text|] eqn:Et.
    + destruct (add_costs _ _) as [cost|]; [|discriminate].
      destruct (0 <? cost)%Z, (Py.contains _ text); injection H as <-; simpl;
        rewrite ?Hc, ?Hy, ?Et; split; try (split; intros; eauto; fail);
        try (intros _; eauto; fail);
        split; intros HH; try discriminate HH; by destruct HH.
    + injection H as <-. simpl. rewrite Hc, Hy. split; [eauto|].
      split; intros HH; try discriminate HH; by destruct HH.
  - injection H as <-. rewrite Em, Hc, Hy. split; [discriminate|].
    split; intros HH; try discriminate HH; by destruct HH.
  - injection H as <-. rewrite Em, Hc, Hy. split; [discriminate|].
    split; intros HH; try discriminate HH; by destruct HH.
Qed.

Lemma parse_components_optional spell meta m spell' m' :
  Spell.material_cost spell = None ->
  parse_components spell meta m = Ok (spell', m') ->
  optional_ok spell'.
Proof.
  unfold parse_components, bind. intros Hc H.
  destruct (search re_components meta (m_end m)) as [mc|];
    [|by apply abort_is_Raise in H].
  destruct (if Py.contains "(" _ then _ else _) as [[types sp]|] eqn:E;
    [|discriminate].
  destruct (cost_and_consumption _) as [sp'|] eqn:E'; [|discriminate].
  injection H as <- <-.
  apply cost_and_consumption_optional in E'; [exact E'| |reflexivity].
  simpl. unfold item in E.
  repeat (case_match; try discriminate); simplify_eq; exact Hc.
Qed.

Lemma populate_optional spell meta spell' :
  Spell.material_cost spell = None ->
  populate_spell_metadata spell meta = Ok spell' ->
  optional_ok spell'.
Proof.
  intros Hc (s1 & m1 & s2 & m2 & s3 & m3 & s4 & m4 & H1 & H2 & H3 & H4 & H5)
    %populate_spell_metadata_Ok.
  apply parse_level_school_ritual_frame in H1 as (_ & _ & _ & _ & _ & _ & C1 & _).
  apply parse_casting_time_frame in H2 as (_ & _ & _ & _ & _ & _ & _ & _ & C2 & _).
  apply parse_range_frame in H3 as (_ & _ & _ & _ & _ & _ & _ & _ & _ & C3 & _).
  unfold keeps in *.
  apply parse_components_optional in H4; [|congruence].
  apply parse_duration_frame in H5
    as (_ & _ & _ & _ & _ & _ & _ & M5 & T5 & C5 & Y5 & _).
  unfold keeps, optional_ok in *. by rewrite M5, T5, C5, Y5.
Qed.

Lemma batch_optional data n spell :
  spells (final_state (create_spell_dict data init)) !! n = Some spell ->
  optional_ok spell.
Proof.
  apply (create_spell_dict_invariant optional_ok).
  - intros spell_name meta sp rule_str H.
    apply populate_optional in H; [|reflexivity].
    destruct (populate_spell_rules_frame sp rule_str) as (_ & M & T & C & Y).
    unfold optional_ok in *. by rewrite M, T, C, Y.
  - intros k sp. cbn. by rewrite lookup_empty.
Qed.

Lemma batch_with_classes data :
  with_classes (spells (final_state (create_spell_dict data init))).
Proof. intros n spell H. rewrite (batch_classes_empty _ _ _ H). eauto. Qed.

(** *** The CSV form *)

Lemma getitem_to_csv_dict (s : Spell.t) :
  let csv_row := Spell.to_csv_dict s in
  Spell.getitem csv_row "level" = Ok (Py.str (default (-1)%Z (Spell.level s))) /\
  Spell.getitem csv_row "name" = Ok (default "Unknown" (Spell.name s)) /\
  Spell.getitem csv_row "school" = Ok (default "Unknown" (Spell.school s)) /\
  Spell.getitem csv_row "classes" = Ok (Py.join ", " (default [] (Spell.classes s))) /\
  Spell.getitem csv_row "range" = Ok (default "" (Spell.range s)) /\
  Spell.getitem csv_row "cast_time" = Ok (default "" (Spell.cast_time s)) /\
  Spell.getitem csv_row "duration" = Ok (default "" (Spell.duration s)) /\
  Spell.getitem csv_row "concentration" = Ok (Spell.yes_no (Spell.concentration s)) /\
  Spell.getitem csv_row "ritual" = Ok (Spell.yes_no (Spell.ritual s)) /\
  Spell.getitem csv_row "verbal" = Ok (Spell.yes_no (Spell.verbal s)) /\
  Spell.getitem csv_row "somatic" = Ok (Spell.yes_no (Spell.somatic s)) /\
  Spell.getitem csv_row "material" = Ok (Spell.yes_no (Spell.material s)) /\
  Spell.getitem csv_row "material_costly" = Ok (Spell.yes_no (Spell.material_costly s)) /\
  Spell.getitem csv_row "material_consumed" = Ok (Spell.yes_no (Spell.material_consumed s)) /\
  Spell.getitem csv_row "material_text" = Ok (default "" (Spell.material_text s)) /\
  Spell.getitem csv_row "material_cost" = Ok (default "" (Spell.material_cost s)) /\
  Spell.getitem csv_row "rules" = Ok (default "" (Spell.rules s)) /\
  Spell.getitem csv_row "source" = Ok (default "" (Spell.source s)).
Proof. repeat split; reflexivity. Qed.

Lemma is_yes_yes_no (o : option bool) :
  Spell.is_yes (Spell.yes_no o) = default false o.
Proof. by destruct o as [[]|]. Qed.

(** Reading back a written row never raises; it gives this record. *)
Lemma from_csv_dict_to_csv_dict (s : Spell.t) :
  Spell.from_csv_dict Spell.new (Spell.to_csv_dict s) =
  Ok (let m := default false (Spell.material s) in
      Spell.mk
        (Some (default "Unknown" (Spell.name s)))
        (Some (default (-1)%Z (Spell.level s)))
        (Some (default "" (Spell.rules s)))
        (Some (default "Unknown" (Spell.school s)))
        (Some (Py.split ", " (Py.join ", " (default [] (Spell.classes s)))))
        (Some (default "" (Spell.cast_time s)))
        (Some (default "" (Spell.range s)))
        (Some (default "" (Spell.duration s)))
        (Some (default false (Spell.concentration s)))
        (Some (default false (Spell.ritual s)))
        (Some (default false (Spell.verbal s)))
        (Some (default false (Spell.somatic s)))
        (Some m)
        (Some (default false (Spell.material_costly s)))
        (Some (default false (Spell.material_consumed s)))
        (if m then Some (default "" (Spell.material_text s)) else None)
        (if m && (0 <? String.length (default "" (Spell.material_cost s)))
         then Some (default "" (Spell.material_cost s)) else None)
        (Some (default "" (Spell.source s)))).
Proof.
  destruct (getitem_to_csv_dict s)
    as (G1 & G2 & G3 & G4 & G5 & G6 & G7 & G8 & G9 & G10 & G11 & G12 & G13 &
        G14 & G15 & G16 & G17 & G18).
  unfold Spell.from_csv_dict.
  rewrite G1, G2, G3, G4, G5, G6, G7, G8, G9, G10, G11, G12, G13, G14, G17, G18.
  cbn [bind]. unfold to_int. rewrite int_str. cbn [bind].
  rewrite !is_yes_yes_no.
  destruct (default false (Spell.material s)) eqn:Em.
  - cbn [Spell.material Spell.set_material Spell.set_material_costly
         Spell.set_material_consumed default].
    rewrite G15, G16. cbn [bind].
    destruct (0 <? String.length (default "" (Spell.material_cost s))); reflexivity.
  - reflexivity.
Qed.

(* ================================================================== *)
(** ** Further properties of the extractor *)
(* ================================================================== *)

(** *** What holds of every record of a finished run *)

(** A property of the records made from a fresh spell, kept when the class
    list is extended, holds of every record that [parse_spells] leaves. *)
Lemma create_spell_dict_keyed (P : string -> Spell.t -> Prop) :
  (forall spell_name meta spell rule_str,
     populate_spell_metadata (fresh_spell spell_name) meta = Ok spell ->
     P spell_name (populate_spell_rules spell rule_str)) ->
  forall data self,
    (forall n spell, spells self !! n = Some spell -> P n spell) ->
    forall n spell,
      spells (final_state (create_spell_dict data self)) !! n = Some spell ->
      P n spell.
Proof.
  intros HP. induction data as [|[spell_name info] data IH]; intros self Hself.
  - exact Hself.
  - destruct info as [items|].
    + destruct (read_content spell_name items ("", "") 0 (printed self))
        as [[content seg] log] eqn:E.
      rewrite (create_spell_dict_content _ _ _ _ _ _ _ E).
      destruct (seg =? 0); [by apply IH|].
      destruct (populate_spell_metadata _ _) as [spell|e] eqn:Ep; [|exact Hself].
      apply IH. cbn [spells]. intros n sp.
      destruct (decide (spell_name = n)) as [<-|Hne].
      * rewrite lookup_insert_eq. intros [= <-].
        by apply HP with (Py.strip content.1).
      * rewrite lookup_insert_ne by exact Hne. apply Hself.
    + rewrite create_spell_dict_no_content. by apply IH.
Qed.

Lemma parse_spells_Finished data lists self st :
  parse_spells data lists self = Finished st ->
  exists st0,
    create_spell_dict data self = Finished st0 /\
    add_class_info lists st0 = Ok st.
Proof.
  unfold parse_spells. intros H.
  destruct (create_spell_dict data self) as [st0|]; [|discriminate].
  destruct (add_class_info lists st0) as [st1|] eqn:E; [|discriminate].
  injection H as <-. eauto.
Qed.

Lemma parse_spells_keyed (P : string -> Spell.t -> Prop) :
  (forall spell_name meta spell rule_str,
     populate_spell_metadata (fresh_spell spell_name) meta = Ok spell ->
     P spell_name (populate_spell_rules spell rule_str)) ->
  (forall n tokens spell, P n spell -> P n (extend tokens spell)) ->
  forall data lists st n spell,
    parse_spells data lists init = Finished st ->
    spells st !! n = Some spell ->
    P n spell.
Proof.
  intros HP Hext data lists st n spell (st0 & H0 & H1)%parse_spells_Finished Hn.
  pose proof (batch_with_classes data) as Hwc. rewrite H0 in Hwc. cbn in Hwc.
  destruct (add_class_info_annotated lists st0 Hwc) as (spells' & E & Hann).
  rewrite H1 in E. injection E as ->. cbn [spells] in Hn.
  rewrite Hann in Hn.
  destruct (spells st0 !! n) as [sp|] eqn:E0; [|discriminate].
  injection Hn as <-. apply Hext.
  apply (create_spell_dict_keyed P HP data init); [|by rewrite H0].
  intros k s. cbn. by rewrite lookup_empty.
Qed.

(** *** The attributes that each part of the parser sets *)

Ltac frame_some :=
  repeat (case_match; try discriminate);
  simplify_eq; cbn;
  repeat split; eauto.

Lemma parse_level_school_ritual_sets spell meta s' m' :
  parse_level_school_ritual spell meta = Ok (s', m') ->
  is_Some (Spell.level s') /\ is_Some (Spell.school s') /\
  is_Some (Spell.ritual s').
Proof.
  unfold parse_level_school_ritual, bind, to_int. intros H.
  destruct (search re_cantrip_school_ritual meta 0).
  - simplify_eq. cbn. eauto.
  - destruct (search re_lvl_school_ritual meta 0).
    + destruct (Py.int _); simplify_eq. cbn. eauto.
    + by apply abort_is_Raise in H.
Qed.

Lemma parse_casting_time_sets spell meta m s' m' :
  parse_casting_time spell meta m = Ok (s', m') ->
  is_Some (Spell.cast_time s') /\
  Spell.cast_time s' <> Some "1 Bonus Action" /\
  Spell.cast_time s' <> Some "1 Reaction".
Proof.
  unfold parse_casting_time, bind, item. intros H.
  destruct (search re_casting_time meta (m_end m));
    [|by apply abort_is_Raise in H].
  repeat (case_match; try discriminate); simplify_eq; cbn in *;
    repeat split; eauto; try discriminate; congruence.
Qed.

Lemma parse_range_sets spell meta m s' m' :
  parse_range spell meta m = Ok (s', m') ->
  is_Some (Spell.range s') /\ keeps Spell.cast_time spell s'.
Proof.
  unfold parse_range, keeps. intros H.
  destruct (search re_range meta (m_end m));
    [|by apply abort_is_Raise in H].
  simplify_eq. cbn. eauto.
Qed.

Lemma cost_and_consumption_keeps spell s' :
  cost_and_consumption spell = Ok s' ->
  keeps Spell.cast_time spell s' /\ keeps Spell.range spell s' /\
  keeps Spell.verbal spell s' /\ keeps Spell.somatic spell s' /\
  (is_Some (Spell.material_costly spell) -> is_Some (Spell.material_costly s')) /\
  (is_Some (Spell.material_consumed spell) ->
   is_Some (Spell.material_consumed s')).
Proof.
  unfold cost_and_consumption, keeps, bind. intros H.
  repeat (case_match; try discriminate); simplify_eq; cbn;
    repeat split; eauto.
Qed.

Lemma parse_components_sets spell meta m s' m' :
  parse_components spell meta m = Ok (s', m') ->
  (is_Some (Spell.verbal s') /\ is_Some (Spell.somatic s') /\
   is_Some (Spell.material s') /\ is_Some (Spell.material_costly s') /\
   is_Some (Spell.material_consumed s')) /\
  keeps Spell.cast_time spell s' /\ keeps Spell.range spell s'.
Proof.
  unfold parse_components, bind. intros H.
  destruct (search re_components meta (m_end m));
    [|by apply abort_is_Raise in H].
  destruct (if Py.contains "(" _ then _ else _) as [[types sp]|] eqn:E;
    [|discriminate].
  destruct (cost_and_consumption _) as [sp'|] eqn:E'; [|discriminate].
  injection H as <- <-.
  pose proof (cost_and_consumption_frame _ _ E') as (_ & _ & _ & _ & _ & _ & _ & M).
  apply cost_and_consumption_keeps in E' as (C & R & V & S & Y & U).
  unfold keeps in *. cbn in *.
  assert (Spell.cast_time sp = Spell.cast_time spell /\
          Spell.range sp = Spell.range spell) as [Hc Hr].
  { unfold item in E. frame. }
  rewrite C, R, V, S, M, Hc, Hr. repeat split; eauto.
Qed.

Lemma parse_duration_sets spell meta m s' :
  parse_duration spell meta m = Ok s' ->
  (is_Some (Spell.concentration s') /\ is_Some (Spell.duration s')) /\
  keeps Spell.cast_time spell s' /\ keeps Spell.range spell s' /\
  keeps Spell.verbal spell s' /\ keeps Spell.somatic spell s'.
Proof.
  unfold parse_duration, keeps. intros H.
  destruct (search re_duration meta (m_end m));
    [|by apply abort_is_Raise in H].
  cbv zeta in H.
  repeat (case_match; try discriminate); simplify_eq; cbn;
    repeat split; eauto.
Qed.

Lemma populate_spell_rules_keeps spell rule_str :
  let spell' := populate_spell_rules spell rule_str in
  is_Some (Spell.rules spell') /\
  Spell.name spell' = Spell.name spell /\
  Spell.source spell' = Spell.source spell /\
  Spell.level spell' = Spell.level spell /\
  Spell.school spell' = Spell.school spell /\
  Spell.ritual spell' = Spell.ritual spell /\
  Spell.cast_time spell' = Spell.cast_time spell /\
  Spell.range spell' = Spell.range spell /\
  Spell.verbal spell' = Spell.verbal spell /\
  Spell.somatic spell' = Spell.somatic spell /\
  Spell.material_consumed spell' = Spell.material_consumed spell /\
  Spell.concentration spell' = Spell.concentration spell /\
  Spell.duration spell' = Spell.duration spell.
Proof.
  unfold populate_spell_rules. destruct (Spell.rules spell); cbn;
    repeat split; eauto.
Qed.

(** The casting time that the second part stores is the one of the record. *)
Lemma populate_keeps_cast_time spell meta spell' s1 m1 s2 m2 :
  populate_spell_metadata spell meta = Ok spell' ->
  parse_level_school_ritual spell meta = Ok (s1, m1) ->
  parse_casting_time s1 meta m1 = Ok (s2, m2) ->
  Spell.cast_time spell' = Spell.cast_time s2.
Proof.
  intros (s1' & m1' & s2' & m2' & s3 & m3 & s4 & m4 & H1 & H2 & H3 & H4 & H5)
    %populate_spell_metadata_Ok E1 E2.
  rewrite E1 in H1. injection H1 as <- <-.
  rewrite E2 in H2. injection H2 as <- <-.
  apply parse_range_sets in H3 as (_ & C3).
  apply parse_components_sets in H4 as (_ & C4 & _).
  apply parse_duration_sets in H5 as (_ & C5 & _).
  unfold keeps in *. congruence.
Qed.

(** A record that the parser makes of a fresh spell has every attribute but
    the optional ones and the rules. *)
Lemma populate_complete spell_name meta spell rule_str :
  populate_spell_metadata (fresh_spell spell_name) meta = Ok spell ->
  Spell.name (populate_spell_rules spell rule_str) = Some spell_name /\
  Spell.source (populate_spell_rules spell rule_str) =
    Some "System Reference Document" /\
  complete (populate_spell_rules spell rule_str).
Proof.
  intros H.
  pose proof (populate_keeps_classes _ _ _ H) as Hcl.
  destruct (populate_spell_metadata_Ok _ _ _ H)
    as (s1 & m1 & s2 & m2 & s3 & m3 & s4 & m4 & H1 & H2 & H3 & H4 & H5).
  pose proof (populate_keeps_level_school_ritual _ _ _ _ _ H H1) as (L & Sc & Ri).
  pose proof (populate_keeps_cast_time _ _ _ _ _ _ _ H H1 H2) as Ct.
  pose proof (parse_level_school_ritual_frame _ _ _ _ H1) as (N1 & _ & _ & So1 & _).
  pose proof (parse_casting_time_frame _ _ _ _ _ H2) as (N2 & _ & So2 & _).
  pose proof (parse_range_frame _ _ _ _ _ H3) as (N3 & _ & _ & So3 & _).
  pose proof (parse_components_frame _ _ _ _ _ H4) as (N4 & _ & _ & So4 & _).
  pose proof (parse_duration_frame _ _ _ _ H5)
    as (N5 & _ & _ & So5 & _ & _ & _ & M5 & _ & _ & Y5 & U5).
  apply parse_level_school_ritual_sets in H1 as (L1 & Sc1 & Ri1).
  apply parse_casting_time_sets in H2 as (Ct2 & _).
  apply parse_range_sets in H3 as (R3 & _).
  apply parse_components_sets in H4 as ((V4 & S4 & M4 & Y4 & U4) & _ & R4).
  apply parse_duration_sets in H5 as ((C5 & D5) & _ & R5 & V5 & S5).
  destruct (populate_spell_rules_frame spell rule_str) as (Kcl & Km & _ & _ & Ky).
  destruct (populate_spell_rules_keeps spell rule_str)
    as (Kr & Kn & Kso & Kl & Ksc & Kri & Kct & Kra & Kv & Ks & Ku & Kc & Kd).
  unfold keeps, complete in *.
  rewrite Kn, Kso, Kl, Ksc, Kri, Kct, Kra, Kv, Ks, Ku, Kc, Kd, Kcl, Km, Ky.
  rewrite L, Sc, Ri, Ct, Hcl, N5, N4, N3, N2, N1, So5, So4, So3, So2, So1,
    R5, R4, V5, S5, M5, Y5, U5.
  repeat split; eauto.
Qed.

(** *** The level *)




(** *** When the metadata parser raises *)










(** *** Where a match lies in the text *)

Lemma drop_append (u t : string) : Py.drop (String.length u) (u +:+ t) = t.
Proof. induction u as [|c u IH]; [by destruct t|exact IH]. Qed.

Lemma drop_append_le (n : nat) (u t : string) :
  n <= String.length u -> Py.drop n (u +:+ t) = Py.drop n u +:+ t.
Proof.
  revert u. induction n as [|n IH]; intros u H.
  - by destruct u, t.
  - destruct u as [|c u]; cbn in H; [lia|]. rewrite append_cons. cbn.
    apply IH. lia.
Qed.

Lemma take_append_le (n : nat) (u t : string) :
  n = String.length u -> Py.take n (u +:+ t) = u.
Proof. intros ->. apply take_append. Qed.

Lemma length_drop (n : nat) (s : string) :
  String.length (Py.drop n s) = String.length s - n.
Proof.
  revert s. induction n as [|n IH]; intros s; [by destruct s; cbn; lia|].
  destruct s as [|c s]; [reflexivity|]. cbn. apply IH.
Qed.

Lemma seek_pos n pv s p pv' t p' :
  seek n pv s p = (pv', t, p') ->
  exists u, s = u +:+ t /\ p' = p + String.length u /\
            String.length u = Nat.min n (String.length s).
Proof.
  revert pv s p. induction n as [|n IH]; intros pv s p H.
  - cbn in H. injection H as <- <- <-. exists "". cbn. split; [done|lia].
  - destruct s as [|a s]; cbn [seek] in H.
    + injection H as <- <- <-. exists "". cbn. split; [done|lia].
    + apply IH in H as (u & -> & -> & Hu). exists (String a u).
      rewrite append_cons. cbn. split; [done|]. split; lia.
Qed.

Lemma scan_pos r pv s p m :
  scan r pv s p = Some m ->
  exists u t pv' st',
    s = u +:+ t /\ m_start m = p + String.length u /\
    matches r (MState pv' t (m_start m) []) st' /\
    pos st' = m_end m /\ caps st' = m_groups m.
Proof.
  revert pv p. induction s as [|a t IH]; intros pv p H; cbn [scan] in H.
  - destruct (exec r _ Some) as [st'|] eqn:E; [|discriminate].
    injection H as <-. apply exec_sound in E as (st1 & Hm & [= ->]).
    exists "", "", pv, st'. cbn. repeat split; [lia|exact Hm].
  - destruct (exec r _ Some) as [st'|] eqn:E.
    + injection H as <-. apply exec_sound in E as (st1 & Hm & [= ->]).
      exists "", (String a t), pv, st'. cbn. repeat split; [lia|exact Hm].
    + apply IH in H as (u & t' & pv' & st' & -> & Hs & H).
      exists (String a u), t', pv', st'. rewrite append_cons. cbn.
      split; [done|]. split; [lia|exact H].
Qed.

(** A match that [search] reports from [start] on: the text is [u], then
    the matched text [w], then the rest; [u] ends at the start of the match,
    which is not before [start]. *)
Lemma search_pos r s start m :
  search r s start = Some m ->
  exists u w t pv' st',
    s = u +:+ w +:+ t /\
    String.length u = m_start m /\
    m_end m = m_start m + String.length w /\
    Nat.min start (String.length s) <= m_start m /\
    matches r (MState pv' (w +:+ t) (m_start m) []) st' /\
    rest st' = t /\ caps st' = m_groups m.
Proof.
  unfold search. destruct (seek start None s 0) as [[pv t0] p] eqn:Es.
  apply seek_pos in Es as (u0 & -> & -> & Hu0).
  intros (u & t & pv' & st' & -> & Hs & Hm & He & Hc)%scan_pos.
  destruct (matches_consumed _ _ _ Hm) as (w & Hw & Hp). cbn in Hw, Hp.
  exists (u0 +:+ u), w, (rest st'), pv', st'.
  rewrite !length_append in Hu0. rewrite length_append.
  split; [by rewrite append_assoc, Hw|].
  split; [lia|]. split; [lia|].
  split; [rewrite !length_append; lia|].
  split; [by rewrite <- Hw|]. split; [reflexivity|exact Hc].
Qed.

Lemma matches_Back_inv n st st' :
  matches (Back n) st st' ->
  exists s, get_cap n (caps st) = Some s /\ eat s st = Some st'.
Proof. inversion 1; subst; eauto. Qed.

(** *** The matches of the formatting pattern *)

(** A match is a run of asterisks, a text, and the same run again; the text
    is its second group. *)
Lemma rules_formatted_match st st' :
  matches re_rules_formatted st st' ->
  exists g1 g2,
    rest st = g1 +:+ g2 +:+ g1 +:+ rest st' /\
    g1 <> "" /\ all_chars is_star g1 = true /\
    get_cap 2 (caps st') = Some g2.
Proof.
  unfold re_rules_formatted.
  intros (st1 & H1 & H)%matches_Seq_inv.
  apply matches_Seq_inv in H as (st2 & H2 & H3).
  assert (pos st < pos st1) as Hlt.
  { apply matches_Grp_inv in H1 as (st1' & w & H1 & -> & _ & _).
    apply matches_Rep_S_inv in H1 as (st3 & Hc & H1).
    apply matches_Chr_inv in Hc as (a & t & _ & _ & ->).
    apply matches_consumed in H1 as (w' & _ & Hp). cbn in Hp |- *. lia. }
  apply (matches_Grp_text is_star) in H1 as (g1 & Hc1 & Hall & Hr1 & Hp1).
  2:{ intros a Ha. cbn [in_cset] in Ha. unfold is_star.
      by rewrite Ascii.eqb_sym. }
  assert (g1 <> "") as Hne by (intros ->; cbn in Hp1; lia).
  apply matches_Grp_inv in H2 as (st2' & g2 & Hm2 & -> & Hr2 & _).
  apply matches_Back_inv in H3 as (s & Hs & He).
  cbn in Hs. 
  assert (get_cap 1 (caps st2') = get_cap 1 (caps st1)) as Hf
    by (by apply (matches_group_free 1 _ _ _ Hm2)).
  rewrite Hf, Hc1 in Hs. injection Hs as <-.
  apply eat_consumed in He as (Hr3 & _ & Hc3). cbn in Hr3, Hc3.
  exists g1, g2. rewrite Hr1, Hr2, Hr3. repeat split; [exact Hne|exact Hall|].
  rewrite Hc3. cbn. reflexivity.
Qed.

(** *** What the formatting pass removes *)

Lemma without_stars_append a b :
  without_stars (a +:+ b) = without_stars a +:+ without_stars b.
Proof.
  induction a as [|c a IH]; [reflexivity|]. rewrite append_cons. cbn.
  destruct (Ascii.eqb c "*"); [exact IH|]. by rewrite append_cons, IH.
Qed.

Lemma without_stars_stars g :
  all_chars is_star g = true -> without_stars g = "".
Proof.
  induction g as [|c g IH]; [reflexivity|]. cbn. unfold is_star at 1.
  destruct (Ascii.eqb c "*"); [exact IH|discriminate].
Qed.

Lemma append_inv_tail (w w' t : string) : w +:+ t = w' +:+ t -> w = w'.
Proof.
  intros H. apply (append_inj_length w w' t t H).
  apply (f_equal String.length) in H. rewrite !length_append in H. lia.
Qed.

(** From [start] on, the pass keeps every character that is no asterisk,
    in its place among the others, and it makes the text no longer. *)
Lemma sub_from_keeps_text fuel s start :
  without_stars (sub_from fuel re_rules_formatted template_2 s start) =
    without_stars (Py.drop start s) /\
  String.length (sub_from fuel re_rules_formatted template_2 s start) <=
    String.length (Py.drop start s).
Proof.
  revert start. induction fuel as [|fuel IH]; intros start; [done|].
  cbn [sub_from].
  destruct (search re_rules_formatted s start) as [m|] eqn:E; [|done].
  apply search_pos in E
    as (u & w & t & pv' & st' & -> & Hu & He & Hmin & Hm & Hr & Hc).
  apply rules_formatted_match in Hm as (g1 & g2 & Hw & Hne & Hall & Hg).
  cbn [rest] in Hw. rewrite Hr in Hw.
  rewrite <- !append_assoc in Hw. apply append_inv_tail in Hw.
  rewrite !append_assoc in Hw. subst w.
  assert (0 < String.length g1) as Hg1 by (destruct g1; [done|cbn; lia]).
  rewrite !length_append in *.
  assert (start <= String.length u) as Hle by lia.
  assert (template_2 m = g2) as ->.
  { unfold template_2, group_str, group. by rewrite <- Hc, Hg. }
  replace (Nat.max (m_end m) (S start)) with (m_end m) by lia.
  destruct (IH (m_end m)) as [IH1 IH2].
  assert (Py.drop (m_end m) (u +:+ (g1 +:+ g2 +:+ g1) +:+ t) = t) as Hd.
  { replace (m_end m) with (String.length (u +:+ (g1 +:+ g2 +:+ g1)))
      by (rewrite !length_append; lia).
    rewrite <- (append_assoc u (g1 +:+ g2 +:+ g1) t). apply drop_append. }
  rewrite Hd in IH1, IH2.
  assert (Py.slice start (m_start m) (u +:+ (g1 +:+ g2 +:+ g1) +:+ t) =
          Py.drop start u) as ->.
  { unfold Py.slice. rewrite drop_append_le by exact Hle.
    apply take_append_le. rewrite length_drop. lia. }
  rewrite drop_append_le by exact Hle.
  rewrite !without_stars_append, !length_append, IH1.
  rewrite (without_stars_stars g1 Hall), !append_nil_l, !append_nil_r.
  split; [reflexivity|lia].
Qed.

(** *** Records and the duration marker *)

(** The segment changes only at an item that has the marker. *)
Lemma read_content_segment spell_name items content seg log content' seg' log' :
  read_content spell_name items content seg log = (content', seg', log') ->
  seg' = seg \/ exists x, x ∈ items /\ has_marker x = true.
Proof.
  revert content seg. induction items as [|x items IH]; intros content seg H.
  - cbn in H. injection H as _ <- _. by left.
  - destruct x as [txt|l|]; cbn [read_content] in H.
    + unfold add_text in H.
      destruct (Py.contains duration_marker txt) eqn:Em.
      * right. exists (NStr txt). split; [by left|exact Em].
      * apply IH in H as [->|(x & Hx & Hm)]; [by left|].
        right. exists x. split; [by right|exact Hm].
    + destruct (strings_of l) as [frags|] eqn:Es.
      * unfold add_list, add_text in H.
        destruct (Py.contains duration_marker _) eqn:Em.
        -- right. exists (NList l). split; [by left|].
           unfold has_marker. cbn [text_of]. rewrite Es. exact Em.
        -- apply IH in H as [->|(x & Hx & Hm)]; [by left|].
           right. exists x. split; [by right|exact Hm].
      * injection H as _ <- _. by left.
    + injection H as _ <- _. by left.
Qed.

Lemma create_spell_dict_keys data self n spell :
  spells (final_state (create_spell_dict data self)) !! n = Some spell ->
  is_Some (spells self !! n) \/
  exists items,
    (n, Some items) ∈ data /\ exists x, x ∈ items /\ has_marker x = true.
Proof.
  revert self. induction data as [|[spell_name info] data IH]; intros self H.
  - left. eauto.
  - assert (forall self',
      spells self' = spells self ->
      spells (final_state (create_spell_dict data self')) !! n = Some spell ->
      is_Some (spells self !! n) \/
      exists items,
        (n, Some items) ∈ (spell_name, info) :: data /\
        exists x, x ∈ items /\ has_marker x = true) as Hskip.
    { intros self' Hs H'. apply IH in H' as [H'|(items & Hi & Hx)].
      - left. by rewrite <- Hs.
      - right. exists items. split; [by right|exact Hx]. }
    destruct info as [items|].
    + destruct (read_content spell_name items ("", "") 0 (printed self))
        as [[content seg] log] eqn:E.
      rewrite (create_spell_dict_content _ _ _ _ _ _ _ E) in H.
      destruct (seg =? 0) eqn:Eseg; [by apply Hskip in H|].
      apply read_content_segment in E as [->|Hx]; [discriminate|].
      destruct (populate_spell_metadata _ _) as [sp|e].
      * apply IH in H as [H|(items' & Hi & Hx')].
        -- cbn [spells] in H. destruct (decide (spell_name = n)) as [->|Hne].
           ++ right. exists items. split; [by left|exact Hx].
           ++ left. by rewrite lookup_insert_ne in H.
        -- right. exists items'. split; [by right|exact Hx'].
      * left. cbn in H. eauto.
    + rewrite create_spell_dict_no_content in H. by apply Hskip in H.
Qed.

(** *** More on [split] and [join] *)

Lemma startswith_append sep s :
  Py.startswith sep s = true -> s = sep +:+ Py.drop (String.length sep) s.
Proof.
  revert s. induction sep as [|a sep IH]; intros s H; [by destruct s|].
  destruct s as [|b s]; [discriminate|]. cbn in H.
  apply andb_true_iff in H as [Hab H]. apply Ascii.eqb_eq in Hab as ->.
  rewrite append_cons. cbn. f_equal. by apply IH.
Qed.

Lemma startswith_length sep s :
  Py.startswith sep s = true -> String.length sep <= String.length s.
Proof.
  intros H. rewrite (startswith_append _ _ H), length_append. lia.
Qed.

Lemma join_cons sep x l :
  l <> [] -> Py.join sep (x :: l) = x +:+ sep +:+ Py.join sep l.
Proof. by destruct l. Qed.

(** Joining the pieces of a text gives the text back. *)
Lemma join_split_from sep k cur s :
  sep <> "" -> k <= String.length s ->
  Py.join sep (Py.split_from sep k cur s) = cur +:+ Py.drop k s.
Proof.
  intros Hsep. revert k cur. induction s as [|a s IH]; intros k cur Hk.
  - cbn. destruct k; by rewrite append_nil_r.
  - cbn [Py.split_from]. destruct k as [|k].
    + destruct (Py.startswith sep (String a s)) eqn:E.
      * rewrite join_cons by apply split_from_not_nil.
        pose proof (startswith_length _ _ E) as Hl.
        destruct sep as [|b sep]; [by destruct Hsep|]. cbn in Hl.
        rewrite IH by (cbn; lia). rewrite append_nil_l. cbn [Py.drop].
        f_equal. symmetry.
        etransitivity; [apply (startswith_append _ _ E)|].
        f_equal. cbn. by rewrite Nat.sub_0_r.
      * rewrite IH by lia. cbn [Py.drop].
        rewrite append_assoc, append_cons, append_nil_l. by destruct s.
    + cbn in Hk. rewrite IH by lia. reflexivity.
Qed.

Lemma join_split sep s : sep <> "" -> Py.join sep (Py.split sep s) = s.
Proof.
  intros H. unfold Py.split. rewrite join_split_from by (done || lia).
  by destruct s.
Qed.

(** The pieces of a text split at a character do not have the character. *)
Lemma contains_char_cons c a s :
  Py.contains (String c "") (String a s) =
  Ascii.eqb c a || Py.contains (String c "") s.
Proof. cbn. by rewrite andb_true_r. Qed.


Lemma contains_char_nil c : Py.contains (String c "") "" = false.
Proof. reflexivity. Qed.


(** The first piece is the text up to the first occurrence of the
    character, or the whole text. *)
Lemma split_char_head c cur s x l :
  Py.split_from (String c "") 0 cur s = x :: l ->
  exists t, x = cur +:+ t /\ Py.contains (String c "") t = false /\
    (s = t \/ exists r, s = t +:+ String c r).
Proof.
  revert cur. induction s as [|a s IH]; intros cur H.
  - cbn in H. injection H as <- <-. exists "".
    rewrite append_nil_r. repeat split. by left.
  - cbn [Py.split_from Py.startswith] in H. rewrite andb_true_r in H.
    destruct (Ascii.eqb c a) eqn:E.
    + injection H as <- <-. exists "". rewrite append_nil_r.
      repeat split. right. exists s. apply Ascii.eqb_eq in E as ->.
      by rewrite append_nil_l.
    + apply IH in H as (t & -> & Ht & Hs). exists (String a t).
      rewrite append_assoc, append_cons, append_nil_l.
      split; [reflexivity|]. split; [by rewrite contains_char_cons, E, Ht|].
      destruct Hs as [->|[r ->]]; [by left|].
      right. exists r. by rewrite append_cons.
Qed.

(** *** The casting time and the rules *)

Lemma contains_first_char c p s :
  Py.contains (String c p) s = true -> Py.contains (String c "") s = true.
Proof.
  induction s as [|a s IH]; [discriminate|].
  rewrite contains_char_cons. cbn [Py.contains Py.startswith].
  intros [H|H]%orb_true_iff.
  - apply andb_true_iff in H as [-> _]. reflexivity.
  - rewrite (IH H). apply orb_true_r.
Qed.

Lemma parse_casting_time_value spell meta m s' m' :
  parse_casting_time spell meta m = Ok (s', m') ->
  search re_casting_time meta (m_end m) = Some m' /\
  if Py.contains ", which you take when " (group_str 1 m') then
    (exists t, item 0 (Py.split "," (group_str 1 m')) = Ok t /\
       Spell.cast_time s' = Some (short_cast_time (Py.title t))) /\
    Spell.rules s' = Some (group_str 1 m' +:+ Py.nlnl)
  else
    Spell.cast_time s' = Some (short_cast_time (Py.strip (Py.title (group_str 1 m')))) /\
    Spell.rules s' = Spell.rules spell.
Proof.
  unfold parse_casting_time, bind, short_cast_time. intros H.
  destruct (search re_casting_time meta (m_end m)) as [mc|];
    [|by apply abort_is_Raise in H].
  destruct (Py.contains _ (group_str 1 mc)) eqn:Ec.
  - destruct (item 0 (Py.split "," (group_str 1 mc))) as [t|] eqn:Et;
      [|discriminate].
    cbn in H. injection H as <- <-. rewrite Ec. split; [reflexivity|].
    split; [exists t; split; [exact Et|]|].
    + repeat case_match; simplify_eq; try congruence; reflexivity.
    + repeat case_match; reflexivity.
  - cbn in H. injection H as <- <-. rewrite Ec. split; [reflexivity|].
    repeat case_match; simplify_eq; try congruence; split; reflexivity.
Qed.

Lemma populate_keeps_rules spell meta spell' s1 m1 s2 m2 :
  populate_spell_metadata spell meta = Ok spell' ->
  parse_level_school_ritual spell meta = Ok (s1, m1) ->
  parse_casting_time s1 meta m1 = Ok (s2, m2) ->
  Spell.rules s1 = Spell.rules spell /\ Spell.rules spell' = Spell.rules s2.
Proof.
  intros (s1' & m1' & s2' & m2' & s3 & m3 & s4 & m4 & H1 & H2 & H3 & H4 & H5)
    %populate_spell_metadata_Ok E1 E2.
  rewrite E1 in H1. injection H1 as <- <-.
  rewrite E2 in H2. injection H2 as <- <-.
  apply parse_level_school_ritual_frame in E1 as (_ & _ & R1 & _).
  apply parse_range_frame in H3 as (_ & _ & R3 & _).
  apply parse_components_frame in H4 as (_ & _ & R4 & _).
  apply parse_duration_frame in H5 as (_ & _ & R5 & _).
  unfold keeps in *. split; congruence.
Qed.

(** *** The text of the material component *)




(* ================================================================== *)
(** ** Further properties of the CSV form *)
(* ================================================================== *)

Lemma getitem_Ok row k v :
  Spell.getitem row k = Ok v -> has_key row k = true /\ get_cell row k = v.
Proof.
  unfold get_cell. intros H. rewrite H. split; [|reflexivity].
  induction row as [|[k' v'] row IH]; [discriminate|].
  cbn in H |- *. destruct (String.eqb k' k); [reflexivity|]. by apply IH.
Qed.

Lemma getitem_Raise row k e :
  Spell.getitem row k = Raise e -> has_key row k = false /\ e = KeyError k.
Proof.
  induction row as [|[k' v'] row IH]; cbn; intros H.
  - by injection H as <-.
  - destruct (String.eqb k' k); [discriminate|]. by apply IH.
Qed.

Lemma has_key_getitem row k :
  has_key row k = true -> Spell.getitem row k = Ok (get_cell row k).
Proof.
  intros H. destruct (Spell.getitem row k) as [v|e] eqn:E.
  - by apply getitem_Ok in E as [_ ->].
  - apply getitem_Raise in E as [E _]. congruence.
Qed.

Lemma is_yes_eq v : Spell.is_yes v = true <-> v = "yes".
Proof. unfold Spell.is_yes. apply String.eqb_eq. Qed.

Ltac in_list :=
  repeat first [apply list_elem_of_here | apply list_elem_of_further].

Ltac not_readable k :=
  let H := fresh in
  intros (H & _); unfold always_read in H; rewrite Forall_forall in H;
  specialize (H k ltac:(in_list)); congruence.

(** One column read by [from_csv_dict]: either it is there, or the result is
    the [KeyError] for it. *)
Ltac col row k :=
  let v := fresh "v" in let e := fresh "e" in let E := fresh "E" in
  let K := fresh "K" in let C := fresh "C" in
  destruct (Spell.getitem row k) as [v|e] eqn:E; cbn [bind];
  [apply getitem_Ok in E as [K C]
  |apply getitem_Raise in E as [E ->];
   split; [not_readable k
          |right; exists k; split; [unfold Spell.csv_headers; in_list|done]]].

(** [from_csv_dict] reads the rows that are readable, and raises for the
    others. *)
Lemma from_csv_dict_cases (self : Spell.t) (row : Spell.row) :
  match Spell.from_csv_dict self row with
  | Ok _ => readable row
  | Raise e =>
      ~ readable row /\
      (e = ValueError \/
       exists k, k ∈ Spell.csv_headers /\ has_key row k = false /\ e = KeyError k)
  end.
Proof.
  unfold Spell.from_csv_dict.
  col row "level".
  unfold to_int. destruct (Py.int v) as [n|] eqn:En; cbn [bind].
  2:{ split; [|by left]. intros (_ & [x Hx] & _). congruence. }
  col row "name". col row "school". col row "classes". col row "range".
  col row "cast_time". col row "duration". col row "concentration".
  col row "ritual". col row "verbal". col row "somatic". col row "material".
  col row "material_costly". col row "material_consumed".
  cbn [Spell.material Spell.set_material_consumed Spell.set_material_costly
       Spell.set_material default from_option id].
  assert (match
            v13 <-- Spell.getitem row "rules";;
            v14 <-- Spell.getitem row "source";;
            (Ok tt : result unit)
          with
          | Ok _ =>
              Forall (fun k => has_key row k = true) always_read /\
              is_Some (Py.int (get_cell row "level"))
          | Raise e =>
              ~ readable row /\
              (e = ValueError \/
               exists k, k ∈ Spell.csv_headers /\ has_key row k = false /\
                         e = KeyError k)
          end) as Htail.
  { col row "rules". col row "source". split; [|rewrite C, En; eauto].
    unfold always_read. repeat (apply Forall_cons; split; [assumption|]).
    constructor. }
  destruct (Spell.is_yes v10) eqn:Ey.
  - apply is_yes_eq in Ey as ->.
    destruct (Spell.getitem row "material_text") as [t|e] eqn:Et; cbn [bind].
    2:{ apply getitem_Raise in Et as [Et ->]. split.
        - intros (_ & _ & H). destruct (H C10). congruence.
        - right. exists "material_text".
          split; [unfold Spell.csv_headers; in_list|done]. }
    destruct (Spell.getitem row "material_cost") as [c|e] eqn:Ec; cbn [bind].
    2:{ apply getitem_Raise in Ec as [Ec ->]. split.
        - intros (_ & _ & H). destruct (H C10). congruence.
        - right. exists "material_cost".
          split; [unfold Spell.csv_headers; in_list|done]. }
    apply getitem_Ok in Et as [Kt _]. apply getitem_Ok in Ec as [Kc _].
    destruct (Spell.getitem row "rules") as [r|e]; cbn [bind] in *;
      [|destruct (0 <? String.length c); exact Htail].
    destruct (Spell.getitem row "source") as [so|e]; cbn [bind] in *;
      [|destruct (0 <? String.length c); exact Htail].
    destruct Htail as [H1 H2].
    destruct (0 <? String.length c); cbn [bind];
      (split; [exact H1|]); (split; [exact H2|]); by intros _.
  - cbn [bind].
    destruct (Spell.getitem row "rules") as [r|e]; cbn [bind] in *;
      [|exact Htail].
    destruct (Spell.getitem row "source") as [so|e]; cbn [bind] in *;
      [|exact Htail].
    destruct Htail as [H1 H2]. split; [exact H1|]. split; [exact H2|].
    intros Hy. rewrite C10 in Hy. rewrite Hy in Ey. discriminate.
Qed.

Lemma from_csv_dict_Ok_readable self row s :
  Spell.from_csv_dict self row = Ok s -> readable row.
Proof. intros H. pose proof (from_csv_dict_cases self row) as H'. by rewrite H in H'. Qed.

Lemma from_csv_dict_Raise_readable self row e :
  Spell.from_csv_dict self row = Raise e -> ~ readable row.
Proof.
  intros H. pose proof (from_csv_dict_cases self row) as H'. rewrite H in H'.
  by destruct H'.
Qed.

(** The record that is read has the name of the row. *)
Lemma from_csv_dict_name self row s :
  Spell.from_csv_dict self row = Ok s ->
  Spell.name s = Some (get_cell row "name").
Proof.
  unfold Spell.from_csv_dict, bind, to_int. intros H.
  destruct (Spell.getitem row "name") as [v|] eqn:E.
  - apply getitem_Ok in E as [_ ->].
    repeat (case_match; try discriminate); simplify_eq; reflexivity.
  - repeat (case_match; try discriminate).
Qed.

(** *** Rows and their keys *)

Lemma has_key_elem row k : has_key row k = true <-> k ∈ map fst row.
Proof.
  unfold has_key. induction row as [|[k' v] row IH]; cbn.
  - split; [discriminate|]. by intros ?%elem_of_nil.
  - rewrite elem_of_cons, orb_true_iff, IH, String.eqb_eq.
    split; intros [H|H]; auto.
Qed.

Lemma get_cell_cons_ne k v row k' :
  k <> k' -> get_cell ((k, v) :: row) k' = get_cell row k'.
Proof.
  intros H. unfold get_cell. cbn. apply String.eqb_neq in H. by rewrite H.
Qed.

Lemma get_cell_cons_eq k v row : get_cell ((k, v) :: row) k = v.
Proof. unfold get_cell. cbn. by rewrite String.eqb_refl. Qed.

(** A row with distinct keys is the list of its cells. *)
Lemma row_of_keys row :
  NoDup (map fst row) ->
  row = map (fun k => (k, get_cell row k)) (map fst row).
Proof.
  induction row as [|[k v] row IH]; [reflexivity|]. cbn [map fst].
  intros [Hk Hnd]%NoDup_cons. rewrite get_cell_cons_eq. f_equal.
  rewrite IH at 1 by exact Hnd. apply map_ext_in. intros k' Hk'.
  rewrite get_cell_cons_ne; [reflexivity|]. intros ->.
  apply Hk. by apply list_elem_of_In.
Qed.

Lemma yes_no_is_yes v :
  v = "yes" \/ v = "no" -> Spell.yes_no (Some (Spell.is_yes v)) = v.
Proof. by intros [->| ->]. Qed.

Lemma NoDup_csv_headers : NoDup Spell.csv_headers.
Proof.
  apply (bool_decide_unpack (NoDup Spell.csv_headers)). vm_compute. reflexivity.
Qed.

(* ================================================================== *)
(** ** Properties of the loader of CSV files *)
(* ================================================================== *)

(** A record from which a row takes every attribute is read back from the
    row. *)
Lemma csv_faithful_round_trip (s : Spell.t) :
  csv_faithful s ->
  Spell.from_csv_dict Spell.new (Spell.to_csv_dict s) = Ok s.
Proof.
  intros (H1 & H2 & (l & Hl & Hne & Hsep) & Ht & Hc & Hc').
  rewrite from_csv_dict_to_csv_dict. f_equal.
  destruct s as [name level rules school classes cast_time range duration
                 concentration ritual verbal somatic material material_costly
                 material_consumed material_text material_cost source].
  cbn [Spell.name Spell.level Spell.rules Spell.school Spell.classes
       Spell.cast_time Spell.range Spell.duration Spell.concentration
       Spell.ritual Spell.verbal Spell.somatic Spell.material
       Spell.material_costly Spell.material_consumed Spell.material_text
       Spell.material_cost Spell.source] in *.
  destruct H1 as ([? ->] & [? ->] & [? ->] & [? ->] & [? ->] & [? ->] & [? ->] & [? ->]).
  destruct H2 as ([? ->] & [? ->] & [? ->] & [? ->] & [mat ->] & [? ->] & [? ->]).
  subst classes. cbv [from_option id]. rewrite (split_join l Hne Hsep).
  destruct mat.
  - destruct (proj2 Ht eq_refl) as [text ->]. cbn [andb].
    destruct material_cost as [[|c cost]|]; [by destruct Hc'|reflexivity..].
  - destruct material_text as [text|].
    { assert (Some false = Some true) as E by (apply Ht; eauto). discriminate E. }
    destruct material_cost as [cost|]; [|reflexivity].
    assert (Some false = Some true) as E by (apply Hc; eauto). discriminate E.
Qed.

(** The loop over the rows: it ends well when every row is readable, and
    then each name has the record of the last row that has it, or the record
    that the dictionary held. *)
Lemma read_rows_spec reader acc :
  match File.read_rows reader acc with
  | Ok spells =>
      Forall readable reader /\
      forall n, spells !! n =
                match last_named reader n with
                | Some row => spell_of_row row
                | None => acc !! n
                end
  | Raise e => exists row, row ∈ reader /\ ~ readable row
  end.
Proof.
  revert acc. induction reader as [|row reader IH]; intros acc.
  - cbn. split; [constructor|reflexivity].
  - cbn [File.read_rows].
    destruct (Spell.from_csv_dict Spell.new row) as [s|e] eqn:E; cbn [bind].
    2:{ exists row. split; [by left|].
        by apply from_csv_dict_Raise_readable in E. }
    rewrite (from_csv_dict_name _ _ _ E).
    specialize (IH (<[get_cell row "name" := s]> acc)).
    destruct (File.read_rows reader _) as [spells|e'].
    + destruct IH as [Hall Hn]. split.
      * constructor; [|exact Hall]. by apply from_csv_dict_Ok_readable in E.
      * intros n. rewrite Hn. cbn [last_named].
        destruct (last_named reader n); [reflexivity|].
        destruct (String.eqb (get_cell row "name") n) eqn:En.
        -- apply String.eqb_eq in En as <-. rewrite lookup_insert_eq.
           unfold spell_of_row. by rewrite E.
        -- apply String.eqb_neq in En. by rewrite lookup_insert_ne.
    + destruct IH as (row' & Hin & Hr). exists row'. split; [by right|exact Hr].
Qed.

(** The last row of a name among the rows written for some records. *)
Lemma last_named_written (l : list Spell.t) (n : string) :
  match last_named (Spell.to_csv_dict <$> l) n with
  | Some row =>
      exists s, s ∈ l /\ row = Spell.to_csv_dict s /\
                default "Unknown" (Spell.name s) = n
  | None => forall s, s ∈ l -> default "Unknown" (Spell.name s) <> n
  end.
Proof.
  induction l as [|s l IH]; cbn [fmap list_fmap last_named].
  - intros s Hs. by apply elem_of_nil in Hs.
  - destruct (last_named (Spell.to_csv_dict <$> l) n) as [row|].
    + destruct IH as (s' & Hin & Hrow & Hn). exists s'.
      split; [by right|]. by split.
    + assert (get_cell (Spell.to_csv_dict s) "name" =
              default "Unknown" (Spell.name s)) as -> by reflexivity.
      destruct (String.eqb _ n) eqn:En.
      * apply String.eqb_eq in En. exists s. split; [by left|]. by split.
      * apply String.eqb_neq in En. intros s' [->|Hin]%elem_of_cons;
          [exact En|by apply IH].
Qed.

(* ================================================================== *)
(** ** Properties of the YAML form *)
(* ================================================================== *)

Lemma strs_fmap l : Value.strs (VStr <$> l) = Good l.
Proof.
  induction l as [|x l IH]; [reflexivity|]. cbn. rewrite IH. reflexivity.
Qed.

Lemma chars_from_length cur s : 0 < length (Value.chars_from cur s).
Proof.
  revert cur. induction s as [|a s IH]; intros cur; cbn [Value.chars_from].
  - cbn. lia.
  - destruct (Value.continues a); [apply IH|cbn; lia].
Qed.

Lemma chars_not_nil c s : (0 <? length (Value.chars (String c s))) = true.
Proof. apply Nat.ltb_lt, chars_from_length. Qed.

(** *** The attributes of a record as an object *)

Lemma lookup_put_ne {A} k (f : A -> value) o (m : gmap string value) k' :
  k <> k' -> Spell.put k f o m !! k' = m !! k'.
Proof.
  intros H. destruct o; [|reflexivity]. unfold Spell.put.
  by rewrite lookup_insert_ne.
Qed.

Lemma lookup_put_eq {A} k (f : A -> value) o (m : gmap string value) :
  m !! k = None -> Spell.put k f o m !! k = f <$> o.
Proof.
  intros H. destruct o; unfold Spell.put; [by rewrite lookup_insert_eq|exact H].
Qed.

Ltac attr :=
  unfold Spell.attrs;
  rewrite ?lookup_put_ne by discriminate;
  rewrite lookup_put_eq; [reflexivity|];
  rewrite ?lookup_put_ne by discriminate; apply lookup_empty.

Lemma attrs_lookup s :
  (Spell.attrs s !! "name" = VStr <$> Spell.name s /\
   Spell.attrs s !! "level" = VInt <$> Spell.level s /\
   Spell.attrs s !! "rules" = VStr <$> Spell.rules s /\
   Spell.attrs s !! "school" = VStr <$> Spell.school s /\
   Spell.attrs s !! "classes" =
     (fun l => VList (VStr <$> l)) <$> Spell.classes s /\
   Spell.attrs s !! "cast_time" = VStr <$> Spell.cast_time s) /\
  (Spell.attrs s !! "range" = VStr <$> Spell.range s /\
   Spell.attrs s !! "duration" = VStr <$> Spell.duration s /\
   Spell.attrs s !! "concentration" = VBool <$> Spell.concentration s /\
   Spell.attrs s !! "ritual" = VBool <$> Spell.ritual s /\
   Spell.attrs s !! "verbal" = VBool <$> Spell.verbal s /\
   Spell.attrs s !! "somatic" = VBool <$> Spell.somatic s) /\
  (Spell.attrs s !! "material" = VBool <$> Spell.material s /\
   Spell.attrs s !! "material_costly" = VBool <$> Spell.material_costly s /\
   Spell.attrs s !! "material_consumed" =
     VBool <$> Spell.material_consumed s /\
   Spell.attrs s !! "material_text" = VStr <$> Spell.material_text s /\
   Spell.attrs s !! "material_cost" = VStr <$> Spell.material_cost s /\
   Spell.attrs s !! "source" = VStr <$> Spell.source s).
Proof. repeat split; attr. Qed.

(** *** Reading an entry that is a mapping *)

Lemma entry_or_dict d key dv :
  Spell.entry_or (VDict d) key dv = Good (default dv (Value.get d key)).
Proof.
  unfold Spell.entry_or. cbn. destruct (Value.get d key); reflexivity.
Qed.

(** The value of a key in a list of items that is written out. *)
Ltac get_key :=
  match goal with
  | |- context [Value.get ?d ?k] =>
      let r := eval cbv in (Value.get d k) in
      change (Value.get d k) with r
  end.

Lemma Good_map_eq (a b : gmap string value) :
  (forall k, a !! k = b !! k) -> Good a = Good b.
Proof. intros H. f_equal. by apply map_eq. Qed.

(** The steps of [from_yaml_dict] on an entry that is written out, up to
    the test of [material]. *)
Ltac read_entry Hsj :=
  unfold Spell.from_yaml_dict; rewrite !entry_or_dict;
  cbn [Value.contains Value.subscript];
  repeat get_key;
  cbn [check default from_option id];
  rewrite ?bool_decide_eq_true_2 by eauto;
  rewrite ?bool_decide_eq_false_2 by (intros [? ?]; discriminate);
  cbn [check Value.split]; rewrite Hsj;
  unfold Spell.attribute;
  rewrite lookup_insert_ne by discriminate;
  rewrite lookup_insert_ne by discriminate;
  rewrite lookup_insert_eq;
  cbn [check Value.truthy Value.split Value.len].

Ltac same_attributes :=
  apply Good_map_eq; intros ?k;
  rewrite !lookup_insert, lookup_empty;
  repeat case_decide; subst; try done.

(** A record from which a row takes every attribute is read back from its
    YAML entry as well. *)
Lemma yaml_faithful_round_trip (s : Spell.t) (n : string) :
  csv_faithful s -> Spell.name s = Some n ->
  exists entry written,
    dump_yaml_entry s = Good (VDict entry) /\
    represented entry = Good written /\
    Spell.from_yaml_dict ∅ n (VDict written) = Good (Spell.attrs s).
Proof.
  intros (H1 & H2 & (l & Hl & Hne & Hsep) & Ht & Hc & Hc') Hn.
  unfold dump_yaml_entry, Spell.to_yaml_dict, Spell.getattr.
  destruct (attrs_lookup s)
    as ((A1 & A2 & A3 & A4 & A5 & A6) & (A7 & A8 & A9 & A10 & A11 & A12) &
        (A13 & A14 & A15 & A16 & A17 & A18)).
  rewrite A2, A3, A4, A5, A6, A7, A8, A9, A10, A11, A12, A13, A14, A15, A16,
    A17, A18.
  clear A1 A2 A3 A4 A5 A6 A7 A8 A9 A10 A11 A12 A13 A14 A15 A16 A17 A18.
  unfold Spell.attrs.
  destruct s as [name level rules school classes cast_time range duration
                 concentration ritual verbal somatic material material_costly
                 material_consumed material_text material_cost source].
  cbn [Spell.name Spell.level Spell.rules Spell.school Spell.classes
       Spell.cast_time Spell.range Spell.duration Spell.concentration
       Spell.ritual Spell.verbal Spell.somatic Spell.material
       Spell.material_costly Spell.material_consumed Spell.material_text
       Spell.material_cost Spell.source] in *.
  destruct H1 as ([? ->] & [? ->] & [? ->] & [? ->] & [? ->] & [? ->] & [? ->] & [? ->]).
  destruct H2 as ([? ->] & [? ->] & [? ->] & [? ->] & [mat ->] & [? ->] & [? ->]).
  subst classes. injection Hn as ->.
  cbn [fmap option_fmap option_map default from_option id Value.join].
  rewrite strs_fmap. cbn [check].
  pose proof (split_join l Hne Hsep) as Hsj.
  remember (Py.join ", " l) as j eqn:Ej. clear Ej.
  unfold Spell.put.
  destruct mat.
  - destruct (proj2 Ht eq_refl) as [text ->].
    destruct material_cost as [[|c cost]|]; [by destruct Hc'| |].
    + eexists _, _. split; [reflexivity|]. split; [reflexivity|].
      read_entry Hsj. rewrite chars_not_nil. cbn [check]. same_attributes.
    + eexists _, _. split; [reflexivity|]. split; [reflexivity|].
      read_entry Hsj. same_attributes.
  - destruct material_text as [text|].
    { assert (Some false = Some true) as E by (apply Ht; eauto). discriminate E. }
    destruct material_cost as [cost|].
    { assert (Some false = Some true) as E by (apply Hc; eauto). discriminate E. }
    eexists _, _. split; [reflexivity|]. split; [reflexivity|].
    read_entry Hsj. same_attributes.
Qed.

(** *** What [from_yaml_dict] makes of a mapping *)




(** *** The loader of YAML files *)

Lemma read_entries_spec items acc :
  match File.read_entries items acc with
  | Good spells =>
      forall n, spells !! n =
                match last_entry items n with
                | Some entry => object_of_entry n entry
                | None => acc !! n
                end
  | Bad e =>
      exists n entry,
        (n, entry) ∈ items /\ Spell.from_yaml_dict ∅ n entry = Bad e
  end.
Proof.
  revert acc. induction items as [|[k entry] items IH]; intros acc.
  - cbn. reflexivity.
  - cbn [File.read_entries].
    destruct (Spell.from_yaml_dict ∅ k entry) as [obj|e] eqn:E; cbn [check].
    2:{ exists k, entry. split; [by left|exact E]. }
    specialize (IH (<[k := obj]> acc)).
    destruct (File.read_entries items _) as [spells|e'].
    + intros n. rewrite IH. cbn [last_entry].
      destruct (last_entry items n); [reflexivity|].
      destruct (String.eqb k n) eqn:En.
      * apply String.eqb_eq in En as <-. rewrite lookup_insert_eq.
        unfold object_of_entry. by rewrite E.
      * apply String.eqb_neq in En. by rewrite lookup_insert_ne.
    + destruct IH as (n & entry' & Hin & Hr). exists n, entry'.
      split; [by right|exact Hr].
Qed.

Lemma last_entry_spec items n :
  match last_entry items n with
  | Some entry => (n, entry) ∈ items
  | None => forall entry, (n, entry) ∉ items
  end.
Proof.
  induction items as [|[k e] items IH]; cbn [last_entry].
  - intros entry H. by apply elem_of_nil in H.
  - destruct (last_entry items n); [by right|].
    destruct (String.eqb k n) eqn:En.
    + apply String.eqb_eq in En as ->. by left.
    + apply String.eqb_neq in En. intros entry [H|H]%elem_of_cons.
      * by injection H as -> _.
      * by apply (IH entry).
Qed.

(** The items written for records that go through YAML without loss. *)
Lemma yaml_items_faithful (l : list (string * Spell.t)) :
  Forall (fun ns => Spell.name ns.2 = Some ns.1 /\ csv_faithful ns.2) l ->
  exists items,
    yaml_items l = Good items /\
    Forall2 (fun ns ne =>
               ns.1 = ne.1 /\
               Spell.from_yaml_dict ∅ ns.1 ne.2 = Good (Spell.attrs ns.2))
      l items.
Proof.
  induction l as [|[n s] l IH]; intros H.
  - exists []. split; [reflexivity|constructor].
  - apply Forall_cons in H as [[Hn Hf] H]. cbn [fst snd] in Hn, Hf.
    destruct (IH H) as (items & Hi & Hall).
    destruct (yaml_faithful_round_trip s n Hf Hn) as (entry & written & E1 & E2 & E3).
    exists ((n, VDict written) :: items). split.
    + cbn [yaml_items]. rewrite E1. cbn [check]. rewrite E2. cbn [check].
      rewrite Hi. reflexivity.
    + constructor; [|exact Hall]. split; [reflexivity|exact E3].
Qed.

Lemma Forall2_elem_r {A B} (P : A -> B -> Prop) l k y :
  Forall2 P l k -> y ∈ k -> exists x, x ∈ l /\ P x y.
Proof.
  induction 1 as [|x y' l k H _ IH]; intros Hy.
  - by apply elem_of_nil in Hy.
  - apply elem_of_cons in Hy as [->|Hy].
    + exists x. split; [by left|exact H].
    + destruct (IH Hy) as (x' & Hx & HP). exists x'. split; [by right|exact HP].
Qed.

Lemma Forall2_elem_l {A B} (P : A -> B -> Prop) l k x :
  Forall2 P l k -> x ∈ l -> exists y, y ∈ k /\ P x y.
Proof.
  induction 1 as [|x' y l k H _ IH]; intros Hx.
  - by apply elem_of_nil in Hx.
  - apply elem_of_cons in Hx as [->|Hx].
    + exists y. split; [by left|exact H].
    + destruct (IH Hx) as (y' & Hy & HP). exists y'. split; [by right|exact HP].
Qed.

(* ================================================================== *)
(** ** The checks of the document *)
(* ================================================================== *)

Lemma retrieve_json_cases (response : value) :
  match retrieve_json response with
  | Good spell_json =>
      spell_json = response /\
      exists d spellcasting,
        response = VDict d /\ Value.get d "Spellcasting" = Some spellcasting /\
        match spellcasting with
        | VDict s =>
            exists spell_data class_data,
              Value.get s "Spell Descriptions" = Some spell_data /\
              Value.get s "Spell Lists" = Some class_data /\
              sections response = Good (spell_data, class_data)
        | _ => sections response = Bad TypeError
        end
  | Bad e =>
      e = TypeError \/ e = missing_node "Spellcasting" \/
      e = missing_node "Spell Descriptions" \/ e = missing_node "Spell Lists"
  end.
Proof.
  destruct (retrieve_json response) as [json|e] eqn:R; unfold retrieve_json in R.
  - destruct response as [| | | |t|l|d|]; cbn [Value.contains check] in R;
      try discriminate.
    + destruct (Py.contains _ t); discriminate.
    + destruct (existsb _ l); discriminate.
    + destruct (Value.get d "Spellcasting") as [sc|] eqn:E.
      2:{ rewrite bool_decide_eq_false_2 in R by (intros [? ?]; discriminate).
          discriminate. }
      rewrite bool_decide_eq_true_2 in R by eauto.
      cbn [negb Value.subscript check] in R. rewrite E in R. cbn [check] in R.
      assert (json = VDict d) as ->.
      { destruct (Value.contains "Spell Descriptions" sc) as [[]|];
          try discriminate.
        cbn [negb check] in R.
        destruct (Value.contains "Spell Lists" sc) as [[]|]; try discriminate.
        cbn in R. congruence. }
      split; [reflexivity|]. exists d, sc. split; [reflexivity|].
      split; [exact E|].
      assert (retrieve_json (VDict d) = Good (VDict d)) as R'.
      { unfold retrieve_json. cbn [Value.contains check].
        rewrite bool_decide_eq_true_2 by eauto.
        cbn [negb Value.subscript check]. rewrite E. exact R. }
      unfold sections. rewrite R'. cbn [check Value.subscript]. rewrite E.
      cbn [check].
      destruct sc as [| | | |t|l|s|]; try reflexivity.
      cbn [Value.contains check] in R.
      destruct (Value.get s "Spell Descriptions") as [sd|] eqn:E1.
      2:{ rewrite bool_decide_eq_false_2 in R by (intros [? ?]; discriminate).
          discriminate. }
      rewrite bool_decide_eq_true_2 in R by eauto. cbn [negb check] in R.
      destruct (Value.get s "Spell Lists") as [cl|] eqn:E2.
      2:{ rewrite bool_decide_eq_false_2 in R by (intros [? ?]; discriminate).
          discriminate. }
      exists sd, cl. cbn [Value.subscript]. rewrite E1, E2. by cbn.
  - destruct response as [| | | |t|l|d|]; cbn [Value.contains check] in R;
      try (injection R as <-; auto; fail).
    + destruct (Py.contains _ t); cbn in R; injection R as <-; auto.
    + destruct (existsb _ l); cbn in R; injection R as <-; auto.
    + destruct (Value.get d "Spellcasting") as [sc|] eqn:E.
      2:{ rewrite bool_decide_eq_false_2 in R by (intros [? ?]; discriminate).
          cbn in R. injection R as <-. auto. }
      rewrite bool_decide_eq_true_2 in R by eauto.
      cbn [negb Value.subscript check] in R. rewrite E in R. cbn [check] in R.
      destruct sc as [| | | |t|l|s|]; cbn [Value.contains check] in R;
        try (injection R as <-; auto; fail).
      * destruct (Py.contains "Spell Descriptions" t); cbn [negb check] in R;
          [|injection R as <-; auto].
        destruct (Py.contains "Spell Lists" t); cbn [negb check] in R;
          [discriminate|injection R as <-; auto].
      * destruct (existsb _ l); cbn [negb check] in R;
          [|injection R as <-; auto].
        destruct (existsb _ l); cbn [negb check] in R;
          [discriminate|injection R as <-; auto].
      * destruct (bool_decide _); cbn [negb check] in R;
          [|injection R as <-; auto].
        destruct (bool_decide _); cbn [negb check] in R;
          [discriminate|injection R as <-; auto].
Qed.

(* ================================================================== *)
(** ** The cards *)
(* ================================================================== *)

(** *** The padding of the rules *)
Lemma breaks_needed_small size : size < 240 -> breaks_needed size = S (breaks_needed (size + 30)).
Proof.
  intros H. unfold breaks_needed.
  destruct (Nat.le_gt_cases (size + 30) 240) as [L|L].
  - replace (240 - size + 29) with ((240 - (size + 30) + 29) + 1 * 30) by lia.
    rewrite Nat.div_add by lia. lia.
  - replace (240 - (size + 30)) with 0 by lia. cbn [Nat.add].
    symmetry. change (29 / 30) with 0.
    apply (Nat.div_unique _ 30 1 (240 - size - 1)); lia.
Qed.

Lemma breaks_needed_large size : 240 <= size -> breaks_needed size = 0.
Proof.
  intros H. unfold breaks_needed. replace (240 - size) with 0 by lia. reflexivity.
Qed.

Lemma breaks_needed_le size : breaks_needed size <= 8.
Proof.
  unfold breaks_needed.
  apply Nat.lt_succ_r. apply Nat.Div0.div_lt_upper_bound. lia.
Qed.

Lemma breaks_needed_least size j : 240 <= size + 30 * j <-> breaks_needed size <= j.
Proof.
  revert size. induction j as [|j IH]; intros size.
  - destruct (Nat.lt_ge_cases size 240) as [L|L].
    + rewrite breaks_needed_small by done. lia.
    + rewrite breaks_needed_large by done. lia.
  - destruct (Nat.lt_ge_cases size 240) as [L|L].
    + rewrite breaks_needed_small by done. specialize (IH (size + 30)). lia.
    + rewrite breaks_needed_large by done. lia.
Qed.

Lemma append_snoc (t : string) (c : ascii) (s : string) :
  (t +:+ String c "") +:+ s = t +:+ String c s.
Proof. rewrite append_assoc. reflexivity. Qed.

Lemma pad_line_breaks fuel size text :
  breaks_needed size <= fuel ->
  Cardmaker.pad fuel size text = text +:+ line_breaks (breaks_needed size).
Proof.
  revert size text. induction fuel as [|fuel IH]; intros size text H; cbn [Cardmaker.pad].
  - replace (breaks_needed size) with 0 by lia. cbn. by rewrite append_nil_r.
  - destruct (size <? 240) eqn:E.
    + apply Nat.ltb_lt in E. rewrite breaks_needed_small in * by done.
      rewrite IH by lia. cbn [line_breaks]. apply append_snoc.
    + apply Nat.ltb_ge in E. rewrite breaks_needed_large by done. cbn. by rewrite append_nil_r.
Qed.

(** *** The caption for the cost *)



(** *** The name of the file *)

Lemma plain_kept (c : ascii) :
  Py.is_alnum c || Py.contains (String c "") "._- " = plain c.
Proof. destruct c as [[] [] [] [] [] [] [] []]; reflexivity. Qed.

Lemma lower_upper (c : ascii) : Py.lower (Py.upper c) = Py.lower c.
Proof. destruct c as [[] [] [] [] [] [] [] []]; reflexivity. Qed.

Lemma lower_lower (c : ascii) : Py.lower (Py.lower c) = Py.lower c.
Proof. destruct c as [[] [] [] [] [] [] [] []]; reflexivity. Qed.

Lemma fn_keep (name : string) : Cardmaker.fn name = Cardmaker.keep plain name.
Proof.
  unfold Cardmaker.fn. induction name as [|c s IH]; [reflexivity|].
  cbn [Cardmaker.keep]. rewrite plain_kept, IH. reflexivity.
Qed.

Lemma keep_all P s : all_chars P (Cardmaker.keep P s) = true.
Proof.
  induction s as [|c s IH]; [reflexivity|]. cbn [Cardmaker.keep].
  destruct (P c) eqn:E; [|exact IH]. cbn [all_chars]. by rewrite E, IH.
Qed.

Lemma keep_id P s : all_chars P s = true -> Cardmaker.keep P s = s.
Proof.
  induction s as [|c s IH]; [reflexivity|]. cbn [all_chars Cardmaker.keep].
  intros [Hc Hs]%andb_true_iff. by rewrite Hc, IH.
Qed.

Lemma keep_append P u v :
  Cardmaker.keep P (u +:+ v) = Cardmaker.keep P u +:+ Cardmaker.keep P v.
Proof.
  induction u as [|c u IH]; [by rewrite !append_nil_l|].
  rewrite append_cons. cbn [Cardmaker.keep]. destruct (P c); [|exact IH].
  by rewrite append_cons, IH.
Qed.

Lemma all_chars_without P c s :
  P c = false -> all_chars P s = true -> Py.contains (String c "") s = false.
Proof.
  intros Hc. induction s as [|a s IH]; [reflexivity|].
  cbn [all_chars]. intros [Ha Hs]%andb_true_iff.
  rewrite contains_char_cons, (IH Hs), orb_false_r.
  destruct (Ascii.eqb_spec c a) as [->|]; [congruence|reflexivity].
Qed.

(** *** The spell of the option [-s] *)

Lemma lower_str_title_from b s : Py.lower_str (Py.title_from b s) = Py.lower_str s.
Proof.
  revert b. induction s as [|c s IH]; intros b; [reflexivity|].
  cbn [Py.title_from Py.lower_str]. rewrite IH.
  destruct b; by rewrite ?lower_upper, ?lower_lower.
Qed.

Lemma lower_str_idem s : Py.lower_str (Py.lower_str s) = Py.lower_str s.
Proof.
  induction s as [|c s IH]; [reflexivity|].
  cbn [Py.lower_str]. by rewrite lower_lower, IH.
Qed.

(** *** The class list *)

Lemma active_from_elem cfg classes i j cls :
  (j, cls) ∈ Cardmaker.active_from i cfg classes <->
  i <= j /\ cfg !! (j - i) = Some cls /\ cls ∈ classes.
Proof.
  revert i. induction cfg as [|c cfg IH]; intros i; cbn [Cardmaker.active_from].
  - rewrite elem_of_nil. split; [done|]. by intros (_ & H & _).
  - assert ((j, cls) ∈ Cardmaker.active_from (S i) cfg classes <->
            S i <= j /\ (c :: cfg) !! (j - i) = Some cls /\ cls ∈ classes) as Hrest.
    { rewrite IH. split.
      - intros (L & H & Hin). split; [lia|]. split; [|exact Hin].
        replace (j - i) with (S (j - S i)) by lia. exact H.
      - intros (L & H & Hin). split; [lia|]. split; [|exact Hin].
        replace (j - i) with (S (j - S i)) in H by lia. exact H. }
    case_bool_decide as Hc.
    + rewrite elem_of_cons, Hrest. split.
      * intros [[= -> ->]|(L & H & Hin)].
        -- split; [lia|]. rewrite Nat.sub_diag. done.
        -- split; [lia|]. done.
      * intros (L & H & Hin). destruct (decide (j = i)) as [->|Hne].
        -- left. rewrite Nat.sub_diag in H. cbn in H. congruence.
        -- right. split; [lia|]. done.
    + rewrite Hrest. split.
      * intros (L & H & Hin). split; [lia|]. done.
      * intros (L & H & Hin). destruct (decide (j = i)) as [->|Hne].
        -- rewrite Nat.sub_diag in H. cbn in H. congruence.
        -- split; [lia|]. done.
Qed.

Lemma active_from_same cfg classes classes' i :
  (forall cls, cls ∈ classes <-> cls ∈ classes') ->
  Cardmaker.active_from i cfg classes = Cardmaker.active_from i cfg classes'.
Proof.
  intros H. revert i. induction cfg as [|c cfg IH]; intros i; [reflexivity|].
  cbn [Cardmaker.active_from]. rewrite IH.
  rewrite (bool_decide_ext _ _ (H c)). reflexivity.
Qed.

Lemma parse_spells_classes data lists st n spell :
  parse_spells data lists init = Finished st ->
  spells st !! n = Some spell ->
  Spell.classes spell = Some (listed_tokens lists n).
Proof.
  intros (st0 & H0 & H1)%parse_spells_Finished Hn.
  pose proof (batch_with_classes data) as Hwc. rewrite H0 in Hwc. cbn in Hwc.
  destruct (add_class_info_annotated lists st0 Hwc) as (spells' & E & Hann).
  rewrite H1 in E. injection E as ->. cbn [spells] in Hn. rewrite Hann in Hn.
  destruct (spells st0 !! n) as [sp|] eqn:E0; [|discriminate].
  injection Hn as <-.
  pose proof (batch_classes_empty data n sp) as Hc. rewrite H0 in Hc.
  unfold extend. cbn. by rewrite (Hc E0).
Qed.

(** *** The configuration *)

Lemma walk_cases (c : value) (attrs : list string) :
  match path c attrs with
  | Some v => Config.walk c attrs = Good v
  | None =>
      if blocked c attrs then Config.walk c attrs = Bad TypeError
      else exists a, Config.walk c attrs = Bad (Exn (AttributeError a))
  end.
Proof.
  revert c. induction attrs as [|attr attrs IH]; intros c; [reflexivity|].
  cbn [path blocked Config.walk].
  destruct c as [| | | |t|l|d|]; cbn [Value.contains check Config.dot_get];
    try reflexivity; try (by eexists).
  - destruct (Py.contains attr t); cbn; by eexists.
  - destruct (existsb _ l); cbn; by eexists.
  - destruct (Value.get d attr) as [v|] eqn:E.
    + rewrite bool_decide_eq_true_2 by eauto. cbn [negb default check from_option id].
      apply IH.
    + rewrite bool_decide_eq_false_2 by (intros [? ?]; discriminate).
      cbn. by eexists.
Qed.

(** *** The characters that are replaced *)

Lemma apart_cons_l a p t : apart (String a p) t -> apart p t.
Proof.
  unfold apart. apply all_chars_impl. intros c.
  rewrite contains_char_cons. by destruct (Ascii.eqb c a), (Py.contains _ p).
Qed.

Lemma startswith_apart p s t :
  apart p t -> Py.startswith p (s +:+ t) = Py.startswith p s.
Proof.
  revert s. induction p as [|a p IH]; intros s H; [by destruct s, t|].
  destruct s as [|c s].
  - rewrite append_nil_l. destruct t as [|c t]; [reflexivity|].
    cbn [Py.startswith]. unfold apart in H. cbn [all_chars] in H.
    apply andb_true_iff in H as [H _]. rewrite contains_char_cons in H.
    rewrite Ascii.eqb_sym. by destruct (Ascii.eqb c a).
  - rewrite append_cons. cbn [Py.startswith]. rewrite IH; [reflexivity|].
    by apply apart_cons_l in H.
Qed.

Lemma contains_apart p t : p <> "" -> apart p t -> Py.contains p t = false.
Proof.
  intros Hp H. induction t as [|c t IH].
  - by destruct p.
  - cbn [Py.contains]. rewrite IH.
    + rewrite orb_false_r. rewrite <- (append_nil_l (String c t)).
      rewrite startswith_apart by exact H. by destruct p.
    + unfold apart in *. cbn [all_chars] in H. by apply andb_true_iff in H as [_ H].
Qed.

Lemma replace_from_none old new s :
  Py.contains old s = false -> Py.replace_from old new 0 s = s.
Proof.
  induction s as [|c s IH]; [reflexivity|].
  cbn [Py.contains Py.replace_from]. intros [H1 H2]%orb_false_iff.
  rewrite H1. by rewrite IH.
Qed.

Lemma replace_from_apart old new k s t :
  old <> "" -> apart old t -> k <= String.length s ->
  Py.replace_from old new k (s +:+ t) = Py.replace_from old new k s +:+ t.
Proof.
  intros Hold Ht. revert k. induction s as [|c s IH]; intros k Hk.
  - cbn in Hk. replace k with 0 by lia. rewrite append_nil_l.
    rewrite replace_from_none by (by apply contains_apart). reflexivity.
  - rewrite append_cons. cbn [Py.replace_from]. destruct k as [|k].
    + rewrite <- append_cons, startswith_apart by exact Ht.
      destruct (Py.startswith old (String c s)) eqn:E.
      * apply startswith_length in E. cbn [String.length] in E.
        rewrite IH by lia. by rewrite append_assoc.
      * rewrite IH by lia. by rewrite append_cons.
    + cbn [String.length] in Hk. apply IH. lia.
Qed.



Lemma apart_line_breaks k : apart Cardmaker.problematic (line_breaks k).
Proof. induction k as [|k IH]; [reflexivity|]. unfold apart in *. cbn [line_breaks all_chars]. by rewrite IH. Qed.

(* ================================================================== *)
(** ** The claims *)
(* ================================================================== *)




(** C2, as stated, fails: the item that has the marker is appended to the
    metadata buffer, and only the items after it reach the rules buffer. *)
Lemma marker_item_not_in_rules :
  let items := [NStr "a"; NStr "**Duration:** x"; NStr "b"] in
  (read_content "n" items ("", "") 0 []).1.1 <> blocks_as_specified items "" /\
  (read_content "n" items ("", "") 0 []).1.1 =
    ("a" +:+ Py.nlnl +:+ "**Duration:** x" +:+ Py.nlnl, "b" +:+ Py.nlnl) /\
  blocks_as_specified items "" =
    ("a" +:+ Py.nlnl, "**Duration:** x" +:+ Py.nlnl +:+ "b" +:+ Py.nlnl).
Proof.
  cbv zeta. split; [|split].
  - vm_compute. discriminate.
  - vm_compute. reflexivity.
  - vm_compute. reflexivity.
Qed.

(** C2, amended: the content loop appends each item to the metadata buffer
    up to and including the first item whose text has the marker
    ["**Duration:**"], and each item after that one to the rules buffer; it
    stops at the end of the content or at the first item that is neither a
    string nor a list of strings. *)
Theorem marker_item_ends_metadata
  (spell_name : string) (pre : list node) (m : node) (post tail : list node)
  (log : list string) :
  Forall (fun x => supported x = true /\ has_marker x = false) pre ->
  supported m = true -> has_marker m = true ->
  Forall (fun x => supported x = true) post ->
  stops tail ->
  read_content spell_name (pre ++ m :: post ++ tail) ("", "") 0 log =
  ((pour (pre ++ [m]) "", pour post ""), 1, stop_log spell_name tail log).
Proof. apply read_content_marker. Qed.

Lemma marker_item_ends_metadata_witness :
  read_content "n"
    ([NStr "a"] ++ NStr "**Duration:** x" ::
     [NStr "b"; NList [NStr "c"; NStr "d"]] ++ [NOther; NStr "e"])
    ("", "") 0 [] =
  ((pour ([NStr "a"] ++ [NStr "**Duration:** x"]) "",
    pour [NStr "b"; NList [NStr "c"; NStr "d"]] ""), 1,
   stop_log "n" [NOther; NStr "e"] []).
Proof.
  apply (marker_item_ends_metadata "n" [NStr "a"] (NStr "**Duration:** x")
           [NStr "b"; NList [NStr "c"; NStr "d"]] [NOther; NStr "e"] []).
  - constructor; [split; reflexivity|constructor].
  - reflexivity.
  - reflexivity.
  - constructor; [reflexivity|]. constructor; [reflexivity|constructor].
  - reflexivity.
Defined.

(** C3, as stated, fails: components ["V, S (a pinch of soot)"] have a
    parenthesized clause and no [M]; the emitted record has [material_text]
    and its flag [material] is false. *)
Lemma material_text_without_material :
  exists st spell,
    parse_spells [("X", Some [NStr sample_metadata_no_M])] [] init = Finished st /\
    spells st !! "X" = Some spell /\
    Spell.material spell = Some false /\
    Spell.material_text spell = Some "a pinch of soot".
Proof.
  eexists _, _. split; [vm_compute; reflexivity|].
  split; [vm_compute; reflexivity|]. split; reflexivity.
Qed.

(** C3, amended: in every emitted record, [material_text] is present
    whenever [material] is true, and [material_cost] is present if and only
    if [material_costly] is true. *)
Theorem optional_fields_of_emitted_record
  (data : list (string * spell_info)) (lists : class_data)
  (st : extractor) (spell_name : string) (spell : Spell.t) :
  parse_spells data lists init = Finished st ->
  spells st !! spell_name = Some spell ->
  (Spell.material spell = Some true -> is_Some (Spell.material_text spell)) /\
  (is_Some (Spell.material_cost spell) <->
   Spell.material_costly spell = Some true).
Proof.
  unfold parse_spells. intros H Hn.
  destruct (create_spell_dict data init) as [st0|] eqn:E; [|discriminate].
  pose proof (batch_with_classes data) as Hwc. rewrite E in Hwc.
  destruct (add_class_info_annotated lists st0 Hwc) as (spells' & Ea & Ha).
  rewrite Ea in H. injection H as <-. cbn [spells] in Hn.
  rewrite Ha in Hn. destruct (spells st0 !! spell_name) as [sp|] eqn:E0;
    [|discriminate].
  injection Hn as <-.
  pose proof (batch_optional data spell_name sp) as Ho. rewrite E in Ho.
  exact (Ho E0).
Qed.

Lemma optional_fields_of_emitted_record_witness :
  (Spell.material (populate_spell_rules (parsed "A" sample_metadata) "") = Some true ->
   is_Some (Spell.material_text (populate_spell_rules (parsed "A" sample_metadata) ""))) /\
  (is_Some (Spell.material_cost (populate_spell_rules (parsed "A" sample_metadata) "")) <->
   Spell.material_costly (populate_spell_rules (parsed "A" sample_metadata) "") = Some true).
Proof.
  apply (optional_fields_of_emitted_record
           [("A", Some [NStr sample_metadata])] [] 
           (Extractor (<["A" := populate_spell_rules (parsed "A" sample_metadata) ""]> ∅) [])
           "A" (populate_spell_rules (parsed "A" sample_metadata) "")).
  - vm_compute. reflexivity.
  - vm_compute. reflexivity.
Defined.

(** C4, as stated, fails: a table after the item with the duration marker
    only cuts the rules text short; the record is emitted. *)
Lemma table_after_marker_keeps_entity :
  exists st,
    create_spell_dict
      [("A", Some [NStr sample_metadata; NStr "Some rules text."; NOther;
                   NStr "Text after the table."])] init = Finished st /\
    option_map Spell.rules (spells st !! "A") = Some (Some "Some rules text.") /\
    printed st = [msg_non_string "A"].
Proof.
  eexists. split; [vm_compute; reflexivity|]. split; vm_compute; reflexivity.
Qed.

(** C4, amended: an item that is neither a string nor a list of strings ends
    the reading of the content with a message.  When no item before it has
    the duration marker, the entity is skipped with a second message and no
    record is emitted for it; when an item before it has the marker, the
    entity is processed from the text read so far: if its metadata parse, its
    record is emitted, with the rules text cut at the unsupported item. *)
Theorem unsupported_item_cuts_content
  (spell_name : string) (a : list node) (m : node) (b : list node)
  (bad : node) (tail : list node)
  (rest : list (string * spell_info)) (self : extractor) :
  Forall (fun x => supported x = true /\ has_marker x = false) a ->
  supported m = true -> has_marker m = true ->
  Forall (fun x => supported x = true) b ->
  supported bad = false ->
  let log := print (msg_non_string spell_name) (printed self) in
  create_spell_dict ((spell_name, Some (a ++ bad :: tail)) :: rest) self =
    create_spell_dict rest
      (Extractor (spells self) (print (msg_no_duration spell_name) log)) /\
  create_spell_dict ((spell_name, Some (a ++ m :: b ++ bad :: tail)) :: rest) self =
    match populate_spell_metadata (fresh_spell spell_name)
            (Py.strip (pour (a ++ [m]) "")) with
    | Raise e => Aborted e (Extractor (spells self) log)
    | Ok spell =>
        create_spell_dict rest
          (Extractor
             (<[spell_name := populate_spell_rules spell (Py.strip (pour b ""))]>
                (spells self)) log)
    end.
Proof.
  intros Ha Hsm Hm Hb Hbad log. split.
  - pose proof (read_content_no_marker spell_name a (bad :: tail)
                  (printed self) Ha Hbad) as E.
    by rewrite (create_spell_dict_content _ _ _ _ _ _ _ E).
  - pose proof (read_content_marker spell_name a m b (bad :: tail)
                  (printed self) Ha Hsm Hm Hb Hbad) as E.
    by rewrite (create_spell_dict_content _ _ _ _ _ _ _ E).
Qed.

Lemma unsupported_item_cuts_content_witness :
  create_spell_dict
    [("A", Some ([NStr "An intro."] ++ NOther :: [NStr "t"]))] init =
    create_spell_dict []
      (Extractor (spells init)
         (print (msg_no_duration "A")
            (print (msg_non_string "A") (printed init)))) /\
  create_spell_dict
    [("A", Some ([NStr "An intro."] ++ NStr sample_metadata ::
                 [NStr "Some rules text."] ++ NOther :: [NStr "t"]))] init =
    match populate_spell_metadata (fresh_spell "A")
            (Py.strip (pour ([NStr "An intro."] ++ [NStr sample_metadata]) "")) with
    | Raise e =>
        Aborted e
          (Extractor (spells init) (print (msg_non_string "A") (printed init)))
    | Ok spell =>
        create_spell_dict []
          (Extractor
             (<["A" := populate_spell_rules spell
                         (Py.strip (pour [NStr "Some rules text."] ""))]>
                (spells init)) (print (msg_non_string "A") (printed init)))
    end.
Proof.
  apply (unsupported_item_cuts_content "A" [NStr "An intro."]
           (NStr sample_metadata) [NStr "Some rules text."] NOther [NStr "t"]
           [] init).
  - constructor; [split; reflexivity|constructor].
  - reflexivity.
  - reflexivity.
  - constructor; [reflexivity|constructor].
  - reflexivity.
Defined.






(** C7, as stated, fails.  [from_csv_dict] reads [material_text] only when
    the column [material] says yes: a record that has a material text and a
    false [material], as the extractor emits it for the components
    ["V, S (a pinch of soot)"], comes back without the text.  And a record
    whose class list is empty comes back with a class list of one empty
    name. *)
Lemma csv_round_trip_not_for_every_record :
  (let record :=
     Spell.set_classes ["Bard"]
       (populate_spell_rules (parsed "X" sample_metadata_no_M) "") in
   Spell.material record = Some false /\
   Spell.material_text record = Some "a pinch of soot" /\
   exists record',
     Spell.from_csv_dict Spell.new (Spell.to_csv_dict record) = Ok record' /\
     Spell.material_text record' = None /\
     record' <> record) /\
  (let record := populate_spell_rules (parsed "A" sample_metadata) "" in
   Spell.classes record = Some [] /\
   exists record',
     Spell.from_csv_dict Spell.new (Spell.to_csv_dict record) = Ok record' /\
     Spell.classes record' = Some [""] /\
     record' <> record).
Proof.
  cbv zeta. split.
  - split; [reflexivity|]. split; [reflexivity|].
    eexists. split; [vm_compute; reflexivity|]. split; [reflexivity|].
    vm_compute. discriminate.
  - split; [reflexivity|].
    eexists. split; [vm_compute; reflexivity|]. split; [reflexivity|].
    vm_compute. discriminate.
Qed.

(** C7, amended: writing a record to a CSV row and reading that row back
    into a new record gives the same record, for every record whose
    attributes other than the two optional ones are all set, whose class list
    is not empty and has no class name with [", "] in it, whose
    [material_text] is present exactly when [material] is true and whose
    [material_cost], if present, is not empty and comes with a true
    [material]. *)
Theorem csv_round_trip (s : Spell.t) :
  csv_faithful s ->
  Spell.from_csv_dict Spell.new (Spell.to_csv_dict s) = Ok s.
Proof.
  intros (H1 & H2 & (l & Hl & Hne & Hsep) & Ht & Hc & Hc').
  rewrite from_csv_dict_to_csv_dict. f_equal.
  destruct s as [name level rules school classes cast_time range duration
                 concentration ritual verbal somatic material material_costly
                 material_consumed material_text material_cost source].
  cbn [Spell.name Spell.level Spell.rules Spell.school Spell.classes
       Spell.cast_time Spell.range Spell.duration Spell.concentration
       Spell.ritual Spell.verbal Spell.somatic Spell.material
       Spell.material_costly Spell.material_consumed Spell.material_text
       Spell.material_cost Spell.source] in *.
  destruct H1 as ([? ->] & [? ->] & [? ->] & [? ->] & [? ->] & [? ->] & [? ->] & [? ->]).
  destruct H2 as ([? ->] & [? ->] & [? ->] & [? ->] & [mat ->] & [? ->] & [? ->]).
  subst classes. cbv [from_option id]. rewrite (split_join l Hne Hsep).
  destruct mat.
  - destruct (proj2 Ht eq_refl) as [text ->]. cbn [andb].
    destruct material_cost as [[|c cost]|]; [by destruct Hc'|reflexivity..].
  - destruct material_text as [text|].
    { assert (Some false = Some true) as E by (apply Ht; eauto). discriminate E. }
    destruct material_cost as [cost|]; [|reflexivity].
    assert (Some false = Some true) as E by (apply Hc; eauto). discriminate E.
Qed.

Lemma csv_round_trip_witness :
  Spell.from_csv_dict Spell.new (Spell.to_csv_dict sample_record) =
  Ok sample_record.
Proof.
  apply (csv_round_trip sample_record).
  unfold csv_faithful.
  split; [vm_compute; repeat split; eauto|].
  split; [vm_compute; repeat split; eauto|].
  split.
  { exists ["Bard"]. split; [reflexivity|]. split; [discriminate|].
    constructor; [reflexivity|constructor]. }
  split; [vm_compute; split; eauto|]. split; [vm_compute; eauto|].
  vm_compute. discriminate.
Defined.



(** C9, as stated, fails: the class list is a list, and a record gets the
    class name once for each listing; listed in two levels of "Bard Spells"
    (or under two labels that begin with "Bard") it holds "Bard" twice. *)
Lemma group_name_listed_twice :
  exists st spell,
    parse_spells [("Dissonant Whispers", Some [NStr sample_metadata])]
      [("Bard Spells", [("1st Level", ["Dissonant Whispers"]);
                        ("2nd Level", ["Dissonant Whispers"])])] init =
      Finished st /\
    spells st !! "Dissonant Whispers" = Some spell /\
    Spell.classes spell = Some ["Bard"; "Bard"] /\
    ~ NoDup ["Bard"; "Bard"].
Proof.
  eexists _, _. split; [vm_compute; reflexivity|].
  split; [vm_compute; reflexivity|]. split; [reflexivity|].
  intros H. apply NoDup_cons in H as [H _]. apply H. by left.
Qed.

(** C9, amended: after [add_class_info] has run, the class list of each
    record holds the part before the first blank of every class label under
    which the record's name is listed, once for each listing and in the order
    of the lists (as a set: exactly those tokens); a name in the class lists
    that is no record is passed over without error, no record is added or
    removed, and a record that is listed nowhere has the empty list. *)
Theorem classes_after_annotation
  (data : list (string * spell_info)) (lists : class_data) (st : extractor) :
  create_spell_dict data init = Finished st ->
  exists st',
    parse_spells data lists init = Finished st' /\
    (forall n, spells st' !! n = extend (listed_tokens lists n) <$> spells st !! n) /\
    (forall n spell,
       spells st' !! n = Some spell ->
       Spell.classes spell = Some (listed_tokens lists n) /\
       (forall token,
          token ∈ listed_tokens lists n <->
          exists label section level names,
            (label, section) ∈ lists /\ (level, names) ∈ section /\
            n ∈ names /\ token = first_token label) /\
       (listed_tokens lists n = [] <->
        forall label section level names,
          (label, section) ∈ lists -> (level, names) ∈ section -> n ∉ names)).
Proof.
  intros E.
  pose proof (batch_with_classes data) as Hwc. rewrite E in Hwc.
  destruct (add_class_info_annotated lists st Hwc) as (spells' & Ea & Ha).
  exists (Extractor spells' (printed st)).
  unfold parse_spells. rewrite E, Ea. split; [reflexivity|].
  split; [exact Ha|]. cbn [spells]. intros n spell Hn.
  rewrite Ha in Hn. destruct (spells st !! n) as [sp|] eqn:E0; [|discriminate].
  injection Hn as <-.
  pose proof (batch_classes_empty data n sp) as Hc. rewrite E in Hc.
  split; [|split].
  - unfold extend. simpl. by rewrite (Hc E0).
  - intros token. apply listed_tokens_elem.
  - split.
    + intros Hnil label section level names H1 H2 H3.
      assert (first_token label ∈ listed_tokens lists n) as Hin
        by (apply listed_tokens_elem; eauto 10).
      rewrite Hnil in Hin. by apply elem_of_nil in Hin.
    + intros Hno. destruct (listed_tokens lists n) as [|token l] eqn:El;
        [reflexivity|].
      assert (token ∈ listed_tokens lists n) as Hin by (rewrite El; by left).
      apply listed_tokens_elem in Hin
        as (label & section & level & names & H1 & H2 & H3 & _).
      by destruct (Hno _ _ _ _ H1 H2 H3).
Qed.

Lemma classes_after_annotation_witness :
  exists st',
    parse_spells [("Dissonant Whispers", Some [NStr sample_metadata])]
      [("Bard Spells", [("1st Level", ["Dissonant Whispers"; "Not Parsed"])])]
      init = Finished st' /\
    option_map Spell.classes (spells st' !! "Dissonant Whispers") =
      Some (Some ["Bard"]) /\
    spells st' !! "Not Parsed" = None.
Proof.
  assert (create_spell_dict
            [("Dissonant Whispers", Some [NStr sample_metadata])] init =
          Finished
            (Extractor
               (<["Dissonant Whispers" :=
                    populate_spell_rules
                      (parsed "Dissonant Whispers" sample_metadata) ""]> ∅)
               [])) as H by (vm_compute; reflexivity).
  destruct (classes_after_annotation _
              [("Bard Spells", [("1st Level", ["Dissonant Whispers"; "Not Parsed"])])]
              _ H) as (st' & E & Ha & _).
  exists st'. split; [exact E|]. rewrite !Ha. split; vm_compute; reflexivity.
Defined.



(* ================================================================== *)
(** ** Further properties, one theorem each *)
(* ================================================================== *)

(** X1: every record that a finished run of [parse_spells] holds carries
    the name under which it is stored, the source
    ["System Reference Document"], and every attribute but the two optional
    ones: level, school, ritual, casting time, range, the three component
    flags, the two cost flags, concentration, duration, rules and class
    list.  So none of the defaults of [to_csv_dict] is used for these. *)
Theorem emitted_record_is_complete
  (data : list (string * spell_info)) (lists : class_data)
  (st : extractor) (n : string) (spell : Spell.t) :
  parse_spells data lists init = Finished st ->
  spells st !! n = Some spell ->
  Spell.name spell = Some n /\
  Spell.source spell = Some "System Reference Document" /\
  complete spell.
Proof.
  apply (parse_spells_keyed
           (fun n s => Spell.name s = Some n /\
                       Spell.source s = Some "System Reference Document" /\
                       complete s)).
  - intros. by apply populate_complete with meta.
  - intros k tokens s (Hn & Hs & Hc). unfold extend, complete in *. cbn.
    destruct Hc as (? & (? & ? & ? & ? & ?) & (? & ? & ? & ?)).
    repeat split; eauto; tauto.
Qed.

Lemma emitted_record_is_complete_witness :
  Spell.name (populate_spell_rules (parsed "A" sample_metadata) "Some rules.") =
    Some "A" /\
  Spell.source (populate_spell_rules (parsed "A" sample_metadata) "Some rules.") =
    Some "System Reference Document" /\
  complete (populate_spell_rules (parsed "A" sample_metadata) "Some rules.").
Proof.
  apply (emitted_record_is_complete
           [("A", Some [NStr sample_metadata; NStr "Some rules."])] []
           (Extractor
              (<["A" := populate_spell_rules (parsed "A" sample_metadata)
                          "Some rules."]> ∅) [])
           "A").
  - vm_compute. reflexivity.
  - vm_compute. reflexivity.
Defined.







(** X5: the pass that removes bold and italic formatting removes nothing
    but asterisks: the characters of its result that are no asterisks are
    those of the text, in the same order; and its result is never longer than
    the text. *)
Theorem strip_formatting_removes_only_asterisks (s : string) :
  without_stars (strip_formatting s) = without_stars s /\
  String.length (strip_formatting s) <= String.length s.
Proof.
  unfold strip_formatting, sub.
  destruct (sub_from_keeps_text (S (String.length s)) s 0) as [H1 H2].
  by destruct s.
Qed.

(** X6: a finished run holds a record only for a name whose entry has a
    ["content"] array with an item (a string, or a list of strings in its
    bulleted form) that has the marker ["**Duration:**"] in it: an entry
    with no content or without the marker gives no record. *)
Theorem record_only_for_entry_with_marker
  (data : list (string * spell_info)) (lists : class_data)
  (st : extractor) (n : string) (spell : Spell.t) :
  parse_spells data lists init = Finished st ->
  spells st !! n = Some spell ->
  exists items,
    (n, Some items) ∈ data /\
    exists x, x ∈ items /\ has_marker x = true.
Proof.
  intros (st0 & H0 & H1)%parse_spells_Finished Hn.
  pose proof (batch_with_classes data) as Hwc. rewrite H0 in Hwc. cbn in Hwc.
  destruct (add_class_info_annotated lists st0 Hwc) as (spells' & E & Hann).
  rewrite H1 in E. injection E as ->. cbn [spells] in Hn.
  rewrite Hann in Hn.
  destruct (spells st0 !! n) as [sp|] eqn:E0; [|discriminate].
  destruct (create_spell_dict_keys data init n sp) as [[x Hx]|H];
    [by rewrite H0| |exact H].
  cbn in Hx. by rewrite lookup_empty in Hx.
Qed.

Lemma record_only_for_entry_with_marker_witness :
  exists items,
    (("A", Some items) : string * option (list node)) ∈
      [("No content", None); ("No marker", Some [NStr "An introduction."]);
       ("A", Some [NStr sample_metadata])] /\
    exists x, x ∈ items /\ has_marker x = true.
Proof.
  apply (record_only_for_entry_with_marker
           [("No content", None); ("No marker", Some [NStr "An introduction."]);
            ("A", Some [NStr sample_metadata])] []
           (Extractor
              (<["A" := populate_spell_rules (parsed "A" sample_metadata) ""]> ∅)
              [msg_no_content "No content"; msg_no_duration "No marker"])
           "A" (populate_spell_rules (parsed "A" sample_metadata) "")).
  - vm_compute. reflexivity.
  - vm_compute. reflexivity.
Defined.

(** X7: the casting time and the rules of a record.  When the text of the
    casting time has [", which you take when "] in it, the casting time of
    the record is the text before its first comma in title case (["1
    Reaction"] and ["1 Bonus Action"] in their short forms), and the rules
    begin with the whole text of the casting time and a blank line, before
    the rules block.  Otherwise the casting time is the whole text in title
    case, and the rules are made of the rules block alone (after what the
    record held as rules before).  In both cases the formatting pass runs
    over the whole. *)
Theorem casting_condition_opens_the_rules
  (spell spell' : Spell.t) (meta rule_str : string) :
  populate_spell_metadata spell meta = Ok spell' ->
  exists start m,
    search re_casting_time meta start = Some m /\
    if Py.contains ", which you take when " (group_str 1 m) then
      (exists t r,
         group_str 1 m = t +:+ "," +:+ r /\ Py.contains "," t = false /\
         Spell.cast_time spell' = Some (short_cast_time (Py.title t))) /\
      Spell.rules (populate_spell_rules spell' rule_str) =
        Some (strip_formatting (group_str 1 m +:+ Py.nlnl +:+ rule_str))
    else
      Spell.cast_time spell' =
        Some (short_cast_time (Py.strip (Py.title (group_str 1 m)))) /\
      Spell.rules (populate_spell_rules spell' rule_str) =
        Some (strip_formatting (default "" (Spell.rules spell) +:+ rule_str)).
Proof.
  intros H.
  destruct (populate_spell_metadata_Ok _ _ _ H)
    as (s1 & m1 & s2 & m2 & _ & _ & _ & _ & H1 & H2 & _).
  pose proof (populate_keeps_cast_time _ _ _ _ _ _ _ H H1 H2) as Ct.
  destruct (populate_keeps_rules _ _ _ _ _ _ _ H H1 H2) as [R1 R2].
  apply parse_casting_time_value in H2 as (Hs & Hv).
  exists (m_end m1), m2. split; [exact Hs|].
  assert (Spell.rules (populate_spell_rules spell' rule_str) =
          Some (strip_formatting (default "" (Spell.rules spell') +:+ rule_str)))
    as Hr
    by (unfold populate_spell_rules; destruct (Spell.rules spell') eqn:E;
        cbn; rewrite ?E; reflexivity).
  destruct (Py.contains ", which you take when " (group_str 1 m2)) eqn:Ec.
  - destruct Hv as ((t & Ht & Hc) & Hrules). split.
    + unfold item, Py.split in Ht.
      destruct (Py.split_from "," 0 "" (group_str 1 m2)) as [|x l] eqn:Ex;
        [discriminate|].
      cbn in Ht. injection Ht as ->.
      apply split_char_head in Ex as (t0 & -> & Hno & Hg).
      rewrite append_nil_l in *.
      destruct Hg as [Hg|[r Hg]].
      * apply contains_first_char in Ec. rewrite Hg in Ec. congruence.
      * exists t0, r. split; [exact Hg|]. split; [exact Hno|]. by rewrite Ct.
    + rewrite Hr, R2, Hrules. cbn. by rewrite append_assoc.
  - destruct Hv as (Hc & Hrules). split; [by rewrite Ct|].
    by rewrite Hr, R2, Hrules, R1.
Qed.

Lemma casting_condition_opens_the_rules_witness :
  exists start m,
    search re_casting_time sample_reaction_metadata start = Some m /\
    if Py.contains ", which you take when " (group_str 1 m) then
      (exists t r,
         group_str 1 m = t +:+ "," +:+ r /\ Py.contains "," t = false /\
         Spell.cast_time (parsed "Shield" sample_reaction_metadata) =
           Some (short_cast_time (Py.title t))) /\
      Spell.rules
        (populate_spell_rules (parsed "Shield" sample_reaction_metadata)
           "An invisible barrier.") =
        Some (strip_formatting (group_str 1 m +:+ Py.nlnl +:+ "An invisible barrier."))
    else
      Spell.cast_time (parsed "Shield" sample_reaction_metadata) =
        Some (short_cast_time (Py.strip (Py.title (group_str 1 m)))) /\
      Spell.rules
        (populate_spell_rules (parsed "Shield" sample_reaction_metadata)
           "An invisible barrier.") =
        Some (strip_formatting
                (default "" (Spell.rules (fresh_spell "Shield")) +:+
                 "An invisible barrier.")).
Proof.
  apply (casting_condition_opens_the_rules (fresh_spell "Shield")).
  vm_compute. reflexivity.
Defined.



(** X9: the keys of the dictionary that [to_csv_dict] makes are the headers
    of [csv_headers], each once and in the same order, whatever the record;
    so the row that [dump_csv] writes for a record has a cell for each of the
    eighteen headers, none of them the filler for a missing key, and
    [DictWriter] finds no key outside its field names to raise a
    [ValueError] for. *)
Theorem csv_row_has_the_headers (s : Spell.t) :
  map fst (Spell.to_csv_dict s) = Spell.csv_headers /\
  NoDup Spell.csv_headers /\
  dump_csv_row s = Ok (map snd (Spell.to_csv_dict s)) /\
  (forall k, k ∈ Spell.csv_headers ->
     Spell.getitem (Spell.to_csv_dict s) k = Ok (get_cell (Spell.to_csv_dict s) k)).
Proof.
  split; [reflexivity|]. split.
  - apply (bool_decide_unpack (NoDup Spell.csv_headers)). vm_compute. reflexivity.
  - split; [reflexivity|].
    intros k Hk. apply has_key_getitem.
    unfold Spell.csv_headers in Hk.
    repeat (apply elem_of_cons in Hk as [->|Hk]; [reflexivity|]).
    by apply elem_of_nil in Hk.
Qed.


(** X11: a row as [to_csv_dict] writes it (the eighteen headers in their
    order, the level as [str] writes an integer, each flag ["yes"] or ["no"],
    no material text or cost unless the row has a material component) is
    read by [from_csv_dict] into a record of which [to_csv_dict] makes the
    same row again. *)
Theorem canonical_row_round_trip (row : Spell.row) :
  canonical row ->
  exists s,
    Spell.from_csv_dict Spell.new row = Ok s /\ Spell.to_csv_dict s = row.
Proof.
  intros (Hk & (n & Hl) & Hf & Hm).
  assert (NoDup (map fst row)) as Hnd by (rewrite Hk; apply NoDup_csv_headers).
  assert (forall k, k ∈ Spell.csv_headers ->
            Spell.getitem row k = Ok (get_cell row k)) as Hg.
  { intros k Hin. apply has_key_getitem, has_key_elem. by rewrite Hk. }
  unfold flag_columns in Hf. rewrite Forall_forall in Hf.
  pose proof (Hf "concentration" ltac:(in_list)) as F1.
  pose proof (Hf "ritual" ltac:(in_list)) as F2.
  pose proof (Hf "verbal" ltac:(in_list)) as F3.
  pose proof (Hf "somatic" ltac:(in_list)) as F4.
  pose proof (Hf "material" ltac:(in_list)) as F5.
  pose proof (Hf "material_costly" ltac:(in_list)) as F6.
  pose proof (Hf "material_consumed" ltac:(in_list)) as F7.
  unfold Spell.from_csv_dict.
  rewrite !Hg by (unfold Spell.csv_headers; in_list).
  cbn [bind]. unfold to_int. rewrite Hl, int_str. cbn [bind].
  cbn [Spell.material Spell.set_material_consumed Spell.set_material_costly
       Spell.set_material default from_option id].
  pose proof (row_of_keys row Hnd) as Hrow. rewrite Hk in Hrow.
  cbn [map Spell.csv_headers] in Hrow.
  destruct F5 as [M|M].
  - replace (Spell.is_yes (get_cell row "material")) with true
      by (rewrite M; reflexivity).
    cbn [bind].
    destruct (0 <? String.length (get_cell row "material_cost")) eqn:Ec;
      cbn [bind]; eexists; (split; [reflexivity|]);
      (etransitivity; [|symmetry; exact Hrow]);
      unfold Spell.to_csv_dict;
      cbn -[Py.join Py.split Py.str Spell.yes_no Spell.is_yes get_cell];
      rewrite join_split by discriminate;
      rewrite !yes_no_is_yes by assumption; rewrite Hl, M; try reflexivity.
    destruct (get_cell row "material_cost"); [reflexivity|discriminate].
  - replace (Spell.is_yes (get_cell row "material")) with false
      by (rewrite M; reflexivity).
    cbn [bind]. destruct (Hm M) as [Ht Hc].
    eexists; (split; [reflexivity|]);
      (etransitivity; [|symmetry; exact Hrow]);
      unfold Spell.to_csv_dict;
      cbn -[Py.join Py.split Py.str Spell.yes_no Spell.is_yes get_cell];
      rewrite join_split by discriminate;
      rewrite !yes_no_is_yes by assumption; rewrite Hl, M, Ht, Hc; reflexivity.
Qed.

Lemma canonical_row_round_trip_witness :
  exists s,
    Spell.from_csv_dict Spell.new (Spell.to_csv_dict sample_record) = Ok s /\
    Spell.to_csv_dict s = Spell.to_csv_dict sample_record.
Proof.
  apply canonical_row_round_trip.
  split; [reflexivity|]. split; [exists 3%Z; vm_compute; reflexivity|]. split.
  - unfold flag_columns.
    repeat (apply Forall_cons; split; [vm_compute; auto|]). constructor.
  - intros H. vm_compute in H. discriminate H.
Defined.


(** X13: the rows that [to_csv_dict] makes of the records of a dictionary,
    taken in any order, are loaded by [load_spells_from_csv] into the same
    dictionary, when each record is stored under its name and is one that a
    row carries without loss (the records of C7: every attribute but the
    optional ones set, a class list that is not empty, [material_text]
    exactly with a material component). *)
Theorem csv_rows_give_the_dictionary_back
  (spells : gmap string Spell.t) (l : list Spell.t) :
  l ≡ₚ (map_to_list spells).*2 ->
  (forall n s, spells !! n = Some s ->
     Spell.name s = Some n /\ csv_faithful s) ->
  File.load_spells_from_csv (Spell.to_csv_dict <$> l) = File.Loaded spells.
Proof.
  intros Hl Hs.
  assert (forall s, s ∈ l <-> exists n, spells !! n = Some s) as Hin.
  { intros s. rewrite Hl, list_elem_of_fmap. split.
    - intros ([n s'] & -> & H%elem_of_map_to_list). by exists n.
    - intros (n & H). exists (n, s). split; [reflexivity|].
      by apply elem_of_map_to_list. }
  unfold File.load_spells_from_csv.
  pose proof (read_rows_spec (Spell.to_csv_dict <$> l) ∅) as H.
  destruct (File.read_rows _ ∅) as [spells'|e].
  - destruct H as [_ Hn]. f_equal. apply map_eq. intros n. rewrite Hn.
    pose proof (last_named_written l n) as Hlast.
    destruct (last_named (Spell.to_csv_dict <$> l) n) as [row|].
    + destruct Hlast as (s & Hsl & -> & Hname).
      apply Hin in Hsl as (k & Hk). destruct (Hs k s Hk) as [Hnm Hf].
      rewrite Hnm in Hname. cbn in Hname. subst k.
      unfold spell_of_row. by rewrite (csv_faithful_round_trip s Hf), Hk.
    + rewrite lookup_empty. destruct (spells !! n) as [s|] eqn:E; [|reflexivity].
      destruct (Hs n s E) as [Hnm _]. exfalso. apply (Hlast s).
      * apply Hin. by exists n.
      * by rewrite Hnm.
  - exfalso. destruct H as (row & (s & -> & Hsl)%list_elem_of_fmap & Hr).
    apply Hin in Hsl as (k & Hk). destruct (Hs k s Hk) as [_ Hf].
    apply Hr. apply from_csv_dict_Ok_readable with Spell.new s.
    by apply csv_faithful_round_trip.
Qed.

Lemma csv_rows_give_the_dictionary_back_witness :
  File.load_spells_from_csv (Spell.to_csv_dict <$> [sample_record]) =
  File.Loaded (<["A" := sample_record]> ∅).
Proof.
  apply csv_rows_give_the_dictionary_back.
  - rewrite insert_empty, map_to_list_singleton. reflexivity.
  - intros n s H. rewrite insert_empty in H.
    apply lookup_singleton_Some in H as [<- <-].
    split; [vm_compute; reflexivity|].
    unfold csv_faithful.
    split; [vm_compute; repeat split; eauto|].
    split; [vm_compute; repeat split; eauto|].
    split.
    { exists ["Bard"]. split; [reflexivity|]. split; [discriminate|].
      constructor; [reflexivity|constructor]. }
    split; [vm_compute; split; eauto|]. split; [vm_compute; eauto|].
    vm_compute. discriminate.
Defined.

(** X14: a record goes through its YAML entry without loss under the
    conditions of the CSV row: for a record with every attribute but the
    optional ones set, a class list that is not empty, [material_text]
    exactly with a material component, the entry that [to_yaml_dict] makes of
    it, with the rules text as [yaml_rules_presenter] writes it (the content
    of the wrapper), is read by [from_yaml_dict] under the record's name into
    an object with the attributes of the record. *)
Theorem yaml_entry_round_trip (s : Spell.t) (n : string) :
  csv_faithful s -> Spell.name s = Some n ->
  exists entry written,
    dump_yaml_entry s = Good (VDict entry) /\
    represented entry = Good written /\
    Spell.from_yaml_dict ∅ n (VDict written) = Good (Spell.attrs s).
Proof. exact (yaml_faithful_round_trip s n). Qed.

Lemma yaml_entry_round_trip_witness :
  exists entry written,
    dump_yaml_entry sample_record = Good (VDict entry) /\
    represented entry = Good written /\
    Spell.from_yaml_dict ∅ "A" (VDict written) = Good (Spell.attrs sample_record).
Proof.
  apply yaml_entry_round_trip; [|vm_compute; reflexivity].
  unfold csv_faithful.
  split; [vm_compute; repeat split; eauto|].
  split; [vm_compute; repeat split; eauto|].
  split.
  { exists ["Bard"]. split; [reflexivity|]. split; [discriminate|].
    constructor; [reflexivity|constructor]. }
  split; [vm_compute; split; eauto|]. split; [vm_compute; eauto|].
  vm_compute. discriminate.
Defined.


(** X16: how [load_spells_from_yaml] ends.  A document that is no mapping
    ends the program through [SystemExit].  For a mapping, each entry is
    read under its key, which becomes the name of the object, and the
    dictionary holds the object of the last item of each key; an exception
    of [from_yaml_dict] on an entry is caught by nothing: the loop stands
    outside the [try] of the function. *)
Theorem yaml_file_is_read_by_entries (spell_dicts : value) :
  match File.load_spells_from_yaml spell_dicts with
  | File.Objects spells =>
      exists items,
        spell_dicts = VDict items /\
        forall n, spells !! n = last_entry items n ≫= object_of_entry n
  | File.Exit => forall items, spell_dicts <> VDict items
  | File.Uncaught e =>
      exists items n entry,
        spell_dicts = VDict items /\ (n, entry) ∈ items /\
        Spell.from_yaml_dict ∅ n entry = Bad e
  end.
Proof.
  destruct spell_dicts as [| | | | | |items|]; cbn; try discriminate.
  pose proof (read_entries_spec items ∅) as H.
  destruct (File.read_entries items ∅) as [spells|e].
  - exists items. split; [reflexivity|]. intros n. rewrite H.
    destruct (last_entry items n); [reflexivity|]. apply lookup_empty.
  - destruct H as (n & entry & Hin & Hr). by exists items, n, entry.
Qed.

(** X17: the document that [dump_yaml] makes of a dictionary of records
    (the entry of each record under its key, the rules text as the presenter
    writes it, the items in any order) is loaded by [load_spells_from_yaml]
    into the dictionary of the same records, as objects, when each record is
    stored under its name and goes through an entry without loss. *)
Theorem yaml_items_give_the_dictionary_back
  (spells : gmap string Spell.t) (l : list (string * Spell.t)) :
  l ≡ₚ map_to_list spells ->
  (forall n s, spells !! n = Some s ->
     Spell.name s = Some n /\ csv_faithful s) ->
  exists items,
    yaml_items l = Good items /\
    File.load_spells_from_yaml (VDict items) =
      File.Objects (Spell.attrs <$> spells).
Proof.
  intros Hl Hs.
  assert (forall n s, (n, s) ∈ l <-> spells !! n = Some s) as Hin.
  { intros n s. rewrite Hl. apply elem_of_map_to_list. }
  destruct (yaml_items_faithful l) as (items & Hi & Hall).
  { apply Forall_forall. intros [n s] H. apply Hs. by apply Hin. }
  exists items. split; [exact Hi|].
  cbn [File.load_spells_from_yaml].
  pose proof (read_entries_spec items ∅) as H.
  destruct (File.read_entries items ∅) as [objs|e].
  - f_equal. apply map_eq. intros n. rewrite H, lookup_fmap.
    pose proof (last_entry_spec items n) as Hlast.
    destruct (last_entry items n) as [entry|].
    + apply (Forall2_elem_r _ _ _ _ Hall) in Hlast
        as ([n' s] & Hns & Hk & Hr).
      cbn [fst snd] in Hk, Hr. subst n'.
      apply Hin in Hns. rewrite Hns. cbn.
      unfold object_of_entry. by rewrite Hr.
    + rewrite lookup_empty.
      destruct (spells !! n) as [s|] eqn:E; [|reflexivity].
      exfalso. apply Hin in E.
      apply (Forall2_elem_l _ _ _ _ Hall) in E
        as ([n' entry] & Hne & Hk & _).
      cbn [fst snd] in Hk. subst n'. by apply (Hlast entry).
  - exfalso. destruct H as (n & entry & Hne & Hr).
    apply (Forall2_elem_r _ _ _ _ Hall) in Hne
      as ([n' s] & Hns & Hk & Hr').
    cbn [fst snd] in Hk, Hr'. subst n'. congruence.
Qed.

Lemma yaml_items_give_the_dictionary_back_witness :
  exists items,
    yaml_items [("A", sample_record)] = Good items /\
    File.load_spells_from_yaml (VDict items) =
      File.Objects (Spell.attrs <$> (<["A" := sample_record]> ∅)).
Proof.
  apply yaml_items_give_the_dictionary_back.
  - rewrite insert_empty, map_to_list_singleton. reflexivity.
  - intros n s H. rewrite insert_empty in H.
    apply lookup_singleton_Some in H as [<- <-].
    split; [vm_compute; reflexivity|].
    unfold csv_faithful.
    split; [vm_compute; repeat split; eauto|].
    split; [vm_compute; repeat split; eauto|].
    split.
    { exists ["Bard"]. split; [reflexivity|]. split; [discriminate|].
      constructor; [reflexivity|constructor]. }
    split; [vm_compute; split; eauto|]. split; [vm_compute; eauto|].
    vm_compute. discriminate.
Defined.

(** X18: what the checks of [retrieve_json] ensure.  A document passes them
    only if it is a mapping with a key ["Spellcasting"]; the only exceptions
    are the three [RuntimeError]s for a missing node and the [TypeError] of
    the test [in] on a value that cannot be searched.  When the value under
    ["Spellcasting"] is a mapping, passing the checks means that it has the
    keys ["Spell Descriptions"] and ["Spell Lists"], and [parse_spells] gets
    its two sections.  The checks also pass when that value is a list or a
    text that holds the two names; then the lookups of [parse_spells] raise
    a [TypeError]. *)
Theorem retrieve_json_checks (response : value) :
  match retrieve_json response with
  | Good spell_json =>
      spell_json = response /\
      exists d spellcasting,
        response = VDict d /\ Value.get d "Spellcasting" = Some spellcasting /\
        match spellcasting with
        | VDict s =>
            exists spell_data class_data,
              Value.get s "Spell Descriptions" = Some spell_data /\
              Value.get s "Spell Lists" = Some class_data /\
              sections response = Good (spell_data, class_data)
        | _ => sections response = Bad TypeError
        end
  | Bad e =>
      e = TypeError \/ e = missing_node "Spellcasting" \/
      e = missing_node "Spell Descriptions" \/ e = missing_node "Spell Lists"
  end.
Proof. exact (retrieve_json_cases response). Qed.

(** X19: [get_padded_rules] returns the rules followed by [k] line breaks and
    nothing else, where [k] is the least number of steps of 30 that bring
    the rough size of the text (its length and 30 for each blank line) to
    240 or more: none for a text that has this size, never more than 8.  The
    loop ends for every text: with any bound of 8 turns or more it gives the
    same result. *)
Theorem rules_are_padded_with_line_breaks (spell : Spell.t) (text : string) :
  Spell.rules spell = Some text ->
  let k := breaks_needed (rough_size text) in
  Cardmaker.get_padded_rules spell = Ok (text +:+ line_breaks k) /\
  k <= 8 /\
  (forall j, 240 <= rough_size text + 30 * j <-> k <= j) /\
  (forall fuel, 8 <= fuel ->
     Cardmaker.pad fuel (rough_size text) text = text +:+ line_breaks k).
Proof.
  intros H k. pose proof (breaks_needed_le (rough_size text)) as L.
  repeat split.
  - unfold Cardmaker.get_padded_rules. rewrite H. f_equal.
    apply pad_line_breaks. exact L.
  - exact L.
  - apply breaks_needed_least.
  - apply breaks_needed_least.
  - intros fuel F. apply pad_line_breaks. unfold k. lia.
Qed.

Lemma rules_are_padded_with_line_breaks_witness :
  Cardmaker.get_padded_rules (Spell.set_rules "A bolt of fire." Spell.new) =
    Ok ("A bolt of fire." +:+
        line_breaks (breaks_needed (rough_size "A bolt of fire."))).
Proof.
  exact (proj1 (rules_are_padded_with_line_breaks
                  (Spell.set_rules "A bolt of fire." Spell.new)
                  "A bolt of fire." eq_refl)).
Defined.

(** X20: the name of the file of a card, for a spell name in ASCII.  It
    holds only letters, digits, points, underscores, hyphens and blanks, so
    no path separator; a name made of such characters is kept as it is, and
    so is the result when the filter is applied again.  Any other character
    is dropped without a trace: the name with it and the name without it
    give the same file. *)
Theorem card_file_name_is_plain (name : string) :
  all_chars is_ascii name = true ->
  let f := Cardmaker.fn name in
  all_chars plain f = true /\
  Py.contains "/" f = false /\ Py.contains "\" f = false /\
  (all_chars plain name = true -> f = name) /\
  Cardmaker.fn f = f /\
  (forall u c v,
     name = u +:+ String c v -> plain c = false -> f = Cardmaker.fn (u +:+ v)).
Proof.
  intros _ f. unfold f. rewrite !fn_keep.
  pose proof (keep_all plain name) as Hall.
  split; [exact Hall|].
  split; [by apply (all_chars_without plain)|].
  split; [by apply (all_chars_without plain)|].
  split; [apply keep_id|].
  split; [apply keep_id, Hall|].
  intros u c v -> Hc. rewrite fn_keep, !keep_append. cbn [Cardmaker.keep].
  by rewrite Hc.
Qed.

Lemma card_file_name_is_plain_witness :
  all_chars plain (Cardmaker.fn "Blindness/Deafness") = true /\
  Cardmaker.fn "Blindness/Deafness" = Cardmaker.fn ("Blindness" +:+ "Deafness").
Proof.
  pose proof (card_file_name_is_plain "Blindness/Deafness" eq_refl)
    as (H1 & _ & _ & _ & _ & H2).
  split; [exact H1|]. apply (H2 "Blindness" "/"%char "Deafness"); reflexivity.
Defined.



(** X22: the rows of the class list that [add_class_list] highlights.  The
    row [i] is highlighted exactly when the class at index [i] of the
    configured list is in the class list of the spell; a class of the spell
    that the configuration does not have is shown nowhere, and neither the
    order of the spell's class list nor a class that is in it twice makes a
    difference. *)
Theorem highlighted_class_rows (classes_of_config classes : list string) :
  (forall i cls,
     (i, cls) ∈ Cardmaker.active_rows classes_of_config classes <->
     classes_of_config !! i = Some cls /\ cls ∈ classes) /\
  (forall classes',
     (forall cls, cls ∈ classes <-> cls ∈ classes') ->
     Cardmaker.active_rows classes_of_config classes' =
     Cardmaker.active_rows classes_of_config classes).
Proof.
  split.
  - intros i cls. unfold Cardmaker.active_rows. rewrite active_from_elem.
    rewrite Nat.sub_0_r. split; [tauto|]. intros H. split; [lia|exact H].
  - intros classes' H. symmetry. by apply active_from_same.
Qed.

(** X23: from the class lists of the document to the card.  For a record of
    a finished run, the row of a configured class is highlighted exactly
    when the name of the spell is listed under a class label whose part
    before the first blank is that class. *)
Theorem highlighted_classes_of_a_record
  (data : list (string * spell_info)) (lists : class_data)
  (st : extractor) (n : string) (spell : Spell.t)
  (classes_of_config : list string) :
  parse_spells data lists init = Finished st ->
  spells st !! n = Some spell ->
  exists classes,
    Spell.classes spell = Some classes /\
    forall i cls,
      (i, cls) ∈ Cardmaker.active_rows classes_of_config classes <->
      classes_of_config !! i = Some cls /\
      exists label section level names,
        (label, section) ∈ lists /\ (level, names) ∈ section /\
        n ∈ names /\ cls = first_token label.
Proof.
  intros H Hn. exists (listed_tokens lists n).
  split; [by apply parse_spells_classes with data st|].
  intros i cls. unfold Cardmaker.active_rows. rewrite active_from_elem.
  rewrite Nat.sub_0_r, listed_tokens_elem. split; [tauto|].
  intros H'. split; [lia|exact H'].
Qed.

Lemma highlighted_classes_of_a_record_witness :
  let spell :=
    extend ["Bard"] (populate_spell_rules (parsed "A" sample_metadata) "Some rules.") in
  exists classes,
    Spell.classes spell = Some classes /\
    forall i cls,
      (i, cls) ∈ Cardmaker.active_rows ["Artificer"; "Bard"; "Cleric"] classes <->
      ["Artificer"; "Bard"; "Cleric"] !! i = Some cls /\
      exists label section level names,
        (label, section) ∈ [("Bard Spells", [("3rd Level", ["A"])])] /\
        (level, names) ∈ section /\ "A" ∈ names /\ cls = first_token label.
Proof.
  intros spell.
  apply (highlighted_classes_of_a_record
           [("A", Some [NStr sample_metadata; NStr "Some rules."])]
           [("Bard Spells", [("3rd Level", ["A"])])]
           (Extractor (<["A" := spell]> ∅) []) "A").
  - vm_compute. reflexivity.
  - vm_compute. reflexivity.
Defined.

(** X24: the spell of the option [-s], for a name in ASCII.  The name is
    looked up as it is given, then in title case, then in lower case, and the
    first of the three that is a key is taken.  So the key that is found is
    a key of the dictionary and differs from the name given in the case of
    its letters only, and a name that is a key is found as it is; nothing is
    found only when none of the three forms is a key. *)
Theorem single_spell_is_found_up_to_case
  (single_spell : string) (spells : gmap string Spell.t) :
  all_chars is_ascii single_spell = true ->
  match Main.target_spell single_spell spells with
  | Some target =>
      is_Some (spells !! target) /\
      Py.lower_str target = Py.lower_str single_spell /\
      (is_Some (spells !! single_spell) -> target = single_spell)
  | None =>
      spells !! single_spell = None /\
      spells !! Py.title single_spell = None /\
      spells !! Py.lower_str single_spell = None
  end.
Proof.
  intros _. unfold Main.target_spell.
  repeat case_bool_decide.
  - auto.
  - split; [done|]. split; [apply lower_str_title_from|done].
  - split; [done|]. split; [apply lower_str_idem|done].
  - repeat split; by apply eq_None_not_Some.
Qed.

Lemma single_spell_is_found_up_to_case_witness :
  match Main.target_spell "magic missile" (<["Magic Missile" := Spell.new]> ∅) with
  | Some target =>
      is_Some ((<["Magic Missile" := Spell.new]> ∅ : gmap string Spell.t) !! target) /\
      Py.lower_str target = Py.lower_str "magic missile" /\
      (is_Some ((<["Magic Missile" := Spell.new]> ∅ : gmap string Spell.t)
                  !! "magic missile") ->
       target = "magic missile")
  | None =>
      (<["Magic Missile" := Spell.new]> ∅ : gmap string Spell.t)
        !! "magic missile" = None /\
      (<["Magic Missile" := Spell.new]> ∅ : gmap string Spell.t)
        !! Py.title "magic missile" = None /\
      (<["Magic Missile" := Spell.new]> ∅ : gmap string Spell.t)
        !! Py.lower_str "magic missile" = None
  end.
Proof.
  apply (single_spell_is_found_up_to_case "magic missile"
           (<["Magic Missile" := Spell.new]> ∅)).
  reflexivity.
Defined.

(** X25: the value that [Config.get] gives for a dotted name.  A path of
    keys counts when it leads through mappings only.  If the user's
    configuration has the path, its value is returned, also when that value
    is [null]; otherwise the value of [CONFIG_TEMPLATE] at the path, and
    [None] when the template has no such path either.  A text or a list on
    the way counts as a missing key.  A number or a truth value on the way
    is searched with [in] and raises a [TypeError], which is not caught: in
    the user's configuration it keeps the template from being asked.  While
    no configuration is loaded, the template alone decides. *)
Theorem config_get_prefers_the_user (user_config template : value)
  (attr_dot_string : string) :
  let attrs := Py.split "." attr_dot_string in
  Config.get user_config template attr_dot_string =
    match path user_config attrs with
    | Some v => Good v
    | None =>
        if blocked user_config attrs then Bad TypeError
        else match path template attrs with
             | Some v => Good v
             | None =>
                 if blocked template attrs then Bad TypeError else Good VNone
             end
    end /\
  Config.get VNone template attr_dot_string =
    match path template attrs with
    | Some v => Good v
    | None => if blocked template attrs then Bad TypeError else Good VNone
    end.
Proof.
  intros attrs.
  assert (forall user,
            Config.get user template attr_dot_string =
            match path user attrs with
            | Some v => Good v
            | None =>
                if blocked user attrs then Bad TypeError
                else match path template attrs with
                     | Some v => Good v
                     | None =>
                         if blocked template attrs then Bad TypeError
                         else Good VNone
                     end
            end) as Hget.
  { intros user. unfold Config.get. fold attrs.
    pose proof (walk_cases user attrs) as Hu.
    pose proof (walk_cases template attrs) as Ht.
    destruct (path user attrs) as [v|]; [by rewrite Hu|].
    destruct (blocked user attrs); [by rewrite Hu|].
    destruct Hu as [a ->].
    destruct (path template attrs) as [v|]; [by rewrite Ht|].
    destruct (blocked template attrs); [by rewrite Ht|].
    by destruct Ht as [b ->]. }
  split; [apply Hget|]. rewrite Hget.
  pose proof (split_from_not_nil "." 0 "" attr_dot_string) as Hne.
  fold (Py.split "." attr_dot_string) in Hne. fold attrs in Hne.
  by destruct attrs.
Qed.


(** X27: the rules text that [add_rules] draws.  With the padding on, it is
    the rules with the three characters replaced, followed by the line
    breaks of the padding; their number is computed from the rules as they
    are before the replacement.  With the padding off, it is the rules with
    the three characters replaced. *)
Theorem drawn_rules_text (spell : Spell.t) (text : string) :
  Spell.rules spell = Some text ->
  Cardmaker.rule_text true spell =
    Ok (Cardmaker.replace_problematic_chars text +:+
        line_breaks (breaks_needed (rough_size text))) /\
  Cardmaker.rule_text false spell =
    Ok (Cardmaker.replace_problematic_chars text).
Proof.
  intros H. unfold Cardmaker.rule_text, Cardmaker.get_padded_rules.
  rewrite H. cbn [bind]. split; [|reflexivity]. f_equal.
  rewrite pad_line_breaks by apply breaks_needed_le.
  unfold Cardmaker.replace_problematic_chars, Py.replace.
  apply replace_from_apart; [discriminate|apply apart_line_breaks|lia].
Qed.

Lemma drawn_rules_text_witness :
  Cardmaker.rule_text true (Spell.set_rules "A bolt of fire." Spell.new) =
    Ok (Cardmaker.replace_problematic_chars "A bolt of fire." +:+
        line_breaks (breaks_needed (rough_size "A bolt of fire."))).
Proof.
  exact (proj1 (drawn_rules_text (Spell.set_rules "A bolt of fire." Spell.new)
                  "A bolt of fire." eq_refl)).
Defined.
